(** * AQED partial-fetch reader: a shallow embedding of [repro/api_smoketest.py]

    The development follows the Python source function by function:
    [http_request] (the range transport), [parse_aqed_header] and
    [fetch_aqed_sample_vectors] (the sampling operation).  Python integers are
    unbounded, so they are plain [Z]; [bytes] objects are lists of [byte];
    exceptions are an explicit result type; the network is an environment
    function that is consulted once per [urlopen] call, with the list of the
    requests issued so far threaded through as state. *)

From Stdlib Require Import ZArith String Ascii Bool Lia List.
From Stdlib Require Import Strings.Byte Numbers.DecimalString Floats.SpecFloat.
Import ListNotations.
Local Open Scope Z_scope.

(** ** Bytes and the [struct] module *)

Definition bytes := list byte.

Definition u8 (b : byte) : Z := Z.of_N (Byte.to_N b).

(** Python [len]. *)
Definition len {A : Type} (l : list A) : Z := Z.of_nat (List.length l).

(** Python slices [buf[:k]] and [buf[k:]] for a non-negative [k]. *)
Definition slice_to {A : Type} (k : Z) (l : list A) : list A := firstn (Z.to_nat k) l.
Definition slice_from {A : Type} (k : Z) (l : list A) : list A := skipn (Z.to_nat k) l.

(** The value of four bytes read as a little-endian unsigned 32-bit integer. *)
Definition le32 (b0 b1 b2 b3 : byte) : Z :=
  u8 b0 + u8 b1 * 2 ^ 8 + u8 b2 * 2 ^ 16 + u8 b3 * 2 ^ 24.

(** The exceptions the modelled code can raise.  Every [raise ValueError(...)]
    of the source is one constructor of [ValueErrorMsg], carrying the values
    that the source formats into the message. *)
Inductive ValueErrorMsg : Type :=
| HeaderNeeds64                      (* parse_aqed_header, len(buf) < 64 *)
| MissingMagic                       (* parse_aqed_header, buf[:4] != b"AQED" *)
| UnsupportedVersion (version : Z)   (* parse_aqed_header, version != 1 *)
| InvalidHeader (n d_orig : Z)       (* parse_aqed_header, n <= 0 or d_orig <= 0 *)
| NoEmbeddings (flags : Z)           (* parse_aqed_header, dim <= 0 *)
| HeaderFetchFailed (status : Z)     (* fetch_aqed_sample_vectors, head.status *)
| HeaderTooSmall                     (* fetch_aqed_sample_vectors, len(head.body) < 64 *)
| NoOriginalSection                  (* fetch_aqed_sample_vectors, bit 0 clear *)
| RangeFetchFailed (status : Z)      (* fetch_aqed_sample_vectors, chunk.status *)
| RangeTruncated (need got : Z).     (* fetch_aqed_sample_vectors, len(chunk.body) < byte_len *)

Inductive Exn : Type :=
| ValueError (msg : ValueErrorMsg)
| StructError                        (* struct.error: buffer too small *)
| TransportFailure (cause : string). (* URLError, timeout, ... out of urlopen *)

Inductive Result (A : Type) : Type :=
| Ok (a : A)
| Raise (e : Exn).
Arguments Ok {A} a.
Arguments Raise {A} e.

Definition rbind {A B : Type} (r : Result A) (k : A -> Result B) : Result B :=
  match r with
  | Ok a => k a
  | Raise e => Raise e
  end.

Declare Scope result_scope.
Delimit Scope result_scope with result.
Notation "x <- r ;; k" := (rbind r (fun x => k))
  (at level 61, r at next level, right associativity) : result_scope.

(** Decimal rendering of a Python integer, as an f-string does it. *)
Definition str_of_int (z : Z) : string := NilZero.string_of_int (Z.to_int z).

(** The text of each [ValueError], as the source writes it. *)
Definition message (m : ValueErrorMsg) : string :=
  match m with
  | HeaderNeeds64 => "AQED header requires at least 64 bytes for safe detection"
  | MissingMagic => "Invalid AQED: missing magic bytes"
  | UnsupportedVersion v => "Unsupported AQED version: " ++ str_of_int v
  | InvalidHeader n d => "Invalid AQED header: n=" ++ str_of_int n ++ ", dOrig=" ++ str_of_int d
  | NoEmbeddings f =>
      "Invalid AQED flags: no embeddings present (flags=" ++ str_of_int f ++ ")"
  | HeaderFetchFailed s => "Dataset header fetch failed (HTTP " ++ str_of_int s ++ ")"
  | HeaderTooSmall => "Dataset header too small"
  | NoOriginalSection => "Dataset AQED does not contain original embeddings section"
  | RangeFetchFailed s => "Dataset range fetch failed (HTTP " ++ str_of_int s ++ ")"
  | RangeTruncated need got =>
      "Dataset range truncated (need " ++ str_of_int need ++ ", got " ++ str_of_int got ++ ")"
  end%string.

(** [struct.unpack_from("<I", buf, offset)[0]] for [offset >= 0]: the buffer
    must hold four bytes from [offset] on, else [struct.error]. *)
Definition unpack_from_I (buf : bytes) (offset : Z) : Result Z :=
  if len buf - offset <? 4 then Raise StructError
  else match slice_from offset buf with
       | b0 :: b1 :: b2 :: b3 :: _ => Ok (le32 b0 b1 b2 b3)
       | _ => Raise StructError
       end.

(** A Python float obtained from an IEEE-754 binary32 bit pattern: sign in
    bit 31, biased exponent in bits 23..30, fraction in bits 0..22.  The
    widening to Python's binary64 keeps the value, so the value itself is
    what is modelled. *)
Definition pyfloat := spec_float.

Definition f32_of_bits (w : Z) : pyfloat :=
  let s := Z.testbit w 31 in
  let e := (w / 2 ^ 23) mod 2 ^ 8 in
  let f := w mod 2 ^ 23 in
  if e =? 255 then (if f =? 0 then S754_infinity s else S754_nan)
  else if e =? 0 then
         match f with
         | Zpos m => S754_finite s m (-149)
         | _ => S754_zero s
         end
       else match f + 2 ^ 23 with
            | Zpos m => S754_finite s m (e - 150)
            | _ => S754_zero s
            end.

(** The first [k] little-endian 32-bit words of a byte list. *)
Fixpoint words_le (k : nat) (bs : bytes) : list Z :=
  match k with
  | O => []
  | S k' =>
      match bs with
      | b0 :: b1 :: b2 :: b3 :: rest => le32 b0 b1 b2 b3 :: words_le k' rest
      | _ => []
      end
  end.

(** [list(struct.unpack_from("<" + "f" * d, buf, offset))] for [offset >= 0]. *)
Definition unpack_from_f (d : Z) (buf : bytes) (offset : Z) : Result (list pyfloat) :=
  if len buf - offset <? 4 * d then Raise StructError
  else Ok (map f32_of_bits (words_le (Z.to_nat d) (slice_from offset buf))).

(** ** [parse_aqed_header] *)

Definition magic : bytes := [x41; x51; x45; x44]%byte.   (* b"AQED" *)

Definition bytes_eqb (a b : bytes) : bool :=
  if list_eq_dec Byte.byte_eq_dec a b then true else false.

Definition FLAG_HAS_ORIGINAL : Z := Z.shiftl 1 0.
Definition FLAG_HAS_AQEA : Z := Z.shiftl 1 1.

(** Python truth value of an integer. *)
Definition truthy (z : Z) : bool := negb (z =? 0).

(** Line 138 of the source: the dimension of the section flagged present. *)
Definition effective_dim (d_orig d_aqea flags : Z) : Z :=
  if truthy (Z.land flags FLAG_HAS_ORIGINAL) then d_orig
  else if truthy (Z.land flags FLAG_HAS_AQEA) then d_aqea
  else 0.

(** Returns [(header_size, n_vectors, d_orig, flags)]. *)
Definition parse_aqed_header (buf : bytes) : Result (Z * Z * Z * Z) :=
  (if len buf <? 64 then Raise (ValueError HeaderNeeds64)
   else if negb (bytes_eqb (slice_to 4 buf) magic) then Raise (ValueError MissingMagic)
   else
     version <- unpack_from_I buf 4 ;;
     if negb (version =? 1) then Raise (ValueError (UnsupportedVersion version))
     else
       n <- unpack_from_I buf 8 ;;
       d_orig <- unpack_from_I buf 12 ;;
       d_aqea <- unpack_from_I buf 16 ;;
       flags <- unpack_from_I buf 20 ;;
       if (n <=? 0) || (d_orig <=? 0) then Raise (ValueError (InvalidHeader n d_orig))
       else
         let dim := effective_dim d_orig d_aqea flags in
         if dim <=? 0 then Raise (ValueError (NoEmbeddings flags))
         else
           let header_size := 64 in
           Ok (header_size, n, d_orig, flags))%result.

(** ** The range transport: [http_request] *)

(** A Python [dict] with string keys and values, in insertion order. *)
Definition dict := list (string * string).

Fixpoint dict_set (k v : string) (d : dict) : dict :=
  match d with
  | [] => [(k, v)]
  | (k', v') :: d' =>
      if String.eqb k' k then (k', v) :: d' else (k', v') :: dict_set k v d'
  end.

(** [d.update(items)]. *)
Definition dict_update (d : dict) (items : list (string * string)) : dict :=
  fold_left (fun acc kv => dict_set (fst kv) (snd kv) acc) items d.

(** [str.lower] and [str.upper] on ASCII text. *)
Definition ascii_lower (c : ascii) : ascii :=
  let n := N_of_ascii c in
  if ((65 <=? n) && (n <=? 90))%N then ascii_of_N (n + 32) else c.

Definition ascii_upper (c : ascii) : ascii :=
  let n := N_of_ascii c in
  if ((97 <=? n) && (n <=? 122))%N then ascii_of_N (n - 32) else c.

Fixpoint str_map (f : ascii -> ascii) (s : string) : string :=
  match s with
  | EmptyString => EmptyString
  | String c s' => String (f c) (str_map f s')
  end.

Definition lower : string -> string := str_map ascii_lower.
Definition upper : string -> string := str_map ascii_upper.

(** [{k.lower(): v for k, v in items}]. *)
Definition lower_keys (items : list (string * string)) : dict :=
  fold_left (fun acc kv => dict_set (lower (fst kv)) (snd kv) acc) items [].

(** The dataclass [HttpResult].  Its [elapsed_ms] field is a wall-clock
    reading that no modelled code inspects; it is not represented. *)
Record HttpResult : Type := mkHttpResult {
  status : Z;
  headers : dict;
  body : bytes
}.

(** What is handed to [urllib.request.urlopen]: the [Request] object and the
    timeout. *)
Record Request : Type := mkRequest {
  req_url : string;
  req_method : string;
  req_headers : dict;
  req_data : option bytes;
  req_timeout : pyfloat
}.

(** What the [with urlopen(...) as resp: data = resp.read()] block can do:
    deliver a response, raise [HTTPError] (an error status; [hdrs] and the
    readable body [fp] may be absent), or raise anything else. *)
Inductive UrlopenOutcome : Type :=
| Responded (resp_status : Z) (resp_headers : list (string * string)) (data : bytes)
| RaisedHTTPError (code : Z) (hdrs : option (list (string * string))) (fp : option bytes)
| RaisedOther (cause : string).

(** The network: the outcome of a request may depend on every request made
    before it. *)
Definition Env := list Request -> Request -> UrlopenOutcome.

(** Computations that talk to the network: the log of requests issued so far
    is threaded through, and an exception ends the computation. *)
Definition M (A : Type) : Type := list Request -> Result A * list Request.

Definition ret {A : Type} (a : A) : M A := fun log => (Ok a, log).

Definition raise {A : Type} (m : ValueErrorMsg) : M A :=
  fun log => (Raise (ValueError m), log).

Definition lift {A : Type} (r : Result A) : M A := fun log => (r, log).

Definition bind {A B : Type} (c : M A) (k : A -> M B) : M B :=
  fun log =>
    match c log with
    | (Ok a, log') => k a log'
    | (Raise e, log') => (Raise e, log')
    end.

Declare Scope io_scope.
Delimit Scope io_scope with io.
Notation "x <- c ;; k" := (bind c (fun x => k))
  (at level 61, c at next level, right associativity) : io_scope.
Notation "' p <- c ;; k" := (bind c (fun x => match x with p => k end))
  (at level 61, p pattern, c at next level, right associativity) : io_scope.

Section Transport.

Variable urlopen : Env.

(** Lines 52-55: the [Request] object built from the arguments. *)
Definition build_request (method url : string) (headers : option dict)
    (body : option bytes) (timeout_s : pyfloat) : Request :=
  let req_headers :=
    match headers with
    | Some (kv :: h) => dict_update [] (kv :: h)
    | _ => []
    end in
  mkRequest url (upper method) req_headers body timeout_s.

(** Lines 58-68: the [try] block and its [except HTTPError] handler. *)
Definition result_of_outcome (o : UrlopenOutcome) : Result HttpResult :=
  match o with
  | Responded s h data => Ok (mkHttpResult s (lower_keys h) data)
  | RaisedHTTPError code h fp =>
      let data := match fp with Some d => d | None => [] end in
      let hdrs := match h with Some (kv :: h') => lower_keys (kv :: h') | _ => [] end in
      Ok (mkHttpResult code hdrs data)
  | RaisedOther cause => Raise (TransportFailure cause)
  end.

Definition http_request (method url : string) (headers : option dict)
    (body : option bytes) (timeout_s : pyfloat) : M HttpResult :=
  fun log =>
    let req := build_request method url headers body timeout_s in
    (result_of_outcome (urlopen log req), log ++ [req]).

(** ** The sampling operation: [fetch_aqed_sample_vectors] *)

(** [status not in (200, 206)]. *)
Definition status_ok (s : Z) : bool := (s =? 200) || (s =? 206).

(** The [for _ in range(take)] loop: [count] iterations left, the read cursor
    [offset] and the list [vectors] built so far. *)
Fixpoint decode_loop (count : nat) (d_orig : Z) (buf : bytes) (offset : Z)
    (vectors : list (list pyfloat)) : Result (list (list pyfloat)) :=
  match count with
  | O => Ok vectors
  | S count' =>
      (row <- unpack_from_f d_orig buf offset ;;
       decode_loop count' d_orig buf (offset + d_orig * 4) (vectors ++ [row]))%result
  end.

Definition range_header (value : string) : option dict := Some [("Range", value)]%string.

(** Line 163: the request is clamped to at least one record and at most the
    declared record count. *)
Definition take_count (n_vectors total_n : Z) : Z := Z.min (Z.max 1 n_vectors) total_n.

Definition fetch_aqed_sample_vectors (data_url : string) (n_vectors : Z)
    (timeout_s : pyfloat) : M (Z * list (list pyfloat)) :=
  (head <- http_request "GET" data_url (range_header "bytes=0-63") None timeout_s ;;
   if negb (status_ok (status head)) then raise (HeaderFetchFailed (status head))
   else if len (body head) <? 64 then raise HeaderTooSmall
   else
     '(header_size, total_n, d_orig, flags) <- lift (parse_aqed_header (slice_to 64 (body head))) ;;
     if Z.land flags FLAG_HAS_ORIGINAL =? 0 then raise NoOriginalSection
     else
       let take := take_count n_vectors total_n in
       let byte_len := header_size + take * d_orig * 4 in
       let rng := ("bytes=0-" ++ str_of_int (byte_len - 1))%string in
       chunk <- http_request "GET" data_url (range_header rng) None timeout_s ;;
       if negb (status_ok (status chunk)) then raise (RangeFetchFailed (status chunk))
       else if len (body chunk) <? byte_len
            then raise (RangeTruncated byte_len (len (body chunk)))
            else
              vectors <- lift (decode_loop (Z.to_nat take) d_orig (body chunk) header_size []) ;;
              ret (d_orig, vectors))%io.

End Transport.

(** ** The error taxonomy of the specification

    The source raises [ValueError] everywhere; the specification names three
    kinds of failure.  Each raise site belongs to one of them: an
    unacceptable status or too few bytes from the server is a [FetchError], a
    violated structural rule of the container is a [FormatError], a failure
    of the transport itself is a [TransportError].  [struct.error] belongs to
    none of the three. *)
Inductive ErrorKind : Type := FetchError | FormatError | TransportError.

Definition error_kind (e : Exn) : option ErrorKind :=
  match e with
  | ValueError (HeaderFetchFailed _) => Some FetchError
  | ValueError HeaderTooSmall => Some FetchError
  | ValueError (RangeFetchFailed _) => Some FetchError
  | ValueError (RangeTruncated _ _) => Some FetchError
  | ValueError HeaderNeeds64 => Some FormatError
  | ValueError MissingMagic => Some FormatError
  | ValueError (UnsupportedVersion _) => Some FormatError
  | ValueError (InvalidHeader _ _) => Some FormatError
  | ValueError (NoEmbeddings _) => Some FormatError
  | ValueError NoOriginalSection => Some FormatError
  | TransportFailure _ => Some TransportError
  | StructError => None
  end.

Definition fails_with {A : Type} (r : Result A) (k : ErrorKind) : Prop :=
  exists e, r = Raise e /\ error_kind e = Some k.

(** ** Views used in the statements *)

(** The unsigned little-endian 32-bit field at byte offset [off]. *)
Definition u32_at (buf : bytes) (off : nat) : Z :=
  le32 (nth off buf x00%byte) (nth (off + 1) buf x00%byte)
       (nth (off + 2) buf x00%byte) (nth (off + 3) buf x00%byte).

(** The wire layout of the header. *)
Definition hdr_tag (buf : bytes) : bytes := slice_to 4 buf.
Definition hdr_version (buf : bytes) : Z := u32_at buf 4.
Definition hdr_n (buf : bytes) : Z := u32_at buf 8.
Definition hdr_d_orig (buf : bytes) : Z := u32_at buf 12.
Definition hdr_d_aqea (buf : bytes) : Z := u32_at buf 16.
Definition hdr_flags (buf : bytes) : Z := u32_at buf 20.

(** The checks of [parse_aqed_header] on a buffer of at least 64 bytes, as a
    function of the six header fields. *)
Definition check_header (tag : bytes) (version n d_orig d_aqea flags : Z)
    : Result (Z * Z * Z * Z) :=
  if negb (bytes_eqb tag magic) then Raise (ValueError MissingMagic)
  else if negb (version =? 1) then Raise (ValueError (UnsupportedVersion version))
  else if (n <=? 0) || (d_orig <=? 0) then Raise (ValueError (InvalidHeader n d_orig))
  else if effective_dim d_orig d_aqea flags <=? 0 then Raise (ValueError (NoEmbeddings flags))
  else Ok (64, n, d_orig, flags).

(** Basic validation: tag, version, record count and original dimension. *)
Definition basic_valid (buf : bytes) : Prop :=
  hdr_tag buf = magic /\ hdr_version buf = 1 /\ 0 < hdr_n buf /\ 0 < hdr_d_orig buf.

(** The two requests of a sampling call. *)
Definition header_request (url : string) (timeout_s : pyfloat) : Request :=
  build_request "GET" url (range_header "bytes=0-63") None timeout_s.

Definition payload_request (url : string) (timeout_s : pyfloat) (payload_end : Z) : Request :=
  build_request "GET" url (range_header ("bytes=0-" ++ str_of_int payload_end)) None timeout_s.

(** Lines 153-161 of [fetch_aqed_sample_vectors], as a function of the outcome
    of the header request: the declared record count, the dimension and the
    flags when the header is accepted. *)
Definition header_stage (r : Result HttpResult) : Result (Z * Z * Z) :=
  match r with
  | Raise e => Raise e
  | Ok head =>
      if negb (status_ok (status head)) then Raise (ValueError (HeaderFetchFailed (status head)))
      else if len (body head) <? 64 then Raise (ValueError HeaderTooSmall)
      else
        match parse_aqed_header (slice_to 64 (body head)) with
        | Raise e => Raise e
        | Ok (_, total_n, d_orig, flags) =>
            if Z.land flags FLAG_HAS_ORIGINAL =? 0 then Raise (ValueError NoOriginalSection)
            else Ok (total_n, d_orig, flags)
        end
  end.

(** Lines 167-178, as a function of the outcome of the payload request. *)
Definition payload_stage (take d_orig byte_len : Z) (r : Result HttpResult)
    : Result (Z * list (list pyfloat)) :=
  match r with
  | Raise e => Raise e
  | Ok chunk =>
      if negb (status_ok (status chunk)) then Raise (ValueError (RangeFetchFailed (status chunk)))
      else if len (body chunk) <? byte_len
           then Raise (ValueError (RangeTruncated byte_len (len (body chunk))))
           else
             match decode_loop (Z.to_nat take) d_orig (body chunk) 64 [] with
             | Raise e => Raise e
             | Ok vectors => Ok (d_orig, vectors)
             end
  end.

(** Record [i] of a payload buffer: the [d] 32-bit patterns at byte offset
    [64 + i * (d * 4)], and the floats they denote. *)
Definition record_bits_at (d : Z) (buf : bytes) (i : nat) : list Z :=
  words_le (Z.to_nat d) (slice_from (64 + Z.of_nat i * (d * 4)) buf).

Definition record_at (d : Z) (buf : bytes) (i : nat) : list pyfloat :=
  map f32_of_bits (record_bits_at d buf i).

(** The outcome of the header request of a call started with log [log], and
    of the payload request that follows it. *)
Definition head_result (urlopen : Env) (url : string) (timeout_s : pyfloat)
    (log : list Request) : Result HttpResult :=
  result_of_outcome (urlopen log (header_request url timeout_s)).

Definition chunk_result (urlopen : Env) (url : string) (timeout_s : pyfloat)
    (log : list Request) (payload_end : Z) : Result HttpResult :=
  result_of_outcome
    (urlopen (log ++ [header_request url timeout_s]) (payload_request url timeout_s payload_end)).

(** The whole call as the composition of its two stages. *)
Definition run_view (urlopen : Env) (url : string) (n_vectors : Z) (timeout_s : pyfloat)
    (log : list Request) : Result (Z * list (list pyfloat)) * list Request :=
  match header_stage (head_result urlopen url timeout_s log) with
  | Raise e => (Raise e, log ++ [header_request url timeout_s])
  | Ok (total_n, d_orig, _) =>
      let take := take_count n_vectors total_n in
      let byte_len := 64 + take * d_orig * 4 in
      (payload_stage take d_orig byte_len
         (chunk_result urlopen url timeout_s log (byte_len - 1)),
       (log ++ [header_request url timeout_s])
         ++ [payload_request url timeout_s (byte_len - 1)])
  end.

(** Two transport outcomes agree up to [k] bytes: the same exception, or the
    same status and the same first [k] bytes of the body. *)
Definition agree_upto (k : Z) (r1 r2 : Result HttpResult) : Prop :=
  match r1, r2 with
  | Ok a, Ok b => status a = status b /\ slice_to k (body a) = slice_to k (body b)
  | Raise e1, Raise e2 => e1 = e2
  | _, _ => False
  end.

(** ** Synthetic containers *)

Definition byte_of_Z (z : Z) : byte :=
  match Byte.of_N (Z.to_N (z mod 256)) with
  | Some b => b
  | None => x00%byte
  end.

(** Four bytes, little-endian, of a 32-bit pattern ([struct.pack("<I", w)]). *)
Definition pack_I (w : Z) : bytes :=
  [byte_of_Z w; byte_of_Z (w / 2 ^ 8); byte_of_Z (w / 2 ^ 16); byte_of_Z (w / 2 ^ 24)].

(** A record is given by the binary32 patterns of its values. *)
Definition encode_record (ws : list Z) : bytes := flat_map pack_I ws.
Definition encode_records (recs : list (list Z)) : bytes := flat_map encode_record recs.

Definition word32 (w : Z) : Prop := 0 <= w < 2 ^ 32.

Definition synthetic_header (version n d_orig d_aqea flags : Z) : bytes :=
  magic ++ pack_I version ++ pack_I n ++ pack_I d_orig ++ pack_I d_aqea ++ pack_I flags
        ++ repeat x00%byte 40.

(** A server that ignores [Range] and answers every request with the whole
    content. *)
Definition serve_whole (resp_status : Z) (content : bytes) : Env :=
  fun _ _ => Responded resp_status [] content.

(** A server that answers every request with an error status, which
    [urlopen] raises as [HTTPError]. *)
Definition serve_error (code : Z) (content : bytes) : Env :=
  fun _ _ => RaisedHTTPError code (Some []) (Some content).

(** A server that answers the first request with the first 64 bytes of the
    content and every later one with the first [cut] bytes. *)
Definition serve_truncated (resp_status : Z) (content : bytes) (cut : nat) : Env :=
  fun log _ =>
    match log with
    | [] => Responded resp_status [] (firstn 64 content)
    | _ => Responded resp_status [] (firstn cut content)
    end.

Definition timeout20 : pyfloat := S754_finite false 5 2.   (* 20.0 *)

(** [count] records of dimension [d]; value [j] of record [i] is the pattern
    [i * d + j]. *)
Definition ramp_records (count d : nat) : list (list Z) :=
  map (fun i => map (fun j => Z.of_nat (i * d + j)) (seq 0 d)) (seq 0 count).

(** A container of 100 records of dimension 8 with the original section. *)
Definition original_file : bytes :=
  synthetic_header 1 100 8 0 1 ++ encode_records (ramp_records 100 8).

(** A container that only has the alternate section, of dimension 4. *)
Definition aqea_only_file : bytes :=
  synthetic_header 1 100 8 4 2 ++ encode_records (ramp_records 100 4).

(** A header whose flags announce no section at all. *)
Definition sectionless_file : bytes := synthetic_header 1 100 8 4 0.

(** Two records of dimension 2: (1.0, 0.0) and (2.0, the smallest subnormal). *)
Definition small_records : list (list Z) := [[0x3f800000; 0]; [0x40000000; 1]].
Definition small_file : bytes := synthetic_header 1 2 2 0 1 ++ encode_records small_records.

(** A header whose record count and dimension have their top bit set. *)
Definition huge_header : bytes := synthetic_header 1 (2 ^ 31 + 5) (2 ^ 32 - 1) 0 1.

(** A server that sends exactly the two prefixes a call on [original_file]
    asks for when 8 records are requested. *)
Definition exact_ranges : Env := serve_truncated 200 original_file 320.

(** ** The rest of the transport and of the smoke test *)

(** Python [d.get(k)] on a [dict]. *)
Fixpoint dict_get (k : string) (d : dict) : option string :=
  match d with
  | [] => None
  | (k', v) :: d' => if String.eqb k' k then Some v else dict_get k d'
  end.

(** A server that answers the first request of a log with [first] and every
    later one with [second]. *)
Definition serve_two (resp_status : Z) (first second : bytes) : Env :=
  fun log _ =>
    match log with
    | [] => Responded resp_status [] first
    | _ => Responded resp_status [] second
    end.

(** A server every answer of which is some prefix of one fixed content,
    whether it honours [Range] or sends more than was asked. *)
Definition prefix_server (content : bytes) (urlopen : Env) : Prop :=
  forall log rq, exists s hs k, urlopen log rq = Responded s hs (firstn k content).

(** The header of [original_file] with its reserved bytes 24..63 set. *)
Definition reserved_set_header : bytes :=
  firstn 24 (synthetic_header 1 100 8 0 1) ++ repeat xff%byte 40.

(** ** JSON values and [pick_model_id_for_dim] *)

(** What [json.loads] produces: [None], [bool], [int], [float], [str], [list]
    and [dict] with string keys (in insertion order, keys distinct). *)
#[warnings="-register-all"] Inductive Json : Type :=
| JNull
| JBool (b : bool)
| JInt (z : Z)
| JFloat (x : pyfloat)
| JStr (s : string)
| JList (items : list Json)
| JDict (items : list (string * Json)).

(** The exceptions of [int(...)] and of indexing. *)
Inductive PyErr : Type := PyTypeError | PyValueError | PyOverflowError | PyIndexError.

Inductive Try (A : Type) : Type :=
| Returned (a : A)
| Raised (e : PyErr).
Arguments Returned {A} a.
Arguments Raised {A} e.

(** [d.get(key)] on the items of a [dict]; [None] when the key is missing. *)
Fixpoint json_get (key : string) (items : list (string * Json)) : option Json :=
  match items with
  | [] => None
  | (k, v) :: rest => if String.eqb k key then Some v else json_get key rest
  end.

(** Python truth value of a JSON value. *)
Definition json_truthy (j : Json) : bool :=
  match j with
  | JNull => false
  | JBool b => b
  | JInt z => negb (z =? 0)
  | JFloat (S754_zero _) => false
  | JFloat _ => true
  | JStr s => negb (String.eqb s "")
  | JList [] => false
  | JList _ => true
  | JDict [] => false
  | JDict _ => true
  end.

(** [int(x)] of a float: truncation toward zero; [nan] and the infinities
    raise. *)
Definition int_of_float (x : pyfloat) : Try Z :=
  match x with
  | S754_zero _ => Returned 0
  | S754_infinity _ => Raised PyOverflowError
  | S754_nan => Raised PyValueError
  | S754_finite s m e =>
      let mag := if 0 <=? e then Zpos m * 2 ^ e else Zpos m / 2 ^ (- e) in
      Returned (if s then - mag else mag)
  end.

Section Json.

(** Two library conversions are taken as given: [int(s)] of a string
    ([None] when it raises [ValueError]) and [str(x)] of a float, a list or
    a dict. *)
Variable int_of_str : string -> option Z.
Variable repr_of : Json -> string.

(** [int(x)]. *)
Definition py_int (j : Json) : Try Z :=
  match j with
  | JNull => Raised PyTypeError
  | JBool b => Returned (if b then 1 else 0)
  | JInt z => Returned z
  | JFloat x => int_of_float x
  | JStr s => match int_of_str s with
              | Some z => Returned z
              | None => Raised PyValueError
              end
  | JList _ => Raised PyTypeError
  | JDict _ => Raised PyTypeError
  end.

(** [str(x)]. *)
Definition py_str (j : Json) : string :=
  match j with
  | JNull => "None"
  | JBool true => "True"
  | JBool false => "False"
  | JInt z => str_of_int z
  | JStr s => s
  | _ => repr_of j
  end.

(** [m.get("input_dim", -1)] and [m.get("id")]. *)
Definition input_dim_of (m : list (string * Json)) : Json :=
  match json_get "input_dim" m with
  | Some v => v
  | None => JInt (-1)
  end.

Definition id_of (m : list (string * Json)) : Json :=
  match json_get "id" m with
  | Some v => v
  | None => JNull
  end.

(** The [for m in models] loop. *)
Fixpoint pick_loop (models : list Json) (dim : Z) : Try (option string) :=
  match models with
  | [] => Returned None
  | JDict m :: rest =>
      match py_int (input_dim_of m) with
      | Raised e => Raised e
      | Returned v =>
          if v =? dim then
            let mid := id_of m in
            Returned (if json_truthy mid then Some (py_str mid) else None)
          else pick_loop rest dim
      end
  | _ :: rest => pick_loop rest dim
  end.

Definition pick_model_id_for_dim (models_payload : Json) (dim : Z) : Try (option string) :=
  match models_payload with
  | JDict payload =>
      match json_get "models" payload with
      | Some (JList models) => pick_loop models dim
      | _ => Returned None
      end
  | _ => Returned None
  end.

(** An entry the loop passes over: not a dict, or a dict whose [input_dim]
    converts to an integer other than [dim]. *)
Definition passed_over (dim : Z) (m : Json) : Prop :=
  match m with
  | JDict d => exists v, py_int (input_dim_of d) = Returned v /\ v <> dim
  | _ => True
  end.

(** What a dict entry that is reached decides. *)
Definition entry_outcome (dim : Z) (d : list (string * Json)) : option (Try (option string)) :=
  match py_int (input_dim_of d) with
  | Raised e => Some (Raised e)
  | Returned v =>
      if v =? dim
      then Some (Returned (if json_truthy (id_of d) then Some (py_str (id_of d)) else None))
      else None
  end.

End Json.

(** A models listing: a non-dict entry, a model of dimension 4, a model of
    dimension 8 without an id, and a model of dimension 8 with one. *)
Definition models_listing : Json :=
  JDict [("models"%string,
          JList [JStr "x";
                 JDict [("id"%string, JStr "m4"); ("input_dim"%string, JInt 4)];
                 JDict [("input_dim"%string, JInt 8)];
                 JDict [("id"%string, JStr "m8"); ("input_dim"%string, JInt 8)]])].

(** A listing whose first entry has a null [input_dim]. *)
Definition models_null_dim : Json :=
  JDict [("models"%string,
          JList [JDict [("id"%string, JStr "m0"); ("input_dim"%string, JNull)];
                 JDict [("id"%string, JStr "m8"); ("input_dim"%string, JInt 8)]])].

(** Library conversions for the examples: no string is an integer, and
    [repr] is not needed. *)
Definition no_int_of_str : string -> option Z := fun _ => None.
Definition no_repr : Json -> string := fun _ => ""%string.

Definition headless_payload : bytes := repeat xff%byte 64 ++ skipn 64 original_file.

(** ** [http_json] *)

Section JsonTransport.

Variable urlopen : Env.

(** The JSON codec is taken as given: [json.dumps(x).encode("utf-8")], and
    [json.loads(b.decode("utf-8"))] with [None] when it raises. *)
Variable json_dumps : Json -> bytes.
Variable json_loads : bytes -> option Json.

(** Lines 79-85: the headers and the body of the request. *)
Definition json_request_headers (headers : option dict)
    (json_body : option (list (string * Json))) : dict :=
  let req_headers := [("Accept", "application/json")]%string in
  let req_headers :=
    match headers with
    | Some (kv :: h) => dict_update req_headers (kv :: h)
    | _ => req_headers
    end in
  match json_body with
  | Some _ => dict_set "Content-Type" "application/json" req_headers
  | None => req_headers
  end.

Definition json_request_body (json_body : option (list (string * Json))) : option bytes :=
  match json_body with
  | Some d => Some (json_dumps (JDict d))
  | None => None
  end.

(** Lines 87-92: the payload parsed from a response body; Python's [None]
    is [JNull]. *)
Definition json_payload (data : bytes) : Json :=
  match data with
  | [] => JNull
  | _ => match json_loads data with
         | Some j => j
         | None => JNull
         end
  end.

Definition http_json (method url : string) (headers : option dict)
    (json_body : option (list (string * Json))) (timeout_s : pyfloat)
    : M (HttpResult * Json) :=
  (res <- http_request urlopen method url
            (Some (json_request_headers headers json_body))
            (json_request_body json_body) timeout_s ;;
   ret (res, json_payload (body res)))%io.

End JsonTransport.

(** A codec for the examples: every value is written as the two bytes [{}]
    and every non-empty body that starts with an opening brace reads as the
    empty object. *)
Definition toy_dumps : Json -> bytes := fun _ => [x7b; x7d]%byte.
Definition toy_loads : bytes -> option Json :=
  fun b => match b with
           | x7b%byte :: _ => Some (JDict [])
           | _ => None
           end.

(** ** [main] *)

(** What [main] prints.  Each constructor is one [ok], [warn] or [fatal] call
    of the source and carries the values its message formats, except the
    latencies. *)
Inductive Msg : Type :=
| HealthOk                                   (* OK  GET  /health *)
| ModelsOk                                   (* OK  GET  /api/v1/models *)
| DataOk (dim n : Z) (source : string)       (* OK  DATA  AQED sample: dim=, n= *)
| VerifyOk                                   (* OK  GET  /api/v1/auth/verify *)
| Quota (used limit : Json)                  (* quota: used= limit= *)
| BatchOk (out_dim : Z)                      (* OK  POST /api/v1/compress/batch *)
| BatchMeta (ratio original compressed : Json)
| PqOk (codes : option Z) (model : string)   (* OK  POST /api/v1/compress-pq *)
| PqQuality (quality ratio : Json)
| AllDone                                    (* DONE: smoke test passed. *)
| NoModelForDim (dim : Z)                    (* Could not infer model id ... *)
| NoApiKey                                   (* AQEA_API_KEY not set ... *)
| PqSkipped                                  (* Skipping /api/v1/compress-pq ... *)
| PqFailed (status : Z)                      (* /api/v1/compress-pq did not succeed *)
| HealthFailed (status : Z) (head : bytes)   (* GET /health expected 200 *)
| ModelsFailed (status : Z)                  (* GET /api/v1/models expected 200 *)
| DataFailed (e : Exn)                       (* Failed to fetch AQED vectors *)
| VerifyFailed (status : Z) (head : bytes)
| BatchFailed (status : Z) (head : bytes)
| BatchShape                                 (* unexpected JSON shape *)
| CompressedInvalid.                         (* Compressed vectors missing/invalid *)

(** [ok] prints to standard output; [warn] and [fatal] print to standard error
    with the prefixes [WARNING: ] and [ERROR: ]. *)
Inductive Printed : Type :=
| Out (m : Msg)
| Warning (m : Msg)
| Error (m : Msg).

Record World : Type := mkWorld {
  requests : list Request;
  printed : list Printed
}.

(** An exception that leaves [main]. *)
Inductive Crash : Type :=
| NetCrash (e : Exn)
| PyCrash (e : PyErr).

Inductive Exit (A : Type) : Type :=
| Finished (a : A)
| Crashed (c : Crash).
Arguments Finished {A} a.
Arguments Crashed {A} c.

Definition IO (A : Type) : Type := World -> Exit A * World.

Definition io_ret {A : Type} (a : A) : IO A := fun w => (Finished a, w).

Definition io_bind {A B : Type} (c : IO A) (k : A -> IO B) : IO B :=
  fun w =>
    match c w with
    | (Finished a, w') => k a w'
    | (Crashed e, w') => (Crashed e, w')
    end.

(** A network computation whose exception is not caught. *)
Definition net {A : Type} (c : M A) : IO A :=
  fun w =>
    match c (requests w) with
    | (Ok a, log) => (Finished a, mkWorld log (printed w))
    | (Raise e, log) => (Crashed (NetCrash e), mkWorld log (printed w))
    end.

(** A network computation inside [try ... except Exception]. *)
Definition try_net {A : Type} (c : M A) : IO (Result A) :=
  fun w =>
    match c (requests w) with
    | (r, log) => (Finished r, mkWorld log (printed w))
    end.

Definition py {A : Type} (t : Try A) : IO A :=
  fun w =>
    match t with
    | Returned a => (Finished a, w)
    | Raised e => (Crashed (PyCrash e), w)
    end.

Definition say (p : Printed) : IO unit :=
  fun w => (Finished tt, mkWorld (requests w) (printed w ++ [p])).

Definition ok (m : Msg) : IO unit := say (Out m).
Definition warn (m : Msg) : IO unit := say (Warning m).
Definition fatal (m : Msg) : IO Z := io_bind (say (Error m)) (fun _ => io_ret 2).

Declare Scope main_scope.
Delimit Scope main_scope with main.
Notation "x <- c ;; k" := (io_bind c (fun x => k))
  (at level 61, c at next level, right associativity) : main_scope.
Notation "' p <- c ;; k" := (io_bind c (fun x => match x with p => k end))
  (at level 61, p pattern, c at next level, right associativity) : main_scope.
Notation "c ;;; k" := (io_bind c (fun _ => k))
  (at level 61, right associativity) : main_scope.

(** [s.rstrip("/")]. *)
Fixpoint rstrip_slash (s : string) : string :=
  match s with
  | EmptyString => EmptyString
  | String c s' =>
      match rstrip_slash s' with
      | EmptyString => if Ascii.eqb c "/" then EmptyString else String c EmptyString
      | r => String c r
      end
  end.

(** The parsed command line. *)
Record Args : Type := mkArgs {
  arg_base_url : string;
  arg_data_url : string;
  arg_sample : Z;
  arg_timeout_s : pyfloat;
  arg_pq : bool
}.

(** The sampled vectors as a JSON value. *)
Definition json_of_vector (v : list pyfloat) : Json := JList (map JFloat v).
Definition json_of_vectors (vs : list (list pyfloat)) : Json := JList (map json_of_vector vs).

(** [d.get(key)] with Python's [None] for a missing key. *)
Definition json_get_or_null (key : string) (d : list (string * Json)) : Json :=
  match json_get key d with
  | Some v => v
  | None => JNull
  end.

(** [key in d]. *)
Definition json_has (key : string) (d : list (string * Json)) : bool :=
  match json_get key d with
  | Some _ => true
  | None => false
  end.

Section Main.

Variable urlopen : Env.
Variable json_dumps : Json -> bytes.
Variable json_loads : bytes -> option Json.
Variable int_of_str : string -> option Z.
Variable repr_of : Json -> string.

(** [str.strip()] is taken as given. *)
Variable str_strip : string -> string.

(** Lines 260-283: the optional product-quantisation check. *)
Definition main_pq (base : string) (t : pyfloat) (auth_headers : dict)
    (model_id : option string) (vectors : list (list pyfloat)) : IO unit :=
  match model_id with
  | None => warn PqSkipped
  | Some EmptyString => warn PqSkipped
  | Some mid =>
      match vectors with
      | [] => py (Raised PyIndexError)
      | v0 :: _ =>
          let pq_req := [("vector", json_of_vector v0); ("model", JStr mid)]%string in
          ('(pr, pp) <- net (http_json urlopen json_dumps json_loads "POST"
                               (base ++ "/api/v1/compress-pq") (Some auth_headers)
                               (Some pq_req) t) ;;
           match pp with
           | JDict p =>
               if status pr =? 200 then
                 let codes := json_get_or_null "codes" p in
                 let meta2 := match json_get "metadata" p with
                              | Some m => m
                              | None => JDict []
                              end in
                 ok (PqOk (match codes with
                           | JList l => Some (len l)
                           | _ => None
                           end) mid) ;;;
                 match meta2 with
                 | JDict m2 =>
                     ok (PqQuality (json_get_or_null "expectedQuality" m2)
                                   (json_get_or_null "compressionRatio" m2))
                 | _ => io_ret tt
                 end
               else warn (PqFailed (status pr))
           | _ => warn (PqFailed (status pr))
           end)%main
      end
  end.

(** Lines 230-286: the authenticated checks. *)
Definition main_authenticated (base : string) (t : pyfloat) (pq : bool) (api_key : string)
    (model_id : option string) (vectors : list (list pyfloat)) : IO Z :=
  let auth_headers := [("X-API-Key", api_key)]%string in
  ('(vr, vp) <- net (http_json urlopen json_dumps json_loads "GET"
                       (base ++ "/api/v1/auth/verify") (Some auth_headers) None t) ;;
   if negb (status vr =? 200) then fatal (VerifyFailed (status vr) (slice_to 200 (body vr)))
   else
     ok VerifyOk ;;;
     match vp with
     | JDict v =>
         if json_has "quota_limit" v || json_has "quota_used" v
         then ok (Quota (json_get_or_null "quota_used" v) (json_get_or_null "quota_limit" v))
         else io_ret tt
     | _ => io_ret tt
     end ;;;
     let req := [("vectors", json_of_vectors vectors);
                 ("options", JDict [("targetDims", JInt 0)])]%string in
     '(br, bp) <- net (http_json urlopen json_dumps json_loads "POST"
                         (base ++ "/api/v1/compress/batch") (Some auth_headers)
                         (Some req) t) ;;
     if negb (status br =? 200) then fatal (BatchFailed (status br) (slice_to 200 (body br)))
     else
       match bp with
       | JDict b =>
           if json_has "compressed" b && json_has "metadata" b then
             let comp := json_get_or_null "compressed" b in
             let meta := json_get_or_null "metadata" b in
             match comp with
             | JList (JList row :: _) =>
                 let out_dim := len row in
                 ok (BatchOk out_dim) ;;;
                 match meta with
                 | JDict m =>
                     ok (BatchMeta (json_get_or_null "compressionRatio" m)
                                   (json_get_or_null "originalDim" m)
                                   (json_get_or_null "compressedDim" m))
                 | _ => io_ret tt
                 end ;;;
                 (if pq then main_pq base t auth_headers model_id vectors else io_ret tt) ;;;
                 ok AllDone ;;;
                 io_ret 0
             | _ => fatal CompressedInvalid
             end
           else fatal BatchShape
       | _ => fatal BatchShape
       end)%main.

(** [main], after the command line is parsed; [env_key] is the value of the
    environment variable [AQEA_API_KEY], if set. *)
Definition main (args : Args) (env_key : option string) : IO Z :=
  let base := rstrip_slash (arg_base_url args) in
  let t := arg_timeout_s args in
  (health <- net (http_request urlopen "GET" (base ++ "/health") None None t) ;;
   if negb (status health =? 200)
   then fatal (HealthFailed (status health) (slice_to 200 (body health)))
   else
     ok HealthOk ;;;
     '(models_res, models_payload) <- net (http_json urlopen json_dumps json_loads "GET"
                                             (base ++ "/api/v1/models") None None t) ;;
     if negb (status models_res =? 200) then fatal (ModelsFailed (status models_res))
     else
       ok ModelsOk ;;;
       fetched <- try_net (fetch_aqed_sample_vectors urlopen (arg_data_url args)
                             (arg_sample args) t) ;;
       match fetched with
       | Raise e => fatal (DataFailed e)
       | Ok (dim, vectors) =>
           ok (DataOk dim (len vectors) (arg_data_url args)) ;;;
           model_id <- py (pick_model_id_for_dim int_of_str repr_of models_payload dim) ;;
           match model_id with
           | Some (String _ _) => io_ret tt
           | _ => warn (NoModelForDim dim)
           end ;;;
           let api_key := str_strip (match env_key with
                                     | Some k => k
                                     | None => EmptyString
                                     end) in
           match api_key with
           | EmptyString => warn NoApiKey ;;; io_ret 0
           | _ => main_authenticated base t (arg_pq args) api_key model_id vectors
           end
       end)%main.

End Main.

(** ** Views of a run of [main] *)

(** What is observed of a request: method, URL, the value of its [X-API-Key]
    header if it has one, and whether it has a body. *)
Definition Sig : Type := (string * string * option string * bool)%type.

Definition sig_of (r : Request) : Sig :=
  (req_method r, req_url r, dict_get "X-API-Key" (req_headers r),
   match req_data r with Some _ => true | None => false end).

(** The requests of a complete run, in order. *)
Definition main_plan (base data_url key : string) : list Sig :=
  [("GET", base ++ "/health", None, false);
   ("GET", base ++ "/api/v1/models", None, false);
   ("GET", data_url, None, false);
   ("GET", data_url, None, false);
   ("GET", base ++ "/api/v1/auth/verify", Some key, false);
   ("POST", base ++ "/api/v1/compress/batch", Some key, true);
   ("POST", base ++ "/api/v1/compress-pq", Some key, true)]%string.

(** The API key as [main] uses it. *)
Definition api_key_of (str_strip : string -> string) (env_key : option string) : string :=
  str_strip (match env_key with Some k => k | None => EmptyString end).

Definition is_error (p : Printed) : bool :=
  match p with
  | Error _ => true
  | _ => false
  end.

(** Partial correctness of an [IO] computation. *)
Definition hoare {A : Type} (P : World -> Prop) (c : IO A) (Q : Exit A -> World -> Prop)
    : Prop :=
  forall w, P w -> Q (fst (c w)) (snd (c w)).

(** During a run started in [w0]: the first [k] requests of the plan have
    been issued and no error has been printed. *)
Definition main_inv (w0 : World) (plan : list Sig) (k : nat) (w : World) : Prop :=
  exists nr np,
    requests w = requests w0 ++ nr /\ printed w = printed w0 ++ np /\
    map sig_of nr = firstn k plan /\ forallb (fun p => negb (is_error p)) np = true.

(** At the end of a run. *)
Definition main_post (w0 : World) (plan : list Sig) (key : string) (x : Exit Z) (w : World)
    : Prop :=
  exists nr np k,
    requests w = requests w0 ++ nr /\ printed w = printed w0 ++ np /\
    map sig_of nr = firstn k plan /\
    (k <= 7)%nat /\ (key = EmptyString -> (k <= 4)%nat) /\
    match x with
    | Finished z =>
        (z = 0 /\ forallb (fun p => negb (is_error p)) np = true /\
         ((key = EmptyString /\ k = 4%nat /\ exists np', np = np' ++ [Warning NoApiKey]) \/
          (key <> EmptyString /\ (6 <= k)%nat /\ exists np', np = np' ++ [Out AllDone]))) \/
        (z = 2 /\ (1 <= k <= 6)%nat /\
         exists np' m, np = np' ++ [Error m] /\
                       forallb (fun p => negb (is_error p)) np' = true)
    | Crashed _ => forallb (fun p => negb (is_error p)) np = true
    end.

(** ** A scripted run of [main] *)

(** A server that answers the [i]-th request of a log with the [i]-th
    outcome of a script. *)
Definition scripted (script : list UrlopenOutcome) : Env :=
  fun log _ => nth (length log) script (RaisedOther "script exhausted").

(** A codec for the scripted run: the body [m] reads as a models listing with
    one model of dimension 2, the body [b] as a batch answer, any body that
    starts with an opening brace as the empty object. *)
Definition demo_loads : bytes -> option Json :=
  fun b =>
    match b with
    | [x6d]%byte =>
        Some (JDict [("models"%string,
                      JList [JDict [("id"%string, JStr "m2"); ("input_dim"%string, JInt 2)]])])
    | [x62]%byte =>
        Some (JDict [("compressed"%string, JList [JList [JInt 1]; JList [JInt 2]]);
                     ("metadata"%string, JDict [])])
    | x7b%byte :: _ => Some (JDict [])
    | _ => None
    end.

Definition demo_script : list UrlopenOutcome :=
  [Responded 200 [] [];
   Responded 200 [] [x6d]%byte;
   Responded 206 [] (firstn 64 small_file);
   Responded 206 [] small_file;
   Responded 200 [] [x7b; x7d]%byte;
   Responded 200 [] [x62]%byte;
   RaisedHTTPError 503 None None].

Definition demo_args : Args := mkArgs "https://api/" "https://data/file" 8 timeout20 true.

Definition demo_run (env_key : option string) : Exit Z * World :=
  main (scripted demo_script) toy_dumps demo_loads no_int_of_str no_repr (fun s => s)
       demo_args env_key (mkWorld [] []).

(** A codec under which the models listing has a null [input_dim]. *)
Definition null_dim_loads : bytes -> option Json :=
  fun b =>
    match b with
    | [x6d]%byte => Some models_null_dim
    | _ => None
    end.

(** ** Where an exception that leaves [main] comes from *)

(** The two public requests that open a run of [main]. *)
Definition health_request (base : string) (t : pyfloat) : Request :=
  mkRequest (base ++ "/health") "GET" [] None t.

Definition models_request (base : string) (t : pyfloat) : Request :=
  mkRequest (base ++ "/api/v1/models") "GET" [("Accept", "application/json")]%string None t.

(** The URLs that [main] requests outside its [try] block. *)
Definition api_endpoints (base : string) : list string :=
  [base ++ "/health"; base ++ "/api/v1/models"; base ++ "/api/v1/auth/verify";
   base ++ "/api/v1/compress/batch"; base ++ "/api/v1/compress-pq"]%string.

(** During a run started in [w0]: exactly the requests [nr], or exactly [k]
    requests, have been issued. *)
Definition log_is (w0 : World) (nr : list Request) (w : World) : Prop :=
  requests w = requests w0 ++ nr.

Definition requests_made (w0 : World) (k : nat) (w : World) : Prop :=
  exists nr, requests w = requests w0 ++ nr /\ length nr = k.

(** Where an exception that leaves [main] comes from.  A network exception
    is what [urlopen] raised for the last request issued, which is the
    first, second, fifth, sixth or seventh of the run and goes to an API
    endpoint; the dataset requests are the third and the fourth.  Any other
    exception is what [pick_model_id_for_dim] raised, on the payload of the
    models answer and the sampled dimension, after the four public requests. *)
Definition escape_post (urlopen : Env) (json_loads : bytes -> option Json)
    (int_of_str : string -> option Z) (repr_of : Json -> string)
    (base data_url : string) (nv : Z) (t : pyfloat) (w0 : World)
    (x : Exit Z) (w : World) : Prop :=
  match x with
  | Finished _ => True
  | Crashed c =>
      exists before last,
        requests w = requests w0 ++ before ++ [last] /\
        match c with
        | NetCrash e =>
            exists cause,
              e = TransportFailure cause /\
              urlopen (requests w0 ++ before) last = RaisedOther cause /\
              In (length before) [0; 1; 4; 5; 6]%nat /\
              In (req_url last) (api_endpoints base)
        | PyCrash e =>
            length before = 3%nat /\ e <> PyIndexError /\
            exists res dim vs,
              result_of_outcome (urlopen (requests w0 ++ [health_request base t])
                                   (models_request base t)) = Ok res /\
              fst (fetch_aqed_sample_vectors urlopen data_url nv t
                     (requests w0 ++ [health_request base t; models_request base t]))
                = Ok (dim, vs) /\
              pick_model_id_for_dim int_of_str repr_of
                (json_payload json_loads (body res)) dim = Raised e
        end
  end.

(** A server that answers the health and the models request and is then
    unreachable. *)
Definition data_down_script : list UrlopenOutcome :=
  [Responded 200 [] []; Responded 200 [] [x6d]%byte; RaisedOther "data host down"].

(** ** The header fields of a [Request] object *)

(** [str.capitalize] on ASCII text: the first character in upper case, the
    others in lower case. *)
Definition capitalize (s : string) : string :=
  match s with
  | EmptyString => EmptyString
  | String c s' => String (ascii_upper c) (lower s')
  end.

(** The [headers] attribute of the object that
    [urllib.request.Request(url, data=..., headers=d, method=...)] builds:
    the constructor calls [add_header(key, value)] for the items of [d] in
    order, and [add_header] stores the value under [key.capitalize()]. *)
Definition request_header_fields (d : dict) : dict :=
  fold_left (fun acc kv => dict_set (capitalize (fst kv)) (snd kv) acc) d [].

(** The header fields that the [Request] object of a logged request carries;
    [req_headers] is the dictionary handed to the constructor. *)
Definition wire_headers (r : Request) : dict := request_header_fields (req_headers r).

(** The value of the last item whose capitalised name is [key]. *)
Fixpoint last_capitalized (key : string) (items : list (string * string)) : option string :=
  match items with
  | [] => None
  | (k, v) :: rest =>
      match last_capitalized key rest with
      | Some w => Some w
      | None => if String.eqb (capitalize k) key then Some v else None
      end
  end.

(** ** The fields of a binary32 pattern *)

(** Two records of dimension 2 stored behind a header that announces only the
    alternate section. *)
Definition small_alternate_file : bytes :=
  synthetic_header 1 2 2 2 2 ++ encode_records small_records.

(** The biased exponent and the fraction of a binary32 pattern. *)
Definition f32_exponent (w : Z) : Z := (w / 2 ^ 23) mod 2 ^ 8.
Definition f32_fraction (w : Z) : Z := w mod 2 ^ 23.

(** * Properties *)

(** ** Bytes and header fields *)

Lemma u8_range b : 0 <= u8 b < 256.
Proof.
  unfold u8. pose proof (Byte.to_N_bounded b). lia.
Qed.

Lemma le32_range b0 b1 b2 b3 : 0 <= le32 b0 b1 b2 b3 < 2 ^ 32.
Proof.
  unfold le32.
  pose proof (u8_range b0). pose proof (u8_range b1).
  pose proof (u8_range b2). pose proof (u8_range b3). lia.
Qed.

Lemma len_nonneg {A} (l : list A) : 0 <= len l.
Proof. unfold len. lia. Qed.

Lemma skipn_nth_cons {A} (d : A) : forall (l : list A) (k : nat),
  (k < length l)%nat -> skipn k l = nth k l d :: skipn (S k) l.
Proof.
  induction l as [|a l IH]; intros k Hk; simpl in Hk; [lia|].
  destruct k as [|k]; [reflexivity|].
  simpl. rewrite (IH k) by lia. reflexivity.
Qed.

Lemma unpack_from_I_u32_at buf (off : nat) :
  Z.of_nat off + 4 <= len buf ->
  unpack_from_I buf (Z.of_nat off) = Ok (u32_at buf off).
Proof.
  intros H. unfold unpack_from_I, slice_from, len in *.
  destruct (Z.ltb_spec (Z.of_nat (length buf) - Z.of_nat off) 4); [lia|].
  rewrite Nat2Z.id.
  rewrite (skipn_nth_cons x00%byte buf off) by lia.
  rewrite (skipn_nth_cons x00%byte buf (S off)) by lia.
  rewrite (skipn_nth_cons x00%byte buf (S (S off))) by lia.
  rewrite (skipn_nth_cons x00%byte buf (S (S (S off)))) by lia.
  unfold u32_at. repeat f_equal; lia.
Qed.

Lemma slice_to_len {A} k (l : list A) : 0 <= k <= len l -> len (slice_to k l) = k.
Proof.
  intros H. unfold len, slice_to in *. rewrite length_firstn. lia.
Qed.

Lemma slice_to_short {A} k (a b : list A) :
  slice_to k a = slice_to k b -> len a < k -> a = b.
Proof.
  unfold slice_to, len. intros H Hlt.
  assert (Ha : firstn (Z.to_nat k) a = a) by (apply firstn_all2; lia).
  rewrite Ha in H.
  assert (Hb : (length b < Z.to_nat k)%nat).
  { apply (f_equal (@length A)) in H. rewrite length_firstn in H. lia. }
  rewrite firstn_all2 in H by lia. exact H.
Qed.

Lemma slice_to_ltb {A} k (a b : list A) :
  slice_to k a = slice_to k b -> (len a <? k) = (len b <? k).
Proof.
  intros H.
  destruct (Z.ltb_spec (len a) k) as [Ha|Ha], (Z.ltb_spec (len b) k) as [Hb|Hb];
    try reflexivity.
  - apply slice_to_short in H; [|exact Ha]. subst b. lia.
  - symmetry in H. apply slice_to_short in H; [|exact Hb]. subst b. lia.
Qed.

Lemma nth_error_snoc {A} (l : list A) (x : A) : nth_error (l ++ [x]) (length l) = Some x.
Proof. rewrite nth_error_app2 by lia. rewrite Nat.sub_diag. reflexivity. Qed.

Lemma skipn_length_app {A} (l r : list A) : skipn (length l) (l ++ r) = r.
Proof. induction l as [|a l IH]; [reflexivity|exact IH]. Qed.

Lemma app_snoc_neq {A} (l : list A) (x y : A) : (l ++ [x]) ++ [y] <> l ++ [x].
Proof.
  intros H. apply (f_equal (@length A)) in H. rewrite !length_app in H. simpl in H. lia.
Qed.

Lemma u32_at_high_bit buf off :
  128 <= u8 (nth (off + 3) buf x00%byte) -> 2 ^ 31 <= u32_at buf off.
Proof.
  intros H. unfold u32_at, le32.
  pose proof (u8_range (nth off buf x00%byte)).
  pose proof (u8_range (nth (off + 1) buf x00%byte)).
  pose proof (u8_range (nth (off + 2) buf x00%byte)). lia.
Qed.

(** ** Flag bits *)

Lemma land_pow2 f k : 0 <= k ->
  Z.land f (Z.shiftl 1 k) = if Z.testbit f k then 2 ^ k else 0.
Proof.
  intros Hk. rewrite Z.shiftl_1_l.
  apply Z.bits_inj'. intros i Hi.
  rewrite Z.land_spec, Z.pow2_bits_eqb by assumption.
  destruct (Z.eqb_spec k i) as [->|Hne].
  - destruct (Z.testbit f i) eqn:E.
    + rewrite Z.pow2_bits_true by assumption. reflexivity.
    + rewrite Z.bits_0. reflexivity.
  - rewrite andb_false_r. destruct (Z.testbit f k).
    + rewrite Z.pow2_bits_false by assumption. reflexivity.
    + rewrite Z.bits_0. reflexivity.
Qed.

Lemma has_original_bit0 f :
  truthy (Z.land f FLAG_HAS_ORIGINAL) = Z.testbit f 0.
Proof.
  unfold truthy, FLAG_HAS_ORIGINAL. rewrite land_pow2 by lia.
  destruct (Z.testbit f 0); reflexivity.
Qed.

Lemma has_aqea_bit1 f :
  truthy (Z.land f FLAG_HAS_AQEA) = Z.testbit f 1.
Proof.
  unfold truthy, FLAG_HAS_AQEA. rewrite land_pow2 by lia.
  destruct (Z.testbit f 1); reflexivity.
Qed.

Lemma original_guard_bit0 f :
  (Z.land f FLAG_HAS_ORIGINAL =? 0) = negb (Z.testbit f 0).
Proof.
  rewrite <- has_original_bit0. unfold truthy. rewrite negb_involutive. reflexivity.
Qed.

Lemma effective_dim_bits d_orig d_aqea f :
  effective_dim d_orig d_aqea f =
  if Z.testbit f 0 then d_orig else if Z.testbit f 1 then d_aqea else 0.
Proof.
  unfold effective_dim. rewrite has_original_bit0, has_aqea_bit1. reflexivity.
Qed.

(** ** The header checks *)

Lemma bytes_eqb_eq a b : bytes_eqb a b = true <-> a = b.
Proof.
  unfold bytes_eqb. destruct (list_eq_dec Byte.byte_eq_dec a b); split; congruence.
Qed.

Lemma parse_aqed_header_fields buf :
  64 <= len buf ->
  parse_aqed_header buf =
  check_header (hdr_tag buf) (hdr_version buf) (hdr_n buf) (hdr_d_orig buf)
               (hdr_d_aqea buf) (hdr_flags buf).
Proof.
  intros H. unfold parse_aqed_header, check_header.
  destruct (Z.ltb_spec (len buf) 64); [lia|].
  fold (hdr_tag buf).
  destruct (negb (bytes_eqb (hdr_tag buf) magic)); [reflexivity|].
  change 4 with (Z.of_nat 4) at 1. rewrite unpack_from_I_u32_at by (simpl; lia).
  change 8 with (Z.of_nat 8) at 1. rewrite unpack_from_I_u32_at by (simpl; lia).
  change 12 with (Z.of_nat 12). rewrite unpack_from_I_u32_at by (simpl; lia).
  change 16 with (Z.of_nat 16). rewrite unpack_from_I_u32_at by (simpl; lia).
  change 20 with (Z.of_nat 20). rewrite unpack_from_I_u32_at by (simpl; lia).
  unfold rbind, hdr_version, hdr_n, hdr_d_orig, hdr_d_aqea, hdr_flags.
  reflexivity.
Qed.

Lemma parse_header_size buf hs n d f :
  parse_aqed_header buf = Ok (hs, n, d, f) -> hs = 64.
Proof.
  unfold parse_aqed_header, rbind. intros H.
  repeat match type of H with
         | (if ?c then _ else _) = _ => destruct c; try discriminate
         | match ?r with Ok _ => _ | Raise _ => _ end = _ => destruct r; try discriminate
         end.
  congruence.
Qed.

Lemma check_header_ok tag v n d da f hs n' d' f' :
  check_header tag v n d da f = Ok (hs, n', d', f') ->
  tag = magic /\ v = 1 /\ 0 < n /\ 0 < d /\ 0 < effective_dim d da f /\
  hs = 64 /\ n' = n /\ d' = d /\ f' = f.
Proof.
  unfold check_header. intros H.
  destruct (bytes_eqb tag magic) eqn:Et; cbn [negb] in H; [|discriminate].
  destruct (Z.eqb_spec v 1); cbn [negb] in H; [|discriminate].
  destruct (Z.leb_spec n 0); cbn [orb] in H; [discriminate|].
  destruct (Z.leb_spec d 0); [discriminate|].
  destruct (Z.leb_spec (effective_dim d da f) 0); [discriminate|].
  apply bytes_eqb_eq in Et. inversion H. subst. repeat split; assumption.
Qed.

Lemma check_header_basic tag v n d da f :
  tag = magic -> v = 1 -> 0 < n -> 0 < d ->
  check_header tag v n d da f =
  if Z.testbit f 0 then Ok (64, n, d, f)
  else if Z.testbit f 1 && (0 <? da) then Ok (64, n, d, f)
  else Raise (ValueError (NoEmbeddings f)).
Proof.
  intros -> -> Hn Hd. unfold check_header.
  replace (bytes_eqb magic magic) with true by (symmetry; apply bytes_eqb_eq; reflexivity).
  cbn [negb Z.eqb Pos.eqb].
  destruct (Z.leb_spec n 0); [lia|]. destruct (Z.leb_spec d 0); [lia|]. cbn [orb].
  rewrite effective_dim_bits.
  destruct (Z.testbit f 0).
  - destruct (Z.leb_spec d 0); [lia|reflexivity].
  - destruct (Z.testbit f 1); cbn [andb].
    + destruct (Z.leb_spec da 0), (Z.ltb_spec 0 da); try lia; reflexivity.
    + reflexivity.
Qed.

Lemma check_header_raise tag v n d da f e :
  check_header tag v n d da f = Raise e ->
  error_kind e = Some FormatError /\
  (tag <> magic \/ v <> 1 \/ n <= 0 \/ d <= 0 \/ Z.testbit f 0 = false).
Proof.
  unfold check_header. intros H.
  destruct (bytes_eqb tag magic) eqn:Et; cbn [negb] in H.
  2:{ inversion H. split; [reflexivity|]. left. intros ->.
      assert (bytes_eqb magic magic = true) by (apply bytes_eqb_eq; reflexivity).
      congruence. }
  destruct (Z.eqb_spec v 1); cbn [negb] in H.
  2:{ inversion H. split; [reflexivity|]. tauto. }
  destruct (Z.leb_spec n 0); cbn [orb] in H.
  { inversion H. split; [reflexivity|]. tauto. }
  destruct (Z.leb_spec d 0).
  { inversion H. split; [reflexivity|]. tauto. }
  rewrite effective_dim_bits in H.
  destruct (Z.testbit f 0) eqn:E0.
  - destruct (Z.leb_spec d 0); [lia|discriminate].
  - destruct (_ <=? 0); [|discriminate].
    inversion H. split; [reflexivity|]. tauto.
Qed.

Lemma parse_ok_fields buf hs n d f :
  len buf = 64 ->
  parse_aqed_header buf = Ok (hs, n, d, f) ->
  basic_valid buf /\ hs = 64 /\ n = hdr_n buf /\ d = hdr_d_orig buf /\ f = hdr_flags buf /\
  0 < effective_dim d (hdr_d_aqea buf) f.
Proof.
  intros Hl H. rewrite parse_aqed_header_fields in H by lia.
  apply check_header_ok in H.
  destruct H as (Ht & Hv & Hn & Hd & He & -> & -> & -> & ->).
  unfold basic_valid. tauto.
Qed.

(** ** The decode loop *)

Lemma words_le_length : forall k bs,
  (4 * k <= length bs)%nat -> length (words_le k bs) = k.
Proof.
  induction k as [|k IH]; intros bs H; [reflexivity|].
  destruct bs as [|b0 [|b1 [|b2 [|b3 rest]]]]; simpl in H; try lia.
  simpl. rewrite IH by lia. reflexivity.
Qed.

Lemma words_le_app : forall k l1 l2,
  (4 * k <= length l1)%nat -> words_le k (l1 ++ l2) = words_le k l1.
Proof.
  induction k as [|k IH]; intros l1 l2 H; [reflexivity|].
  destruct l1 as [|b0 [|b1 [|b2 [|b3 rest]]]]; simpl in H; try lia.
  simpl. rewrite IH by lia. reflexivity.
Qed.

Lemma words_le_firstn : forall k m l,
  (4 * k <= m)%nat -> words_le k (firstn m l) = words_le k l.
Proof.
  induction k as [|k IH]; intros m l H; [reflexivity|].
  do 4 (destruct m as [|m]; [lia|]).
  destruct l as [|b0 [|b1 [|b2 [|b3 rest]]]]; try reflexivity.
  cbn [firstn words_le]. rewrite IH by lia. reflexivity.
Qed.

Lemma unpack_from_f_ok d buf off :
  4 * d <= len buf - off ->
  unpack_from_f d buf off =
  Ok (map f32_of_bits (words_le (Z.to_nat d) (slice_from off buf))).
Proof.
  intros H. unfold unpack_from_f.
  destruct (Z.ltb_spec (len buf - off) (4 * d)); [lia|reflexivity].
Qed.

Lemma decode_loop_ok : forall count d buf off acc,
  0 <= d ->
  off + Z.of_nat count * (d * 4) <= len buf ->
  decode_loop count d buf off acc =
  Ok (acc ++ map (fun i => map f32_of_bits
                    (words_le (Z.to_nat d) (slice_from (off + Z.of_nat i * (d * 4)) buf)))
                 (seq 0 count)).
Proof.
  induction count as [|count IH]; intros d buf off acc Hd H.
  - simpl. rewrite app_nil_r. reflexivity.
  - cbn [decode_loop]. rewrite unpack_from_f_ok by nia.
    cbn [rbind]. rewrite IH by nia.
    rewrite <- app_assoc. do 2 f_equal.
    cbn [seq map app]. f_equal.
    + do 3 f_equal. lia.
    + rewrite <- seq_shift, map_map.
      apply map_ext. intros i. do 3 f_equal. lia.
Qed.

Lemma decode_loop_records count d buf :
  0 <= d ->
  64 + Z.of_nat count * (d * 4) <= len buf ->
  decode_loop count d buf 64 [] = Ok (map (record_at d buf) (seq 0 count)).
Proof.
  intros Hd H. rewrite decode_loop_ok by assumption. reflexivity.
Qed.

Lemma record_at_length d buf i :
  0 <= d ->
  64 + (Z.of_nat i + 1) * (d * 4) <= len buf ->
  len (record_at d buf i) = d.
Proof.
  intros Hd H. unfold record_at, record_bits_at, len in *.
  rewrite length_map, words_le_length.
  - lia.
  - unfold slice_from. rewrite length_skipn. nia.
Qed.

Lemma record_at_prefix d buf i L :
  0 <= d -> 0 <= L ->
  64 + (Z.of_nat i + 1) * (d * 4) <= L ->
  record_at d (slice_to L buf) i = record_at d buf i.
Proof.
  intros Hd HL H. unfold record_at, record_bits_at, slice_to, slice_from. f_equal.
  rewrite skipn_firstn_comm. apply words_le_firstn. nia.
Qed.

(** ** Encoding of synthetic records *)

Lemma u8_byte_of_Z z : u8 (byte_of_Z z) = z mod 256.
Proof.
  unfold u8, byte_of_Z.
  assert (Hr : 0 <= z mod 256 < 256) by (apply Z.mod_pos_bound; lia).
  destruct (Byte.of_N (Z.to_N (z mod 256))) as [b|] eqn:E.
  - apply Byte.to_of_N in E. rewrite E. lia.
  - apply Byte.of_N_None_iff in E. lia.
Qed.

Lemma le32_pack_I w b0 b1 b2 b3 :
  word32 w -> pack_I w = [b0; b1; b2; b3] -> le32 b0 b1 b2 b3 = w.
Proof.
  unfold word32, pack_I, le32. intros Hw H. inversion H.
  rewrite !u8_byte_of_Z.
  change (2 ^ 8) with 256 in *. change (2 ^ 16) with 65536 in *.
  change (2 ^ 24) with 16777216 in *. change (2 ^ 32) with 4294967296 in *.
  Z.div_mod_to_equations. lia.
Qed.

Lemma words_le_encode : forall ws rest,
  Forall word32 ws -> words_le (length ws) (encode_record ws ++ rest) = ws.
Proof.
  induction ws as [|w ws IH]; intros rest H; [reflexivity|].
  inversion H as [|w' ws' Hw Hws]; subst.
  cbn [length encode_record flat_map]. fold (encode_record ws).
  change (pack_I w) with [byte_of_Z w; byte_of_Z (w / 2 ^ 8); byte_of_Z (w / 2 ^ 16);
                          byte_of_Z (w / 2 ^ 24)].
  cbn [app words_le]. rewrite IH by assumption.
  f_equal. apply le32_pack_I; [assumption|reflexivity].
Qed.

Lemma encode_record_length ws : length (encode_record ws) = (4 * length ws)%nat.
Proof.
  induction ws as [|w ws IH]; [reflexivity|].
  cbn [encode_record flat_map]. fold (encode_record ws).
  rewrite length_app, IH. cbn [pack_I length]. lia.
Qed.

Lemma decode_loop_encoded : forall count recs pre extra acc d,
  0 <= d ->
  Forall (fun r => len r = d /\ Forall word32 r) recs ->
  (count <= length recs)%nat ->
  decode_loop count d (pre ++ encode_records recs ++ extra) (len pre) acc =
  Ok (acc ++ map (map f32_of_bits) (firstn count recs)).
Proof.
  induction count as [|count IH]; intros recs pre extra acc d Hd Hall Hc.
  - cbn [decode_loop firstn map]. rewrite app_nil_r. reflexivity.
  - destruct recs as [|r recs]; [simpl in Hc; lia|].
    inversion Hall as [|r' recs' [Hlen Hw] Hrest]; subst r' recs'.
    cbn [length] in Hc.
    cbn [encode_records flat_map]. fold (encode_records recs).
    cbn [decode_loop]. rewrite <- app_assoc.
    assert (Hrl : length r = Z.to_nat d) by (unfold len in Hlen; lia).
    rewrite unpack_from_f_ok.
    2:{ unfold len in *. rewrite !length_app, encode_record_length. lia. }
    unfold slice_from, len at 1. rewrite Nat2Z.id, skipn_length_app.
    rewrite <- Hrl, words_le_encode by assumption.
    cbn [rbind].
    replace (len pre + d * 4) with (len (pre ++ encode_record r)).
    2:{ unfold len in *. rewrite length_app, encode_record_length. lia. }
    rewrite (app_assoc pre (encode_record r)).
    rewrite IH by (try assumption; lia).
    cbn [firstn map]. rewrite <- app_assoc. reflexivity.
Qed.

Lemma skipn_encode_records d extra : forall recs i,
  Forall (fun r => len r = d /\ Forall word32 r) recs ->
  (i <= length recs)%nat ->
  skipn (i * (4 * Z.to_nat d)) (encode_records recs ++ extra) =
  encode_records (skipn i recs) ++ extra.
Proof.
  induction recs as [|r recs IH]; intros i Hall Hi.
  - assert (i = 0%nat) by (simpl in Hi; lia). subst i. reflexivity.
  - destruct i as [|i]; [reflexivity|].
    inversion Hall as [|r' recs' [Hlen _] Hrest]; subst r' recs'.
    cbn [length] in Hi. cbn [skipn encode_records flat_map]. fold (encode_records recs).
    rewrite <- app_assoc.
    replace (S i * (4 * Z.to_nat d))%nat
      with (i * (4 * Z.to_nat d) + length (encode_record r))%nat.
    2:{ rewrite encode_record_length. unfold len in Hlen. lia. }
    rewrite <- skipn_skipn, skipn_length_app.
    apply IH; [assumption|lia].
Qed.

Lemma record_bits_encoded d hdr recs extra i r :
  0 <= d -> len hdr = 64 ->
  Forall (fun r => len r = d /\ Forall word32 r) recs ->
  nth_error recs i = Some r ->
  record_bits_at d (hdr ++ encode_records recs ++ extra) i = r.
Proof.
  intros Hd Hhdr Hall Hnth. unfold record_bits_at, slice_from.
  replace (Z.to_nat (64 + Z.of_nat i * (d * 4)))
    with (i * (4 * Z.to_nat d) + length hdr)%nat by (unfold len in Hhdr; nia).
  rewrite <- skipn_skipn, skipn_length_app.
  assert (Hi : (i < length recs)%nat) by (apply nth_error_Some; congruence).
  rewrite skipn_encode_records by (try assumption; lia).
  destruct (nth_error_split recs i Hnth) as (l1 & l2 & -> & <-).
  rewrite skipn_length_app.
  cbn [encode_records flat_map]. fold (encode_records l2). rewrite <- app_assoc.
  apply Forall_app in Hall. destruct Hall as [_ Hall].
  inversion Hall as [|r' recs' [Hlen Hw] _]; subst r' recs'.
  replace (Z.to_nat d) with (length r) by (unfold len in Hlen; lia).
  apply words_le_encode. exact Hw.
Qed.

(** ** The two stages of a call *)

Lemma fails_with_raise {A} (e : Exn) k :
  error_kind e = Some k -> fails_with (@Raise A e) k.
Proof. intros H. exists e. split; [reflexivity|assumption]. Qed.

Lemma fails_with_not_ok {A} (r : Result A) k a : fails_with r k -> r <> Ok a.
Proof. intros (e & -> & _). discriminate. Qed.

Lemma take_count_pos nv n : 1 <= n -> 1 <= take_count nv n.
Proof. unfold take_count. lia. Qed.

Lemma fetch_stages urlopen url n_vectors timeout_s log :
  fetch_aqed_sample_vectors urlopen url n_vectors timeout_s log =
  run_view urlopen url n_vectors timeout_s log.
Proof.
  unfold fetch_aqed_sample_vectors, run_view, bind, http_request, head_result,
    chunk_result, header_stage.
  fold (header_request url timeout_s).
  destruct (result_of_outcome (urlopen log (header_request url timeout_s))) as [head|e];
    [|reflexivity].
  destruct (negb (status_ok (status head))); [reflexivity|].
  destruct (len (body head) <? 64); [reflexivity|].
  unfold lift.
  destruct (parse_aqed_header (slice_to 64 (body head))) as [[[[hs n] d] f]|e] eqn:Hp;
    [|reflexivity].
  apply parse_header_size in Hp. subst hs.
  destruct (Z.land f FLAG_HAS_ORIGINAL =? 0); [reflexivity|].
  cbv zeta. unfold payload_stage.
  fold (payload_request url timeout_s (64 + take_count n_vectors n * d * 4 - 1)).
  destruct (result_of_outcome _) as [chunk|e]; [|reflexivity].
  destruct (negb (status_ok (status chunk))); [reflexivity|].
  destruct (len (body chunk) <? 64 + take_count n_vectors n * d * 4); [reflexivity|].
  destruct (decode_loop _ _ _ _ _); reflexivity.
Qed.

Lemma header_stage_ok r n d f :
  header_stage r = Ok (n, d, f) ->
  exists head, r = Ok head /\ status_ok (status head) = true /\ 64 <= len (body head) /\
    basic_valid (slice_to 64 (body head)) /\
    n = hdr_n (slice_to 64 (body head)) /\ d = hdr_d_orig (slice_to 64 (body head)) /\
    f = hdr_flags (slice_to 64 (body head)) /\ Z.testbit f 0 = true.
Proof.
  unfold header_stage. destruct r as [head|e]; [|discriminate].
  destruct (status_ok (status head)) eqn:Es; cbn [negb]; [|discriminate].
  destruct (Z.ltb_spec (len (body head)) 64); [discriminate|].
  rewrite parse_aqed_header_fields by (rewrite slice_to_len; lia).
  destruct (check_header _ _ _ _ _ _) as [[[[hs n0] d0] f0]|e] eqn:Ec; [|discriminate].
  apply check_header_ok in Ec. destruct Ec as (Ht & Hv & Hn & Hd & _ & _ & -> & -> & ->).
  rewrite original_guard_bit0.
  destruct (Z.testbit _ 0) eqn:Eb; cbn [negb]; [|discriminate].
  intros Hr. inversion Hr. subst. exists head. unfold basic_valid. tauto.
Qed.

Lemma header_stage_basic head :
  status_ok (status head) = true ->
  64 <= len (body head) ->
  basic_valid (slice_to 64 (body head)) ->
  let hdr := slice_to 64 (body head) in
  header_stage (Ok head) =
  if Z.testbit (hdr_flags hdr) 0 then Ok (hdr_n hdr, hdr_d_orig hdr, hdr_flags hdr)
  else if Z.testbit (hdr_flags hdr) 1 && (0 <? hdr_d_aqea hdr)
       then Raise (ValueError NoOriginalSection)
       else Raise (ValueError (NoEmbeddings (hdr_flags hdr))).
Proof.
  intros Hs Hl (Ht & Hv & Hn & Hd) hdr. unfold header_stage.
  rewrite Hs. cbn [negb].
  destruct (Z.ltb_spec (len (body head)) 64); [lia|].
  rewrite parse_aqed_header_fields by (rewrite slice_to_len; lia).
  fold hdr. rewrite check_header_basic by assumption.
  destruct (Z.testbit (hdr_flags hdr) 0) eqn:E0.
  - rewrite original_guard_bit0, E0. reflexivity.
  - destruct (Z.testbit (hdr_flags hdr) 1 && (0 <? hdr_d_aqea hdr)); [|reflexivity].
    rewrite original_guard_bit0, E0. reflexivity.
Qed.

Lemma header_stage_parsed head hs n d f :
  status_ok (status head) = true ->
  64 <= len (body head) ->
  parse_aqed_header (slice_to 64 (body head)) = Ok (hs, n, d, f) ->
  header_stage (Ok head) =
  if Z.testbit f 0 then Ok (n, d, f) else Raise (ValueError NoOriginalSection).
Proof.
  intros Hs Hl Hp. unfold header_stage. rewrite Hs, Hp. cbn [negb].
  destruct (Z.ltb_spec (len (body head)) 64); [lia|].
  rewrite original_guard_bit0. destruct (Z.testbit f 0); reflexivity.
Qed.

Lemma header_stage_raise head e :
  status_ok (status head) = true ->
  64 <= len (body head) ->
  header_stage (Ok head) = Raise e ->
  let hdr := slice_to 64 (body head) in
  error_kind e = Some FormatError /\
  (hdr_tag hdr <> magic \/ hdr_version hdr <> 1 \/ hdr_n hdr <= 0 \/ hdr_d_orig hdr <= 0 \/
   Z.testbit (hdr_flags hdr) 0 = false).
Proof.
  intros Hs Hl H hdr. unfold header_stage in H. rewrite Hs in H. cbn [negb] in H.
  destruct (Z.ltb_spec (len (body head)) 64); [lia|].
  rewrite parse_aqed_header_fields in H by (rewrite slice_to_len; lia).
  fold hdr in H.
  destruct (check_header _ _ _ _ _ _) as [[[[hs n] d] f]|e'] eqn:Ec.
  - apply check_header_ok in Ec. destruct Ec as (_ & _ & _ & _ & _ & _ & _ & _ & ->).
    rewrite original_guard_bit0 in H.
    destruct (Z.testbit (hdr_flags hdr) 0) eqn:E0; cbn [negb] in H; [discriminate|].
    inversion H. split; [reflexivity|]. tauto.
  - inversion H. subst e'. eapply check_header_raise. exact Ec.
Qed.

Lemma header_stage_agree r1 r2 :
  agree_upto 64 r1 r2 -> header_stage r1 = header_stage r2.
Proof.
  destruct r1 as [a|e1], r2 as [b|e2]; cbn [agree_upto]; try contradiction.
  - intros (Hs & Hb). unfold header_stage.
    rewrite Hs, (slice_to_ltb 64 _ _ Hb), Hb. reflexivity.
  - intros ->. reflexivity.
Qed.

Lemma result_of_outcome_raise o e :
  result_of_outcome o = Raise e -> error_kind e = Some TransportError.
Proof.
  destruct o; cbn [result_of_outcome]; intros H; inversion H. reflexivity.
Qed.

Lemma payload_request_headers url t e :
  req_headers (payload_request url t e) = [("Range", "bytes=0-" ++ str_of_int e)%string].
Proof. reflexivity. Qed.

Lemma payload_stage_ok take d chunk :
  0 <= take -> 0 <= d ->
  status_ok (status chunk) = true ->
  64 + take * d * 4 <= len (body chunk) ->
  payload_stage take d (64 + take * d * 4) (Ok chunk) =
  Ok (d, map (record_at d (body chunk)) (seq 0 (Z.to_nat take))).
Proof.
  intros Ht Hd Hs Hl. unfold payload_stage. rewrite Hs. cbn [negb].
  destruct (Z.ltb_spec (len (body chunk)) (64 + take * d * 4)); [lia|].
  rewrite decode_loop_records; [reflexivity|assumption|].
  rewrite Z2Nat.id by assumption. lia.
Qed.

Lemma payload_stage_shape take d byte_len r dim vs :
  0 <= take -> 0 < d -> byte_len = 64 + take * d * 4 ->
  payload_stage take d byte_len r = Ok (dim, vs) ->
  exists chunk, r = Ok chunk /\ status_ok (status chunk) = true /\
    byte_len <= len (body chunk) /\ dim = d /\
    vs = map (record_at d (body chunk)) (seq 0 (Z.to_nat take)) /\
    len vs = take /\ Forall (fun row => len row = d) vs.
Proof.
  intros Ht Hd -> H. destruct r as [chunk|e]; [|discriminate].
  unfold payload_stage in H.
  destruct (status_ok (status chunk)) eqn:Es; cbn [negb] in H; [|discriminate].
  destruct (Z.ltb_spec (len (body chunk)) (64 + take * d * 4)); [discriminate|].
  rewrite decode_loop_records in H; [|lia|rewrite Z2Nat.id by assumption; lia].
  inversion H; subst dim vs. exists chunk.
  repeat split; try assumption.
  - unfold len. rewrite length_map, length_seq. lia.
  - apply Forall_forall. intros row Hin. apply in_map_iff in Hin.
    destruct Hin as (i & <- & Hi). apply in_seq in Hi.
    apply record_at_length; [lia|]. nia.
Qed.

Lemma payload_stage_raise take d o e :
  0 <= take -> 0 <= d ->
  payload_stage take d (64 + take * d * 4) (result_of_outcome o) = Raise e ->
  error_kind e = Some TransportError \/
  (error_kind e = Some FetchError /\
   exists chunk, result_of_outcome o = Ok chunk /\
     (status_ok (status chunk) = false \/ len (body chunk) < 64 + take * d * 4)).
Proof.
  intros Ht Hd H. destruct (result_of_outcome o) as [chunk|e'] eqn:Er.
  - right. unfold payload_stage in H.
    destruct (status_ok (status chunk)) eqn:Es; cbn [negb] in H.
    + destruct (Z.ltb_spec (len (body chunk)) (64 + take * d * 4)).
      * inversion H. split; [reflexivity|]. exists chunk. tauto.
      * rewrite decode_loop_records in H; [discriminate|assumption|].
        rewrite Z2Nat.id by assumption. lia.
    + inversion H. split; [reflexivity|]. exists chunk. tauto.
  - left. cbn [payload_stage] in H. inversion H. subst e'.
    eapply result_of_outcome_raise. exact Er.
Qed.

Lemma payload_stage_truncated take d chunk :
  len (body chunk) < 64 + take * d * 4 ->
  fails_with (payload_stage take d (64 + take * d * 4) (Ok chunk)) FetchError.
Proof.
  intros H. unfold payload_stage.
  destruct (status_ok (status chunk)); cbn [negb].
  - destruct (Z.ltb_spec (len (body chunk)) (64 + take * d * 4)); [|lia].
    apply fails_with_raise. reflexivity.
  - apply fails_with_raise. reflexivity.
Qed.

Lemma payload_stage_agree take d r1 r2 :
  0 <= take -> 0 <= d ->
  agree_upto (64 + take * d * 4) r1 r2 ->
  payload_stage take d (64 + take * d * 4) r1 = payload_stage take d (64 + take * d * 4) r2.
Proof.
  intros Ht Hd. destruct r1 as [a|e1], r2 as [b|e2]; cbn [agree_upto]; try contradiction.
  - intros (Hs & Hb). unfold payload_stage. rewrite Hs.
    destruct (negb (status_ok (status b))); [reflexivity|].
    rewrite (slice_to_ltb _ _ _ Hb).
    destruct (Z.ltb_spec (len (body b)) (64 + take * d * 4)) as [Hlt|Hge].
    + symmetry in Hb. apply slice_to_short in Hb; [|exact Hlt]. rewrite Hb. reflexivity.
    + assert (Hga : 64 + take * d * 4 <= len (body a)).
      { destruct (Z.ltb_spec (len (body a)) (64 + take * d * 4)) as [Hlt|]; [|assumption].
        apply slice_to_short in Hb; [|exact Hlt]. rewrite Hb in Hlt. lia. }
      rewrite !decode_loop_records by (try assumption; rewrite Z2Nat.id by assumption; lia).
      do 2 f_equal. apply map_ext_in. intros i Hi. apply in_seq in Hi.
      rewrite <- (record_at_prefix d (body a) i (64 + take * d * 4)) by nia.
      rewrite <- (record_at_prefix d (body b) i (64 + take * d * 4)) by nia.
      rewrite Hb. reflexivity.
  - intros ->. reflexivity.
Qed.

(** * The claims *)

(** ** C1: Effective dimension *)

(** C1 (as amended): for every header response that passes the fetch checks
    and basic validation, when bit 0 of the flags is set the effective
    dimension is [dOrig], the payload request is sized with it and a
    returned dimension equals it; when bit 0 is clear the call fails with a
    format error after the header request alone: with bit 1 set the effective
    dimension of the header is [dAqea] but sampling still rejects the file,
    and with neither bit set the header is rejected for having no embedding
    section. *)
Theorem effective_dimension_selection urlopen url n_vectors timeout_s log head :
  head_result urlopen url timeout_s log = Ok head ->
  status_ok (status head) = true ->
  64 <= len (body head) ->
  basic_valid (slice_to 64 (body head)) ->
  let hdr := slice_to 64 (body head) in
  let run := fetch_aqed_sample_vectors urlopen url n_vectors timeout_s log in
  (Z.testbit (hdr_flags hdr) 0 = true ->
     effective_dim (hdr_d_orig hdr) (hdr_d_aqea hdr) (hdr_flags hdr) = hdr_d_orig hdr /\
     snd run = log ++ [header_request url timeout_s;
                       payload_request url timeout_s
                         (64 + take_count n_vectors (hdr_n hdr) * hdr_d_orig hdr * 4 - 1)] /\
     forall dim vs, fst run = Ok (dim, vs) -> dim = hdr_d_orig hdr) /\
  (Z.testbit (hdr_flags hdr) 0 = false -> Z.testbit (hdr_flags hdr) 1 = true ->
     effective_dim (hdr_d_orig hdr) (hdr_d_aqea hdr) (hdr_flags hdr) = hdr_d_aqea hdr /\
     fails_with (fst run) FormatError /\
     snd run = log ++ [header_request url timeout_s]) /\
  (Z.testbit (hdr_flags hdr) 0 = false -> Z.testbit (hdr_flags hdr) 1 = false ->
     fst run = Raise (ValueError (NoEmbeddings (hdr_flags hdr))) /\
     fails_with (fst run) FormatError).
Proof.
  intros Hh Hs Hl Hv hdr run.
  pose proof (header_stage_basic head Hs Hl Hv) as Hst. cbv zeta in Hst. fold hdr in Hst.
  assert (Hrun : run = run_view urlopen url n_vectors timeout_s log) by apply fetch_stages.
  unfold run_view in Hrun. rewrite Hh, Hst in Hrun.
  destruct Hv as (_ & _ & Hn & Hd). fold hdr in Hn, Hd.
  split; [|split].
  - intros E0. rewrite E0 in Hrun. cbv zeta in Hrun. rewrite Hrun. cbn [fst snd].
    split; [rewrite effective_dim_bits, E0; reflexivity|].
    split; [rewrite <- app_assoc; reflexivity|].
    intros dim vs Hok.
    apply payload_stage_shape in Hok; [| |assumption|reflexivity].
    + destruct Hok as (_ & _ & _ & _ & -> & _). reflexivity.
    + pose proof (take_count_pos n_vectors (hdr_n hdr)). lia.
  - intros E0 E1. rewrite E0, E1 in Hrun. cbn [andb] in Hrun.
    split; [rewrite effective_dim_bits, E0, E1; reflexivity|].
    destruct (0 <? hdr_d_aqea hdr); rewrite Hrun; cbn [fst snd];
      (split; [apply fails_with_raise; reflexivity|reflexivity]).
  - intros E0 E1. rewrite E0, E1 in Hrun. cbn [andb] in Hrun.
    rewrite Hrun. cbn [fst]. split; [reflexivity|apply fails_with_raise; reflexivity].
Qed.

(** C1, counterexample: a header that passes basic validation and has only
    bit 1 set, with [dAqea = 4], is accepted by [parse_aqed_header], yet the
    sampling call does not proceed with dimension 4: it raises. *)
Lemma only_alternate_section_rejected :
  let hdr := slice_to 64 aqea_only_file in
  basic_valid hdr /\
  Z.testbit (hdr_flags hdr) 0 = false /\ Z.testbit (hdr_flags hdr) 1 = true /\
  hdr_d_aqea hdr = 4 /\
  parse_aqed_header hdr = Ok (64, 100, 8, 2) /\
  fetch_aqed_sample_vectors (serve_whole 206 aqea_only_file) "u" 8 timeout20 [] =
    (Raise (ValueError NoOriginalSection), [header_request "u" timeout20]).
Proof.
  cbv zeta. unfold basic_valid. repeat split; vm_compute; reflexivity.
Qed.

(** C1, the amended statement at [original_file]. *)
Lemma effective_dimension_selection_witness :
  let head := mkHttpResult 200 [] original_file in
  let run := fetch_aqed_sample_vectors (serve_whole 200 original_file) "u" 8 timeout20 [] in
  basic_valid (slice_to 64 (body head)) /\
  Z.testbit (hdr_flags (slice_to 64 (body head))) 0 = true /\
  snd run = [header_request "u" timeout20; payload_request "u" timeout20 319] /\
  forall dim vs, fst run = Ok (dim, vs) -> dim = 8.
Proof.
  intros head run.
  assert (Hv : basic_valid (slice_to 64 (body head)))
    by (unfold basic_valid; repeat split; vm_compute; reflexivity).
  assert (E0 : Z.testbit (hdr_flags (slice_to 64 (body head))) 0 = true)
    by (vm_compute; reflexivity).
  destruct (effective_dimension_selection (serve_whole 200 original_file) "u" 8 timeout20 []
              head eq_refl eq_refl ltac:(vm_compute; discriminate) Hv) as [H _].
  destruct (H E0) as (_ & Hlog & Hdim).
  assert (En : hdr_n (slice_to 64 (body head)) = 100) by (vm_compute; reflexivity).
  assert (Ed : hdr_d_orig (slice_to 64 (body head)) = 8) by (vm_compute; reflexivity).
  rewrite En, Ed in Hlog. rewrite Ed in Hdim.
  split; [exact Hv|]. split; [exact E0|]. split; [exact Hlog|exact Hdim].
Defined.

(** ** C2: Payload range *)

(** C2 (as amended): for every successfully parsed header, [take] and the
    effective dimension are positive, a second request of the call can only
    be the range [0, 64 + take * dimension * 4 - 1], and it is issued when
    bit 0 of the flags is set.  For [n = 100], [dOrig = 8], [flags = 1] and a
    requested count of 8 the range ends at 319, and a sufficient payload
    decodes to exactly 8 vectors of length 8. *)
Theorem payload_range_arithmetic urlopen url n_vectors timeout_s log head hs n d_orig flags :
  head_result urlopen url timeout_s log = Ok head ->
  status_ok (status head) = true ->
  64 <= len (body head) ->
  parse_aqed_header (slice_to 64 (body head)) = Ok (hs, n, d_orig, flags) ->
  let run := fetch_aqed_sample_vectors urlopen url n_vectors timeout_s log in
  let take := take_count n_vectors n in
  let dimension := effective_dim d_orig (hdr_d_aqea (slice_to 64 (body head))) flags in
  let payload_end := 64 + take * dimension * 4 - 1 in
  0 < take /\ 0 < dimension /\
  (forall r, nth_error (snd run) (length log + 1) = Some r ->
     r = payload_request url timeout_s payload_end /\
     req_headers r = [("Range", "bytes=0-" ++ str_of_int payload_end)%string]) /\
  (Z.testbit flags 0 = true ->
     snd run = log ++ [header_request url timeout_s;
                       payload_request url timeout_s payload_end]) /\
  (n = 100 -> d_orig = 8 -> flags = 1 -> n_vectors = 8 ->
     payload_end = 319 /\
     forall chunk,
       chunk_result urlopen url timeout_s log 319 = Ok chunk ->
       status_ok (status chunk) = true ->
       320 <= len (body chunk) ->
       exists vs, fst run = Ok (8, vs) /\ len vs = 8 /\ Forall (fun row => len row = 8) vs).
Proof.
  intros Hh Hs Hl Hp run take dimension payload_end.
  assert (Hl64 : len (slice_to 64 (body head)) = 64) by (apply slice_to_len; lia).
  destruct (parse_ok_fields _ _ _ _ _ Hl64 Hp) as ((_ & _ & Hn & Hd) & _ & En & Ed & Ef & Hdim).
  rewrite <- En in Hn. rewrite <- Ed in Hd.
  assert (Htake : 0 < take) by (pose proof (take_count_pos n_vectors n); unfold take; lia).
  assert (Hrun : run = run_view urlopen url n_vectors timeout_s log) by apply fetch_stages.
  unfold run_view in Hrun.
  rewrite Hh, (header_stage_parsed head hs n d_orig flags Hs Hl Hp) in Hrun.
  fold take in Hrun.
  assert (Edim : Z.testbit flags 0 = true -> dimension = d_orig).
  { intros E0. unfold dimension. rewrite effective_dim_bits, E0. reflexivity. }
  split; [exact Htake|]. split; [exact Hdim|].
  destruct (Z.testbit flags 0) eqn:E0.
  - specialize (Edim eq_refl). unfold payload_end. rewrite Edim.
    cbv zeta in Hrun.
    assert (Hlog : snd run = log ++ [header_request url timeout_s;
                       payload_request url timeout_s (64 + take * d_orig * 4 - 1)]).
    { rewrite Hrun. cbn [snd]. rewrite <- app_assoc. reflexivity. }
    split; [|split].
    + intros r Hr. rewrite Hlog in Hr.
      rewrite nth_error_app2 in Hr by lia.
      replace (length log + 1 - length log)%nat with 1%nat in Hr by lia.
      cbn [nth_error] in Hr. inversion Hr. split; reflexivity.
    + intros _. exact Hlog.
    + intros -> -> _ ->. split; [reflexivity|].
      intros chunk Hc Hcs Hcl. exists (map (record_at 8 (body chunk)) (seq 0 8)).
      rewrite Hrun. cbn [fst]. unfold take.
      change (64 + take_count 8 100 * 8 * 4 - 1) with 319. rewrite Hc.
      change (take_count 8 100) with 8.
      pose proof (payload_stage_ok 8 8 chunk ltac:(lia) ltac:(lia) Hcs ltac:(lia)) as Hps.
      change (64 + 8 * 8 * 4) with 320 in *.
      split; [exact Hps|].
      split; [reflexivity|].
      apply Forall_forall. intros row Hin. apply in_map_iff in Hin.
      destruct Hin as (i & <- & Hi). apply in_seq in Hi.
      apply record_at_length; lia.
  - rewrite Hrun. cbn [snd]. split; [|split].
    + intros r Hr. rewrite nth_error_app2 in Hr by lia.
      replace (length log + 1 - length log)%nat with 1%nat in Hr by lia.
      discriminate.
    + discriminate.
    + intros _ _ ->. discriminate.
Qed.

(** C2, counterexample: in the scenario of the claim the payload request is
    [bytes=0-319]; its end is not 2111.  And a successfully parsed header
    that lacks the original section is followed by no payload request. *)
Lemma scenario_range_end_is_319 :
  let run := fetch_aqed_sample_vectors (serve_whole 200 original_file) "u" 8 timeout20 [] in
  let run' := fetch_aqed_sample_vectors (serve_whole 200 aqea_only_file) "u" 8 timeout20 [] in
  parse_aqed_header (slice_to 64 original_file) = Ok (64, 100, 8, 1) /\
  map req_headers (snd run) =
    [[("Range", "bytes=0-63")]; [("Range", "bytes=0-319")]]%string /\
  64 + take_count 8 100 * 8 * 4 - 1 <> 2111 /\
  parse_aqed_header (slice_to 64 aqea_only_file) = Ok (64, 100, 8, 2) /\
  map req_headers (snd run') = [[("Range", "bytes=0-63")]]%string.
Proof.
  cbv zeta. split; [vm_compute; reflexivity|].
  split; [vm_compute; reflexivity|].
  split; [vm_compute; discriminate|].
  split; vm_compute; reflexivity.
Qed.

(** C2, the amended statement at [original_file]. *)
Lemma payload_range_arithmetic_witness :
  let run := fetch_aqed_sample_vectors (serve_whole 200 original_file) "u" 8 timeout20 [] in
  parse_aqed_header (slice_to 64 original_file) = Ok (64, 100, 8, 1) /\
  snd run = [header_request "u" timeout20; payload_request "u" timeout20 319] /\
  exists vs, fst run = Ok (8, vs) /\ len vs = 8 /\ Forall (fun row => len row = 8) vs.
Proof.
  intros run.
  assert (Hp : parse_aqed_header (slice_to 64 original_file) = Ok (64, 100, 8, 1))
    by (vm_compute; reflexivity).
  destruct (payload_range_arithmetic (serve_whole 200 original_file) "u" 8 timeout20 []
              (mkHttpResult 200 [] original_file) 64 100 8 1
              eq_refl eq_refl ltac:(vm_compute; discriminate) Hp)
    as (_ & _ & _ & Hlog & Hsc).
  destruct (Hsc eq_refl eq_refl eq_refl eq_refl) as (_ & Hvs).
  split; [exact Hp|]. split; [exact (Hlog eq_refl)|].
  exact (Hvs (mkHttpResult 200 [] original_file) eq_refl eq_refl
             ltac:(vm_compute; discriminate)).
Defined.

(** ** C3: Request-count clamping *)

(** C3: with a declared record count [n >= 1], the number of decoded records
    is [min(requestedCount, n)] when the requested count is at least 1 and 1
    when it is smaller; every returned vector list has that length, and a
    sufficient payload does return one.  A requested count of 1000 with
    [n = 100] takes 100 records. *)
Theorem request_count_clamping urlopen url n_vectors timeout_s log head hs n d_orig flags :
  head_result urlopen url timeout_s log = Ok head ->
  status_ok (status head) = true ->
  64 <= len (body head) ->
  parse_aqed_header (slice_to 64 (body head)) = Ok (hs, n, d_orig, flags) ->
  let run := fetch_aqed_sample_vectors urlopen url n_vectors timeout_s log in
  let take := take_count n_vectors n in
  1 <= n /\
  (1 <= n_vectors -> take = Z.min n_vectors n) /\
  (n_vectors < 1 -> take = 1) /\
  (forall dim vs, fst run = Ok (dim, vs) -> len vs = take) /\
  (forall chunk,
     Z.testbit flags 0 = true ->
     chunk_result urlopen url timeout_s log (64 + take * d_orig * 4 - 1) = Ok chunk ->
     status_ok (status chunk) = true ->
     64 + take * d_orig * 4 <= len (body chunk) ->
     exists vs, fst run = Ok (d_orig, vs) /\ len vs = take) /\
  (n_vectors = 1000 -> n = 100 -> take = 100).
Proof.
  intros Hh Hs Hl Hp run take.
  assert (Hl64 : len (slice_to 64 (body head)) = 64) by (apply slice_to_len; lia).
  destruct (parse_ok_fields _ _ _ _ _ Hl64 Hp) as ((_ & _ & Hn & Hd) & _ & En & Ed & _ & _).
  rewrite <- En in Hn. rewrite <- Ed in Hd.
  assert (Hrun : run = run_view urlopen url n_vectors timeout_s log) by apply fetch_stages.
  unfold run_view in Hrun.
  rewrite Hh, (header_stage_parsed head hs n d_orig flags Hs Hl Hp) in Hrun.
  fold take in Hrun.
  split; [lia|]. split; [unfold take, take_count; lia|].
  split; [unfold take, take_count; lia|].
  split; [|split].
  - intros dim vs Hok. destruct (Z.testbit flags 0).
    + cbv zeta in Hrun. rewrite Hrun in Hok. cbn [fst] in Hok.
      apply payload_stage_shape in Hok; [| |assumption|reflexivity].
      * destruct Hok as (_ & _ & _ & _ & _ & _ & Hlen & _). exact Hlen.
      * pose proof (take_count_pos n_vectors n). unfold take. lia.
    + rewrite Hrun in Hok. discriminate.
  - intros chunk E0 Hc Hcs Hcl. rewrite E0 in Hrun. cbv zeta in Hrun.
    assert (Ht : 0 <= take) by (pose proof (take_count_pos n_vectors n); unfold take; lia).
    exists (map (record_at d_orig (body chunk)) (seq 0 (Z.to_nat take))).
    subst take. rewrite Hrun. cbn [fst]. rewrite Hc.
    split; [apply payload_stage_ok; try assumption; lia|].
    unfold len. rewrite length_map, length_seq. lia.
  - intros -> ->. reflexivity.
Qed.

(** C3 at [original_file] with a requested count of 1000. *)
Lemma request_count_clamping_witness :
  let run := fetch_aqed_sample_vectors (serve_whole 200 original_file) "u" 1000 timeout20 [] in
  parse_aqed_header (slice_to 64 original_file) = Ok (64, 100, 8, 1) /\
  take_count 1000 100 = 100 /\
  exists vs, fst run = Ok (8, vs) /\ len vs = 100.
Proof.
  intros run.
  assert (Hp : parse_aqed_header (slice_to 64 original_file) = Ok (64, 100, 8, 1))
    by (vm_compute; reflexivity).
  destruct (request_count_clamping (serve_whole 200 original_file) "u" 1000 timeout20 []
              (mkHttpResult 200 [] original_file) 64 100 8 1
              eq_refl eq_refl ltac:(vm_compute; discriminate) Hp)
    as (_ & _ & _ & _ & Hvs & Hsc).
  split; [exact Hp|]. split; [exact (Hsc eq_refl eq_refl)|].
  exact (Hvs (mkHttpResult 200 [] original_file) eq_refl eq_refl eq_refl
             ltac:(vm_compute; discriminate)).
Defined.

(** ** C4: Truncation *)

(** C4: when the payload response is shorter than [payloadEnd + 1] bytes the
    call fails with a fetch error and returns nothing; and whenever the call
    returns [(dim, vs)], the header was accepted, the payload response had an
    acceptable status and enough bytes, [dim] is positive, and [vs] holds all
    [take] records, each of length [dim]. *)
Theorem truncation_atomicity urlopen url n_vectors timeout_s log :
  let run := fetch_aqed_sample_vectors urlopen url n_vectors timeout_s log in
  (forall n d f chunk,
     header_stage (head_result urlopen url timeout_s log) = Ok (n, d, f) ->
     let payload_end := 64 + take_count n_vectors n * d * 4 - 1 in
     chunk_result urlopen url timeout_s log payload_end = Ok chunk ->
     len (body chunk) < payload_end + 1 ->
     fails_with (fst run) FetchError /\ forall dim vs, fst run <> Ok (dim, vs)) /\
  (forall dim vs,
     fst run = Ok (dim, vs) ->
     exists n f chunk,
       header_stage (head_result urlopen url timeout_s log) = Ok (n, dim, f) /\
       chunk_result urlopen url timeout_s log (64 + take_count n_vectors n * dim * 4 - 1)
         = Ok chunk /\
       status_ok (status chunk) = true /\
       64 + take_count n_vectors n * dim * 4 <= len (body chunk) /\
       0 < dim /\
       len vs = take_count n_vectors n /\
       Forall (fun row => len row = dim) vs /\
       vs = map (record_at dim (body chunk)) (seq 0 (Z.to_nat (take_count n_vectors n)))).
Proof.
  intros run.
  assert (Hrun : run = run_view urlopen url n_vectors timeout_s log) by apply fetch_stages.
  unfold run_view in Hrun. split.
  - intros n d f chunk Hst payload_end Hc Hlen.
    rewrite Hst in Hrun. cbv zeta in Hrun. subst payload_end.
    rewrite Hc in Hrun.
    assert (Hf : fails_with (fst run) FetchError).
    { rewrite Hrun. cbn [fst]. apply payload_stage_truncated. lia. }
    split; [exact Hf|]. intros dim vs. eapply fails_with_not_ok. exact Hf.
  - intros dim vs Hok.
    destruct (header_stage (head_result urlopen url timeout_s log)) as [[[n d] f]|e] eqn:Hst.
    + cbv zeta in Hrun. rewrite Hrun in Hok. cbn [fst] in Hok.
      destruct (header_stage_ok _ _ _ _ Hst) as (head & _ & _ & _ & (_ & _ & Hn & Hd) & En & Ed & _).
      rewrite <- En in Hn. rewrite <- Ed in Hd.
      pose proof (take_count_pos n_vectors n ltac:(lia)) as Ht.
      apply payload_stage_shape in Hok; [|lia|assumption|reflexivity].
      destruct Hok as (chunk & Hc & Hcs & Hcl & -> & Hvs & Hlen & Hrows).
      exists n, f, chunk. repeat split; assumption.
    + rewrite Hrun in Hok. discriminate.
Qed.

(** C4 at a payload response cut to 100 bytes where 320 are needed. *)
Lemma truncation_atomicity_witness :
  let run := fetch_aqed_sample_vectors (serve_truncated 206 original_file 100) "u" 8 timeout20 [] in
  len (firstn 100 original_file) < 319 + 1 /\
  fails_with (fst run) FetchError /\
  forall dim vs, fst run <> Ok (dim, vs).
Proof.
  intros run.
  destruct (truncation_atomicity (serve_truncated 206 original_file 100) "u" 8 timeout20 [])
    as [H _].
  split; [vm_compute; reflexivity|].
  apply (H 100 8 1 (mkHttpResult 206 [] (firstn 100 original_file))).
  - vm_compute. reflexivity.
  - vm_compute. reflexivity.
  - vm_compute. reflexivity.
Defined.

(** ** C5: Header failures *)

(** C5 (as amended): the call fails with a fetch error at the header step,
    that is after the header request alone, exactly when the header
    response has a status other than 200 and 206 or a body shorter than 64
    bytes; and when the header response passes these two checks, the call
    fails with a format error exactly when the tag differs from the magic,
    or the version differs from 1, or [n <= 0], or [dOrig <= 0], or bit 0 of
    the flags is clear. *)
Theorem header_failure_conditions urlopen url n_vectors timeout_s log head :
  head_result urlopen url timeout_s log = Ok head ->
  let run := fetch_aqed_sample_vectors urlopen url n_vectors timeout_s log in
  let hdr := slice_to 64 (body head) in
  ((status_ok (status head) = false \/ len (body head) < 64) <->
   (fails_with (fst run) FetchError /\ snd run = log ++ [header_request url timeout_s])) /\
  (status_ok (status head) = true -> 64 <= len (body head) ->
   (fails_with (fst run) FormatError <->
    (hdr_tag hdr <> magic \/ hdr_version hdr <> 1 \/ hdr_n hdr <= 0 \/ hdr_d_orig hdr <= 0 \/
     Z.testbit (hdr_flags hdr) 0 = false))).
Proof.
  intros Hh run hdr.
  assert (Hrun : run = run_view urlopen url n_vectors timeout_s log) by apply fetch_stages.
  unfold run_view in Hrun. rewrite Hh in Hrun.
  destruct (status_ok (status head)) eqn:Es.
  - destruct (Z.ltb_spec (len (body head)) 64) as [Hlt|Hge].
    + (* body too small *)
      assert (Hst : header_stage (Ok head) = Raise (ValueError HeaderTooSmall)).
      { unfold header_stage. rewrite Es. cbn [negb].
        destruct (Z.ltb_spec (len (body head)) 64); [reflexivity|lia]. }
      rewrite Hst in Hrun. split.
      * split; [|tauto]. intros _. rewrite Hrun. cbn [fst snd].
        split; [apply fails_with_raise; reflexivity|reflexivity].
      * intros _ Hl. lia.
    + destruct (header_stage (Ok head)) as [[[n d] f]|e] eqn:Hst.
      * (* header accepted *)
        destruct (header_stage_ok _ _ _ _ Hst)
          as (head' & Heq & _ & _ & (Ht & Hv & Hn & Hd) & En & Ed & Ef & E0).
        inversion Heq. subst head'. fold hdr in Ht, Hv, Hn, Hd, En, Ed, Ef.
        cbv zeta in Hrun. split.
        -- split; [intros [H|H]; [discriminate|lia]|].
           intros (_ & Hlog). rewrite Hrun in Hlog. cbn [snd] in Hlog.
           exfalso. eapply app_snoc_neq. exact Hlog.
        -- intros _ _. split.
           ++ intros (e & He & Hk). rewrite Hrun in He. cbn [fst] in He.
              unfold chunk_result in He.
              apply payload_stage_raise in He;
                [|pose proof (take_count_pos n_vectors n); lia|lia].
              destruct He as [He|(He & _)]; congruence.
           ++ intros [H|[H|[H|[H|H]]]]; try contradiction; try lia.
              rewrite <- Ef in H. congruence.
      * (* header rejected by the parser or the section guard *)
        destruct (header_stage_raise head e Es Hge Hst) as (Hk & Hc). fold hdr in Hc.
        rewrite Hrun. cbn [fst snd]. split.
        -- split; [intros [H|H]; [discriminate|lia]|].
           intros ((e' & He & Hk') & _). inversion He. subst e'. congruence.
        -- intros _ _. split; [intros _; exact Hc|].
           intros _. apply fails_with_raise. exact Hk.
  - (* unacceptable status *)
    assert (Hst : header_stage (Ok head) = Raise (ValueError (HeaderFetchFailed (status head)))).
    { unfold header_stage. rewrite Es. reflexivity. }
    rewrite Hst in Hrun. split.
    + split; [|tauto]. intros _. rewrite Hrun. cbn [fst snd].
      split; [apply fails_with_raise; reflexivity|reflexivity].
    + discriminate.
Qed.

(** C5, counterexample: a header with good tag, version, [n] and [dOrig] but
    no section flag fails with a format error; and a call whose header
    response has status 206 and 64 bytes fails with a fetch error, at the
    payload step. *)
Lemma failure_conditions_not_exhaustive :
  (let run := fetch_aqed_sample_vectors (serve_whole 200 sectionless_file) "u" 8 timeout20 [] in
   let hdr := slice_to 64 sectionless_file in
   fails_with (fst run) FormatError /\
   hdr_tag hdr = magic /\ hdr_version hdr = 1 /\ ~ hdr_n hdr <= 0 /\ ~ hdr_d_orig hdr <= 0) /\
  (let env := serve_truncated 206 original_file 100 in
   let run := fetch_aqed_sample_vectors env "u" 8 timeout20 [] in
   fails_with (fst run) FetchError /\
   exists head, head_result env "u" timeout20 [] = Ok head /\
     status head = 206 /\ ~ len (body head) < 64).
Proof.
  split; cbv zeta.
  - split.
    + exists (ValueError (NoEmbeddings 0)). split; vm_compute; reflexivity.
    + repeat split; vm_compute; congruence.
  - split.
    + exists (ValueError (RangeTruncated 320 100)). split; vm_compute; reflexivity.
    + exists (mkHttpResult 206 [] (firstn 64 original_file)).
      repeat split; vm_compute; congruence.
Qed.

(** C5, the amended statement at [sectionless_file]. *)
Lemma header_failure_conditions_witness :
  let run := fetch_aqed_sample_vectors (serve_whole 200 sectionless_file) "u" 8 timeout20 [] in
  Z.testbit (hdr_flags (slice_to 64 sectionless_file)) 0 = false /\
  fails_with (fst run) FormatError /\
  ~ (fails_with (fst run) FetchError /\ snd run = [header_request "u" timeout20]).
Proof.
  intros run.
  destruct (header_failure_conditions (serve_whole 200 sectionless_file) "u" 8 timeout20 []
              (mkHttpResult 200 [] sectionless_file) eq_refl) as [Hfetch Hformat].
  assert (E0 : Z.testbit (hdr_flags (slice_to 64 sectionless_file)) 0 = false)
    by (vm_compute; reflexivity).
  split; [exact E0|]. split.
  - apply (Hformat eq_refl ltac:(vm_compute; discriminate)).
    right. right. right. right. exact E0.
  - intros H. apply Hfetch in H. destruct H as [H|H].
    + vm_compute in H. discriminate.
    + vm_compute in H. discriminate.
Defined.

(** ** C6: Decode round trip *)

Lemma word32_fields w :
  word32 w ->
  w = Z.b2z (Z.testbit w 31) * 2 ^ 31 + f32_exponent w * 2 ^ 23 + f32_fraction w /\
  0 <= f32_exponent w < 256 /\ 0 <= f32_fraction w < 2 ^ 23.
Proof.
  unfold word32, f32_exponent, f32_fraction. intros Hw.
  assert (Hs : Z.b2z (Z.testbit w 31) = w / 2 ^ 31).
  { destruct (Z.testbit w 31) eqn:E.
    - apply Z.testbit_true in E; [|lia]. cbn [Z.b2z].
      assert (0 <= w / 2 ^ 31 < 2) by (split; [apply Z.div_pos; lia|apply Z.div_lt_upper_bound; lia]).
      assert (H2 : (w / 2 ^ 31) mod 2 = w / 2 ^ 31) by (apply Z.mod_small; lia).
      lia.
    - apply Z.testbit_false in E; [|lia]. cbn [Z.b2z].
      assert (0 <= w / 2 ^ 31 < 2) by (split; [apply Z.div_pos; lia|apply Z.div_lt_upper_bound; lia]).
      assert (H2 : (w / 2 ^ 31) mod 2 = w / 2 ^ 31) by (apply Z.mod_small; lia).
      lia. }
  rewrite Hs.
  change (2 ^ 31) with 2147483648 in *. change (2 ^ 23) with 8388608 in *.
  change (2 ^ 8) with 256 in *. change (2 ^ 32) with 4294967296 in *.
  split; [|split].
  - pose proof (Z.div_mod w 8388608 ltac:(lia)) as H1.
    pose proof (Z.div_mod (w / 8388608) 256 ltac:(lia)) as H2.
    assert (H3 : w / 8388608 / 256 = w / 2147483648).
    { rewrite Z.div_div by lia. reflexivity. }
    lia.
  - apply Z.mod_pos_bound. lia.
  - apply Z.mod_pos_bound. lia.
Qed.

(** The patterns that decode to NaN: exponent all ones, fraction not zero. *)
Lemma f32_nan_iff w :
  f32_of_bits w = S754_nan <-> f32_exponent w = 255 /\ f32_fraction w <> 0.
Proof.
  unfold f32_of_bits. fold (f32_exponent w) (f32_fraction w).
  assert (Hf : 0 <= f32_fraction w < 2 ^ 23) by (apply Z.mod_pos_bound; lia).
  destruct (Z.eqb_spec (f32_exponent w) 255) as [E|E].
  - destruct (Z.eqb_spec (f32_fraction w) 0) as [F|F].
    + split; [discriminate|]. intros [_ H]. contradiction.
    + split; [intros _; split; assumption|reflexivity].
  - destruct (Z.eqb_spec (f32_exponent w) 0) as [E0|E0].
    + destruct (f32_fraction w); (split; [discriminate|intros [H _]; contradiction]).
    + destruct (f32_fraction w + 2 ^ 23); (split; [discriminate|intros [H _]; contradiction]).
Qed.

(** The sign, exponent and fraction of a pattern that is not a NaN can be
    read back from its value. *)
Lemma f32_of_bits_fields w1 w2 :
  word32 w1 -> word32 w2 ->
  f32_of_bits w1 <> S754_nan ->
  f32_of_bits w1 = f32_of_bits w2 ->
  Z.testbit w1 31 = Z.testbit w2 31 /\
  f32_exponent w1 = f32_exponent w2 /\ f32_fraction w1 = f32_fraction w2.
Proof.
  intros H1 H2 Hnan Heq.
  destruct (word32_fields w1 H1) as (_ & He1 & Hf1).
  destruct (word32_fields w2 H2) as (_ & He2 & Hf2).
  revert Hnan Heq. unfold f32_of_bits.
  fold (f32_exponent w1) (f32_fraction w1) (f32_exponent w2) (f32_fraction w2).
  change (2 ^ 23) with 8388608 in *.
  generalize (Z.testbit w1 31), (Z.testbit w2 31). intros s1 s2.
  destruct (Z.eqb_spec (f32_exponent w1) 255) as [E1|E1];
    destruct (Z.eqb_spec (f32_exponent w2) 255) as [E2|E2].
  - destruct (Z.eqb_spec (f32_fraction w1) 0) as [F1|F1]; [|intros H; contradiction].
    destruct (Z.eqb_spec (f32_fraction w2) 0) as [F2|F2]; [|discriminate].
    intros _ H. injection H as Hs. repeat split; congruence.
  - destruct (Z.eqb_spec (f32_fraction w1) 0) as [F1|F1]; [|intros H; contradiction].
    destruct (Z.eqb_spec (f32_exponent w2) 0) as [Z2|Z2].
    + destruct (f32_fraction w2); discriminate.
    + destruct (f32_fraction w2 + 8388608); discriminate.
  - destruct (Z.eqb_spec (f32_fraction w2) 0) as [F2|F2].
    + destruct (Z.eqb_spec (f32_exponent w1) 0) as [Z1|Z1].
      * destruct (f32_fraction w1); discriminate.
      * destruct (f32_fraction w1 + 8388608); discriminate.
    + destruct (Z.eqb_spec (f32_exponent w1) 0) as [Z1|Z1].
      * destruct (f32_fraction w1); discriminate.
      * destruct (f32_fraction w1 + 8388608); discriminate.
  - destruct (Z.eqb_spec (f32_exponent w1) 0) as [Z1|Z1];
      destruct (Z.eqb_spec (f32_exponent w2) 0) as [Z2|Z2].
    + destruct (f32_fraction w1) eqn:F1; destruct (f32_fraction w2) eqn:F2;
        intros _ H; try discriminate; try lia;
        injection H; intros; subst; repeat split; congruence.
    + destruct (f32_fraction w1) eqn:F1; destruct (f32_fraction w2 + 8388608) eqn:F2;
        intros _ H; try discriminate; try lia.
      injection H; intros; subst. lia.
    + destruct (f32_fraction w1 + 8388608) eqn:F1; destruct (f32_fraction w2) eqn:F2;
        intros _ H; try discriminate; try lia.
      injection H; intros; subst. lia.
    + destruct (f32_fraction w1 + 8388608) eqn:F1;
        destruct (f32_fraction w2 + 8388608) eqn:F2;
        intros _ H; try discriminate; try lia.
      injection H; intros; subst. repeat split; lia.
Qed.

(** Decoding is injective on the patterns that are not NaNs. *)
Lemma f32_of_bits_inj w1 w2 :
  word32 w1 -> word32 w2 ->
  f32_of_bits w1 <> S754_nan ->
  f32_of_bits w1 = f32_of_bits w2 -> w1 = w2.
Proof.
  intros H1 H2 Hnan Heq.
  destruct (f32_of_bits_fields w1 w2 H1 H2 Hnan Heq) as (Hs & He & Hf).
  destruct (word32_fields w1 H1) as (E1 & _).
  destruct (word32_fields w2 H2) as (E2 & _).
  rewrite E1, E2, Hs, He, Hf. reflexivity.
Qed.

(** C6 (amended): for a header that passes basic validation, with bit 0 of
    the flags clear the call fails with a format error after the header
    request alone and decodes nothing; with bit 0 set and a payload response
    whose body is 64 header bytes followed by the little-endian encoding of
    records of [dOrig] binary32 patterns each, the call returns dimension
    [dOrig > 0] and the first [take] records in stored order; record [i] is
    read at offset [64 + i * (dOrig * 4)] and its 32-bit patterns are the
    stored ones; every vector has length [dOrig]; when the header declares
    as many records as are stored and at least that many are requested, all
    of them are returned.  Each returned value is the IEEE value of its
    pattern: a value that is not a NaN determines its pattern, and the
    patterns with exponent 255 and a fraction other than 0 all give NaN. *)
Theorem decode_round_trip urlopen url n_vectors timeout_s log head chunk hdr recs extra :
  head_result urlopen url timeout_s log = Ok head ->
  status_ok (status head) = true ->
  64 <= len (body head) ->
  basic_valid (slice_to 64 (body head)) ->
  let flags := hdr_flags (slice_to 64 (body head)) in
  let n := hdr_n (slice_to 64 (body head)) in
  let d := hdr_d_orig (slice_to 64 (body head)) in
  let take := take_count n_vectors n in
  let run := fetch_aqed_sample_vectors urlopen url n_vectors timeout_s log in
  (Z.testbit flags 0 = false ->
   exists e, run = (Raise e, log ++ [header_request url timeout_s]) /\
             error_kind e = Some FormatError) /\
  (Z.testbit flags 0 = true ->
   chunk_result urlopen url timeout_s log (64 + take * d * 4 - 1) = Ok chunk ->
   status_ok (status chunk) = true ->
   body chunk = hdr ++ encode_records recs ++ extra ->
   len hdr = 64 ->
   Forall (fun r => len r = d /\ Forall word32 r) recs ->
   take <= len recs ->
   0 < d /\ 1 <= take /\
   fst run = Ok (d, map (map f32_of_bits) (firstn (Z.to_nat take) recs)) /\
   map (record_at d (body chunk)) (seq 0 (Z.to_nat take)) =
     map (map f32_of_bits) (firstn (Z.to_nat take) recs) /\
   (forall i r, nth_error recs i = Some r -> record_bits_at d (body chunk) i = r) /\
   Forall (fun v => len v = d) (map (map f32_of_bits) (firstn (Z.to_nat take) recs)) /\
   (n = len recs -> len recs <= n_vectors ->
    fst run = Ok (d, map (map f32_of_bits) recs) /\
    len (map (map f32_of_bits) recs) = n) /\
   (forall w1 w2, word32 w1 -> word32 w2 -> f32_of_bits w1 <> S754_nan ->
                  f32_of_bits w1 = f32_of_bits w2 -> w1 = w2) /\
   (forall w, f32_of_bits w = S754_nan <->
              f32_exponent w = 255 /\ f32_fraction w <> 0)).
Proof.
  intros Hh Hhs Hhl Hv flags n d take run.
  pose proof (header_stage_basic head Hhs Hhl Hv) as Hstage. cbv zeta in Hstage.
  fold flags n d in Hstage.
  split.
  - intros E0. rewrite E0 in Hstage.
    unfold run. rewrite fetch_stages. unfold run_view. rewrite Hh, Hstage.
    destruct (Z.testbit flags 1 && (0 <? hdr_d_aqea (slice_to 64 (body head))));
      eexists; (split; [reflexivity|reflexivity]).
  - intros E0 Hc Hcs Hbody Hhdr Hall Htk. rewrite E0 in Hstage.
    assert (Hst : header_stage (head_result urlopen url timeout_s log) = Ok (n, d, flags))
      by (rewrite Hh; exact Hstage).
    destruct Hv as (_ & _ & Hn & Hd). fold n in Hn. fold d in Hd.
    assert (Ht : 1 <= take) by (apply take_count_pos; lia).
    assert (Hlen : 64 + take * d * 4 <= len (body chunk)).
    { rewrite Hbody. unfold len in *. rewrite !length_app.
      assert (Hrec : (length (encode_records recs) = length recs * (4 * Z.to_nat d))%nat).
      { clear -Hall. induction Hall as [|r recs [Hr _] _ IH]; [reflexivity|].
        cbn [encode_records flat_map length]. fold (encode_records recs).
        rewrite length_app, encode_record_length, IH. unfold len in Hr. nia. }
      rewrite Hrec. nia. }
    assert (Hdec : decode_loop (Z.to_nat take) d (body chunk) 64 [] =
                   Ok (map (map f32_of_bits) (firstn (Z.to_nat take) recs))).
    { rewrite Hbody, <- Hhdr. rewrite decode_loop_encoded; [reflexivity|lia|assumption|].
      unfold len in Htk. lia. }
    assert (Hrecs : map (record_at d (body chunk)) (seq 0 (Z.to_nat take)) =
                    map (map f32_of_bits) (firstn (Z.to_nat take) recs)).
    { rewrite decode_loop_records in Hdec; [|lia|rewrite Z2Nat.id by lia; lia].
      inversion Hdec. reflexivity. }
    assert (Hrun : fst run = Ok (d, map (map f32_of_bits) (firstn (Z.to_nat take) recs))).
    { unfold run. rewrite fetch_stages. unfold run_view. rewrite Hst. cbv zeta. cbn [fst].
      fold take. rewrite Hc, payload_stage_ok by (try assumption; lia).
      rewrite Hrecs. reflexivity. }
    split; [exact Hd|]. split; [exact Ht|]. split; [exact Hrun|]. split; [exact Hrecs|].
    split.
    { intros i r Hnth. rewrite Hbody. apply record_bits_encoded; try assumption. lia. }
    split.
    { rewrite <- Hrecs. apply Forall_forall. intros row Hin. apply in_map_iff in Hin.
      destruct Hin as (i & <- & Hi). apply in_seq in Hi.
      apply record_at_length; [lia|]. nia. }
    split.
    { intros Hk Hreq.
      assert (Etake : Z.to_nat take = length recs).
      { unfold take, take_count, len in *. lia. }
      rewrite Etake, firstn_all in Hrun. split; [exact Hrun|].
      unfold len in *. rewrite length_map. lia. }
    split; [exact f32_of_bits_inj|exact f32_nan_iff].
Qed.

(** C6, counterexample: a synthetic buffer made of a header that
    [parse_aqed_header] accepts, with only bit 1 set and [dAqea = 2], followed
    by two records of two float32 values; decoding it does not give the two
    vectors back, the call raises after the header request. *)
Lemma alternate_only_buffer_not_decoded :
  let hdr := slice_to 64 small_alternate_file in
  small_alternate_file = synthetic_header 1 2 2 2 2 ++ encode_records small_records /\
  Forall (fun r => len r = 2 /\ Forall word32 r) small_records /\
  parse_aqed_header hdr = Ok (64, 2, 2, 2) /\
  effective_dim (hdr_d_orig hdr) (hdr_d_aqea hdr) (hdr_flags hdr) = hdr_d_aqea hdr /\
  hdr_d_aqea hdr = 2 /\
  fetch_aqed_sample_vectors (serve_whole 200 small_alternate_file) "u" 2 timeout20 [] =
    (Raise (ValueError NoOriginalSection), [header_request "u" timeout20]) /\
  fst (fetch_aqed_sample_vectors (serve_whole 200 small_alternate_file) "u" 2 timeout20 [])
    <> Ok (2, map (map f32_of_bits) small_records).
Proof.
  cbv zeta. split; [reflexivity|]. split.
  { unfold small_records, word32. repeat constructor; cbn; lia. }
  repeat split; try (vm_compute; reflexivity).
  vm_compute. discriminate.
Qed.

(** C6, the amended statement at [small_file]; the second record ends with
    the smallest subnormal, and two NaN patterns that differ decode alike. *)
Lemma decode_round_trip_witness :
  let run := fetch_aqed_sample_vectors (serve_whole 200 small_file) "u" 2 timeout20 [] in
  basic_valid (slice_to 64 small_file) /\
  Z.testbit (hdr_flags (slice_to 64 small_file)) 0 = true /\
  fst run = Ok (2, map (map f32_of_bits) small_records) /\
  fst run = Ok (2, [[S754_finite false 8388608 (-23); S754_zero false];
                    [S754_finite false 8388608 (-22); S754_finite false 1 (-149)]]) /\
  f32_of_bits 0x7fc00000 = f32_of_bits 0x7fc00001.
Proof.
  intros run.
  assert (Hv : basic_valid (slice_to 64 small_file))
    by (unfold basic_valid; repeat split; vm_compute; reflexivity).
  assert (E0 : Z.testbit (hdr_flags (slice_to 64 small_file)) 0 = true)
    by (vm_compute; reflexivity).
  assert (Hall : Forall (fun r => len r = 2 /\ Forall word32 r) small_records).
  { unfold small_records, word32. repeat constructor; cbn; lia. }
  destruct (decode_round_trip (serve_whole 200 small_file) "u" 2 timeout20 []
              (mkHttpResult 200 [] small_file)
              (mkHttpResult 200 [] small_file) (synthetic_header 1 2 2 0 1) small_records []
              eq_refl eq_refl ltac:(vm_compute; discriminate) Hv) as [_ Hset].
  destruct (Hset E0 eq_refl eq_refl ltac:(rewrite app_nil_r; reflexivity) eq_refl Hall
              ltac:(vm_compute; discriminate))
    as (_ & _ & _ & _ & _ & _ & Hfull & _ & Hnan).
  destruct (Hfull eq_refl ltac:(vm_compute; discriminate)) as [Hrun _].
  split; [exact Hv|]. split; [exact E0|]. split; [exact Hrun|]. split; [exact Hrun|].
  destruct (Hnan 0x7fc00000) as [_ H1]. destruct (Hnan 0x7fc00001) as [_ H2].
  rewrite H1, H2;
    [reflexivity|split; vm_compute; [reflexivity|discriminate]..].
Defined.

(** ** C7: Transport results *)

(** C7: whatever status and body the server sent, delivered as a response or
    raised as [HTTPError], [http_request] returns them, for any requested
    range and any body length. *)
Theorem transport_result_guarantee urlopen method url headers data_in timeout_s log s data :
  let req := build_request method url headers data_in timeout_s in
  (exists hs, urlopen log req = Responded s hs data) \/
  (exists hs, urlopen log req = RaisedHTTPError s hs (Some data)) ->
  exists r,
    http_request urlopen method url headers data_in timeout_s log = (Ok r, log ++ [req]) /\
    status r = s /\ body r = data.
Proof.
  intros req [[hs H]|[hs H]]; unfold http_request; fold req; rewrite H;
    cbn [result_of_outcome]; eexists; repeat split.
Qed.

(** C7 at a full-content 200 answer to a four-byte range, and at a 404. *)
Lemma transport_result_guarantee_witness :
  (exists r,
     http_request (serve_whole 200 original_file) "get" "u" (range_header "bytes=0-3") None
       timeout20 [] = (Ok r, [build_request "GET" "u" (range_header "bytes=0-3") None timeout20])
     /\ status r = 200 /\ body r = original_file) /\
  (exists r,
     http_request (serve_error 404 magic) "GET" "u" (range_header "bytes=0-63") None
       timeout20 [] = (Ok r, [header_request "u" timeout20])
     /\ status r = 404 /\ body r = magic).
Proof.
  split.
  - apply (transport_result_guarantee (serve_whole 200 original_file) "get" "u"
             (range_header "bytes=0-3") None timeout20 [] 200 original_file).
    left. exists []. reflexivity.
  - apply (transport_result_guarantee (serve_error 404 magic) "GET" "u"
             (range_header "bytes=0-63") None timeout20 [] 404 magic).
    right. exists (Some []). reflexivity.
Defined.

(** ** C8: Round trips *)

(** C8 (as amended): a call issues the header request [0, 63] and then, only
    when the header stage accepted the header, one payload request whose
    range is computed from that header; when the header stage fails the
    header request is the only one.  No call issues more than two. *)
Theorem two_round_trips urlopen url n_vectors timeout_s log :
  let run := fetch_aqed_sample_vectors urlopen url n_vectors timeout_s log in
  (exists e,
     header_stage (head_result urlopen url timeout_s log) = Raise e /\
     fst run = Raise e /\
     snd run = log ++ [header_request url timeout_s]) \/
  (exists n d f,
     header_stage (head_result urlopen url timeout_s log) = Ok (n, d, f) /\
     snd run = log ++ [header_request url timeout_s;
                       payload_request url timeout_s
                         (64 + take_count n_vectors n * d * 4 - 1)]).
Proof.
  intros run.
  assert (Hrun : run = run_view urlopen url n_vectors timeout_s log) by apply fetch_stages.
  unfold run_view in Hrun.
  destruct (header_stage (head_result urlopen url timeout_s log)) as [[[n d] f]|e].
  - right. exists n, d, f. split; [reflexivity|].
    rewrite Hrun. cbn [snd]. rewrite <- app_assoc. reflexivity.
  - left. exists e. rewrite Hrun. repeat split.
Qed.

(** C8, counterexample: a 404 on the header request ends the call after one
    request. *)
Lemma header_failure_issues_one_request :
  let run := fetch_aqed_sample_vectors (serve_error 404 []) "u" 8 timeout20 [] in
  fst run = Raise (ValueError (HeaderFetchFailed 404)) /\
  snd run = [header_request "u" timeout20] /\
  length (snd run) <> 2%nat.
Proof.
  cbv zeta. split; [vm_compute; reflexivity|]. split; [vm_compute; reflexivity|].
  vm_compute. discriminate.
Qed.

(** ** C9: Prefix determinism *)

(** C9: two runs whose header outcomes agree on the status and the first 64
    bytes, and whose payload outcomes agree on the status and the first
    [payloadEnd + 1] bytes, return the same result. *)
Theorem prefix_determinism urlopen1 urlopen2 url1 url2 t1 t2 log1 log2 n_vectors :
  agree_upto 64 (head_result urlopen1 url1 t1 log1) (head_result urlopen2 url2 t2 log2) ->
  (forall n d f,
     header_stage (head_result urlopen1 url1 t1 log1) = Ok (n, d, f) ->
     let payload_end := 64 + take_count n_vectors n * d * 4 - 1 in
     agree_upto (payload_end + 1)
       (chunk_result urlopen1 url1 t1 log1 payload_end)
       (chunk_result urlopen2 url2 t2 log2 payload_end)) ->
  fst (fetch_aqed_sample_vectors urlopen1 url1 n_vectors t1 log1) =
  fst (fetch_aqed_sample_vectors urlopen2 url2 n_vectors t2 log2).
Proof.
  intros Hhead Hchunk. rewrite !fetch_stages. unfold run_view.
  rewrite <- (header_stage_agree _ _ Hhead).
  destruct (header_stage (head_result urlopen1 url1 t1 log1)) as [[[n d] f]|e] eqn:Hst;
    [|reflexivity].
  cbv zeta. cbn [fst].
  destruct (header_stage_ok _ _ _ _ Hst) as (head & _ & _ & _ & (_ & _ & Hn & Hd) & En & Ed & _).
  rewrite <- En in Hn. rewrite <- Ed in Hd.
  pose proof (take_count_pos n_vectors n ltac:(lia)).
  apply payload_stage_agree; [lia|lia|].
  specialize (Hchunk n d f eq_refl). cbv zeta in Hchunk.
  replace (64 + take_count n_vectors n * d * 4 - 1 + 1)
    with (64 + take_count n_vectors n * d * 4) in Hchunk by lia.
  exact Hchunk.
Qed.

(** C9 at a server that sends the whole file and one that sends exactly the
    requested prefixes. *)
Lemma prefix_determinism_witness :
  fst (fetch_aqed_sample_vectors (serve_whole 200 original_file) "u" 8 timeout20 []) =
  fst (fetch_aqed_sample_vectors exact_ranges "v" 8 timeout20 []).
Proof.
  apply prefix_determinism.
  - vm_compute. split; reflexivity.
  - intros n d f H. vm_compute in H. inversion H. subst n d f.
    vm_compute. split; reflexivity.
Defined.

(** ** C10: Unsigned header fields *)

(** C10: the fields at offsets 4, 8, 12, 16 and 20 are read as unsigned
    little-endian 32-bit integers, so they lie in [0, 2^32); a top byte of
    128 or more gives a value of at least 2^31; with a good tag and version
    the header is rejected as invalid exactly when [n = 0] or [dOrig = 0],
    and any other [n] and [dOrig] are accepted. *)
Theorem unsigned_header_fields buf :
  64 <= len buf ->
  (unpack_from_I buf 4 = Ok (hdr_version buf) /\
   unpack_from_I buf 8 = Ok (hdr_n buf) /\
   unpack_from_I buf 12 = Ok (hdr_d_orig buf) /\
   unpack_from_I buf 16 = Ok (hdr_d_aqea buf) /\
   unpack_from_I buf 20 = Ok (hdr_flags buf)) /\
  (forall off, 0 <= u32_at buf off < 2 ^ 32) /\
  (forall off, 128 <= u8 (nth (off + 3) buf x00%byte) -> 2 ^ 31 <= u32_at buf off) /\
  (hdr_tag buf = magic -> hdr_version buf = 1 ->
   (parse_aqed_header buf = Raise (ValueError (InvalidHeader (hdr_n buf) (hdr_d_orig buf)))
    <-> hdr_n buf = 0 \/ hdr_d_orig buf = 0)) /\
  (hdr_tag buf = magic -> hdr_version buf = 1 ->
   hdr_n buf <> 0 -> hdr_d_orig buf <> 0 -> Z.testbit (hdr_flags buf) 0 = true ->
   parse_aqed_header buf = Ok (64, hdr_n buf, hdr_d_orig buf, hdr_flags buf)).
Proof.
  intros Hl.
  assert (Hr : forall off, 0 <= u32_at buf off < 2 ^ 32) by (intros; apply le32_range).
  split.
  { unfold hdr_version, hdr_n, hdr_d_orig, hdr_d_aqea, hdr_flags.
    change 4 with (Z.of_nat 4). change 8 with (Z.of_nat 8). change 12 with (Z.of_nat 12).
    change 16 with (Z.of_nat 16). change 20 with (Z.of_nat 20).
    repeat split; apply unpack_from_I_u32_at; simpl; lia. }
  split; [exact Hr|]. split; [intros off; apply u32_at_high_bit|].
  pose proof (Hr 8%nat) as Hn. pose proof (Hr 12%nat) as Hd.
  fold (hdr_n buf) in Hn. fold (hdr_d_orig buf) in Hd.
  rewrite parse_aqed_header_fields by assumption.
  split.
  - intros Ht Hv. unfold check_header. rewrite Ht, Hv.
    replace (bytes_eqb magic magic) with true by (symmetry; apply bytes_eqb_eq; reflexivity).
    cbn [negb Z.eqb Pos.eqb].
    destruct (Z.leb_spec (hdr_n buf) 0); cbn [orb].
    + split; [intros _; lia|reflexivity].
    + destruct (Z.leb_spec (hdr_d_orig buf) 0).
      * split; [intros _; lia|reflexivity].
      * split; [|lia]. destruct (_ <=? 0); discriminate.
  - intros Ht Hv Hn0 Hd0 E0. rewrite check_header_basic by (try assumption; lia).
    rewrite E0. reflexivity.
Qed.

(** C10 at [huge_header]. *)
Lemma unsigned_header_fields_witness :
  hdr_n huge_header = 2 ^ 31 + 5 /\
  hdr_d_orig huge_header = 2 ^ 32 - 1 /\
  parse_aqed_header huge_header = Ok (64, 2 ^ 31 + 5, 2 ^ 32 - 1, 1).
Proof.
  destruct (unsigned_header_fields huge_header ltac:(vm_compute; discriminate))
    as (_ & _ & _ & _ & Hok).
  assert (En : hdr_n huge_header = 2 ^ 31 + 5) by (vm_compute; reflexivity).
  assert (Ed : hdr_d_orig huge_header = 2 ^ 32 - 1) by (vm_compute; reflexivity).
  assert (Ef : hdr_flags huge_header = 1) by (vm_compute; reflexivity).
  split; [exact En|]. split; [exact Ed|].
  rewrite <- En, <- Ed, <- Ef at 1.
  apply Hok; try (vm_compute; reflexivity); rewrite ?En, ?Ed; vm_compute; discriminate.
Defined.

(** * Further properties of the code *)

(** ** More on [parse_aqed_header] *)

(** X1: [parse_aqed_header] accepts a buffer exactly when it has at least 64
    bytes, the magic tag, version 1, a non-zero record count and original
    dimension, and a section flag that yields a positive dimension (bit 0, or
    bit 1 with a non-zero [dAqea]); it then returns [(64, n, dOrig, flags)]. *)
Theorem parse_accepts_iff buf r :
  parse_aqed_header buf = Ok r <->
  64 <= len buf /\ hdr_tag buf = magic /\ hdr_version buf = 1 /\
  hdr_n buf <> 0 /\ hdr_d_orig buf <> 0 /\
  (Z.testbit (hdr_flags buf) 0 = true \/
   (Z.testbit (hdr_flags buf) 1 = true /\ hdr_d_aqea buf <> 0)) /\
  r = (64, hdr_n buf, hdr_d_orig buf, hdr_flags buf).
Proof.
  pose proof (le32_range (nth 8 buf x00%byte) (nth 9 buf x00%byte)
                (nth 10 buf x00%byte) (nth 11 buf x00%byte)) as Hn.
  pose proof (le32_range (nth 12 buf x00%byte) (nth 13 buf x00%byte)
                (nth 14 buf x00%byte) (nth 15 buf x00%byte)) as Hd.
  pose proof (le32_range (nth 16 buf x00%byte) (nth 17 buf x00%byte)
                (nth 18 buf x00%byte) (nth 19 buf x00%byte)) as Ha.
  change (0 <= hdr_n buf < 2 ^ 32) in Hn. change (0 <= hdr_d_orig buf < 2 ^ 32) in Hd.
  change (0 <= hdr_d_aqea buf < 2 ^ 32) in Ha.
  destruct (Z.ltb_spec (len buf) 64) as [Hlt|Hge].
  - split.
    + unfold parse_aqed_header. destruct (Z.ltb_spec (len buf) 64); [discriminate|lia].
    + intros (H & _). lia.
  - rewrite parse_aqed_header_fields by assumption. split.
    + intros H. destruct r as [[[hs n] d] f].
      apply check_header_ok in H.
      destruct H as (Ht & Hv & Hn0 & Hd0 & He & -> & -> & -> & ->).
      rewrite effective_dim_bits in He.
      repeat split; try assumption; try lia.
      destruct (Z.testbit (hdr_flags buf) 0); [left; reflexivity|].
      destruct (Z.testbit (hdr_flags buf) 1); [right; split; [reflexivity|lia]|lia].
    + intros (_ & Ht & Hv & Hn0 & Hd0 & Hf & ->).
      rewrite check_header_basic by (try assumption; lia).
      destruct Hf as [E0|[E1 Ha0]].
      * rewrite E0. reflexivity.
      * rewrite E1. destruct (Z.testbit (hdr_flags buf) 0); [reflexivity|].
        destruct (Z.ltb_spec 0 (hdr_d_aqea buf)); [reflexivity|lia].
Qed.

Lemma nth_firstn_lt {A} (d : A) : forall (l : list A) k m,
  (k < m)%nat -> nth k (firstn m l) d = nth k l d.
Proof.
  induction l as [|a l IH]; intros k m H.
  - rewrite firstn_nil. reflexivity.
  - destruct m as [|m]; [lia|]. destruct k as [|k]; [reflexivity|].
    cbn [firstn nth]. apply IH. lia.
Qed.

Lemma u32_at_firstn buf off m :
  (off + 4 <= m)%nat -> u32_at (firstn m buf) off = u32_at buf off.
Proof.
  intros H. unfold u32_at. rewrite !nth_firstn_lt by lia. reflexivity.
Qed.

Lemma hdr_tag_firstn buf m : (4 <= m)%nat -> hdr_tag (firstn m buf) = hdr_tag buf.
Proof.
  intros H. unfold hdr_tag, slice_to. rewrite firstn_firstn.
  replace (Nat.min (Z.to_nat 4) m) with (Z.to_nat 4) by lia. reflexivity.
Qed.

(** X2: on buffers of at least 64 bytes the result of [parse_aqed_header]
    depends on the first 24 bytes only; the reserved bytes and anything after
    the header are ignored. *)
Theorem parse_reads_24_bytes b1 b2 :
  64 <= len b1 -> 64 <= len b2 ->
  firstn 24 b1 = firstn 24 b2 ->
  parse_aqed_header b1 = parse_aqed_header b2.
Proof.
  intros H1 H2 E. rewrite !parse_aqed_header_fields by assumption.
  unfold hdr_version, hdr_n, hdr_d_orig, hdr_d_aqea, hdr_flags.
  rewrite <- (hdr_tag_firstn b1 24), <- (hdr_tag_firstn b2 24) by lia.
  rewrite <- (u32_at_firstn b1 4 24), <- (u32_at_firstn b2 4 24) by lia.
  rewrite <- (u32_at_firstn b1 8 24), <- (u32_at_firstn b2 8 24) by lia.
  rewrite <- (u32_at_firstn b1 12 24), <- (u32_at_firstn b2 12 24) by lia.
  rewrite <- (u32_at_firstn b1 16 24), <- (u32_at_firstn b2 16 24) by lia.
  rewrite <- (u32_at_firstn b1 20 24), <- (u32_at_firstn b2 20 24) by lia.
  rewrite E. reflexivity.
Qed.

(** X2 at a header whose reserved bytes are all set. *)
Lemma parse_reads_24_bytes_witness :
  parse_aqed_header reserved_set_header = parse_aqed_header original_file /\
  parse_aqed_header reserved_set_header = Ok (64, 100, 8, 1) /\
  firstn 64 reserved_set_header <> firstn 64 original_file.
Proof.
  split; [|split].
  - apply parse_reads_24_bytes; vm_compute; try reflexivity; discriminate.
  - vm_compute. reflexivity.
  - vm_compute. discriminate.
Defined.

(** ** The response headers of [http_request] *)

Lemma dict_get_set_same k v : forall d, dict_get k (dict_set k v d) = Some v.
Proof.
  induction d as [|[k' v'] d IH]; cbn [dict_set dict_get].
  - rewrite String.eqb_refl. reflexivity.
  - destruct (String.eqb k' k) eqn:E; cbn [dict_get]; rewrite E; [reflexivity|exact IH].
Qed.

Lemma dict_get_set_other k k' v : k' <> k ->
  forall d, dict_get k' (dict_set k v d) = dict_get k' d.
Proof.
  intros Hne. induction d as [|[k0 v0] d IH]; cbn [dict_set dict_get].
  - destruct (String.eqb_spec k k'); [congruence|reflexivity].
  - destruct (String.eqb_spec k0 k) as [->|H0]; cbn [dict_get].
    + destruct (String.eqb_spec k k'); [congruence|reflexivity].
    + destruct (String.eqb k0 k'); [reflexivity|exact IH].
Qed.

Lemma dict_set_keys k v : forall d,
  map fst (dict_set k v d) = if in_dec string_dec k (map fst d) then map fst d
                             else map fst d ++ [k].
Proof.
  induction d as [|[k0 v0] d IH]; [reflexivity|].
  cbn [dict_set]. destruct (String.eqb_spec k0 k) as [->|Hne].
  - cbn [map fst]. destruct (in_dec string_dec k (k :: map fst d)) as [_|Hn];
      [reflexivity|]. exfalso. apply Hn. left. reflexivity.
  - cbn [map fst]. rewrite IH.
    destruct (in_dec string_dec k (map fst d)) as [Hi|Hn],
             (in_dec string_dec k (k0 :: map fst d)) as [Hi'|Hn']; try reflexivity.
    + exfalso. apply Hn'. right. exact Hi.
    + exfalso. destruct Hi' as [E|Hi']; [congruence|contradiction].
Qed.

Lemma dict_set_nodup k v d : NoDup (map fst d) -> NoDup (map fst (dict_set k v d)).
Proof.
  intros H. rewrite dict_set_keys.
  destruct (in_dec string_dec k (map fst d)) as [_|Hn]; [exact H|].
  apply NoDup_app; [exact H|repeat constructor; intros []|].
  intros x Hx [<-|[]]. contradiction.
Qed.

Lemma ascii_lower_idem c : ascii_lower (ascii_lower c) = ascii_lower c.
Proof. destruct c as [[] [] [] [] [] [] [] []]; reflexivity. Qed.

Lemma lower_idem s : lower (lower s) = lower s.
Proof.
  unfold lower. induction s as [|c s IH]; [reflexivity|].
  cbn [str_map]. rewrite ascii_lower_idem, IH. reflexivity.
Qed.

Lemma lower_keys_snoc items k v :
  lower_keys (items ++ [(k, v)]) = dict_set (lower k) v (lower_keys items).
Proof. unfold lower_keys. rewrite fold_left_app. reflexivity. Qed.

Lemma lower_keys_invariant items :
  NoDup (map fst (lower_keys items)) /\
  (forall k, In k (map fst (lower_keys items)) -> lower k = k).
Proof.
  induction items as [|[k v] items IH] using rev_ind.
  - split; [constructor|intros k []].
  - rewrite lower_keys_snoc. destruct IH as [Hnd Hlow]. split.
    + apply dict_set_nodup. exact Hnd.
    + intros k0. rewrite dict_set_keys.
      destruct (in_dec string_dec (lower k) (map fst (lower_keys items))); [apply Hlow|].
      intros Hin. apply in_app_or in Hin. destruct Hin as [Hin|[<-|[]]];
        [apply Hlow; exact Hin|apply lower_idem].
Qed.

Lemma lower_keys_last pre k v : forall post,
  (forall kv, In kv post -> lower (fst kv) <> lower k) ->
  dict_get (lower k) (lower_keys (pre ++ (k, v) :: post)) = Some v.
Proof.
  induction post as [|[k1 v1] post IH] using rev_ind; intros H.
  - rewrite lower_keys_snoc. apply dict_get_set_same.
  - replace (pre ++ (k, v) :: post ++ [(k1, v1)])
      with ((pre ++ (k, v) :: post) ++ [(k1, v1)]) by (rewrite <- app_assoc; reflexivity).
    rewrite lower_keys_snoc, dict_get_set_other.
    + apply IH. intros kv Hin. apply H. apply in_or_app. left. exact Hin.
    + intros E. apply (H (k1, v1)); [apply in_or_app; right; left; reflexivity|].
      symmetry. exact E.
Qed.

Lemma dict_get_absent key : forall d, ~ In key (map fst d) -> dict_get key d = None.
Proof.
  induction d as [|[k v] d IH]; intros H; [reflexivity|].
  cbn [dict_get]. destruct (String.eqb_spec k key) as [->|Hne].
  - exfalso. apply H. left. reflexivity.
  - apply IH. intros Hin. apply H. right. exact Hin.
Qed.

(** X3: the headers of the result of [http_request] have pairwise distinct,
    lower-case names; looking a name up in lower case gives the value of the
    last response header with that name in any letter case; a name with an
    upper-case letter is never found. *)
Theorem response_headers_normalised urlopen method url hdrs data_in timeout_s log s hs data :
  urlopen log (build_request method url hdrs data_in timeout_s) = Responded s hs data ->
  exists r,
    fst (http_request urlopen method url hdrs data_in timeout_s log) = Ok r /\
    NoDup (map fst (headers r)) /\
    (forall k, In k (map fst (headers r)) -> lower k = k) /\
    (forall pre k v post,
       hs = pre ++ (k, v) :: post ->
       (forall kv, In kv post -> lower (fst kv) <> lower k) ->
       dict_get (lower k) (headers r) = Some v) /\
    (forall key, lower key <> key -> dict_get key (headers r) = None).
Proof.
  intros H. unfold http_request. rewrite H. cbn [fst result_of_outcome].
  eexists. split; [reflexivity|]. cbn [headers].
  destruct (lower_keys_invariant hs) as [Hnd Hlow].
  split; [exact Hnd|]. split; [exact Hlow|]. split.
  - intros pre k v post -> Hpost. apply lower_keys_last. exact Hpost.
  - intros key Hne. apply dict_get_absent. intros Hin. apply Hne. apply Hlow. exact Hin.
Qed.

(** X3 at a response that sends [Content-Type] twice. *)
Lemma response_headers_normalised_witness :
  exists r,
    fst (http_request
           (fun _ _ => Responded 200 [("Content-Type", "a"); ("ETag", "x"); ("content-type", "b")]%string [])
           "GET" "u" None None timeout20 []) = Ok r /\
    dict_get "content-type" (headers r) = Some "b"%string /\
    dict_get "Content-Type" (headers r) = None /\
    dict_get "etag" (headers r) = Some "x"%string.
Proof.
  destruct (response_headers_normalised
              (fun _ _ => Responded 200 [("Content-Type", "a"); ("ETag", "x"); ("content-type", "b")]%string [])
              "GET" "u" None None timeout20 [] 200 _ [] eq_refl)
    as (r & Hr & _ & _ & Hlast & Hmiss).
  exists r. split; [exact Hr|]. split; [|split].
  - apply (Hlast [("Content-Type", "a"); ("ETag", "x")]%string "content-type"%string "b"%string []);
      [reflexivity|intros kv []].
  - apply Hmiss. vm_compute. discriminate.
  - apply (Hlast [("Content-Type", "a")]%string "ETag"%string "x"%string [("content-type", "b")]%string);
      [reflexivity|].
    intros kv [<-|[]]. vm_compute. discriminate.
Defined.

(** ** More on [fetch_aqed_sample_vectors] *)

Lemma check_header_errors tag v n d da f e :
  check_header tag v n d da f = Raise e ->
  exists m, e = ValueError m /\ m <> HeaderNeeds64 /\ error_kind e = Some FormatError.
Proof.
  unfold check_header. intros H.
  repeat match type of H with
         | (if ?c then _ else _) = _ => destruct c
         end; inversion H; eexists; repeat split; discriminate.
Qed.

Lemma header_stage_value_error head e :
  header_stage (Ok head) = Raise e ->
  exists m, e = ValueError m /\ m <> HeaderNeeds64 /\
    (error_kind e = Some FetchError \/ error_kind e = Some FormatError).
Proof.
  cbn [header_stage]. intros H.
  destruct (status_ok (status head)) eqn:Es; cbn [negb] in H.
  2:{ inversion H. eexists. repeat split; [discriminate|left; reflexivity]. }
  destruct (Z.ltb_spec (len (body head)) 64).
  { inversion H. eexists. repeat split; [discriminate|left; reflexivity]. }
  rewrite parse_aqed_header_fields in H by (rewrite slice_to_len; lia).
  destruct (check_header _ _ _ _ _ _) as [[[[hs n] d] f]|e'] eqn:Ec.
  - destruct (Z.land f FLAG_HAS_ORIGINAL =? 0); [|discriminate].
    inversion H. eexists. repeat split; [discriminate|right; reflexivity].
  - inversion H. subst e'. apply check_header_errors in Ec.
    destruct Ec as (m & -> & Hm & Hk). exists m. repeat split; [exact Hm|right; exact Hk].
Qed.

Lemma payload_stage_value_error take d chunk e :
  0 <= take -> 0 <= d ->
  payload_stage take d (64 + take * d * 4) (Ok chunk) = Raise e ->
  exists m, e = ValueError m /\ m <> HeaderNeeds64 /\ error_kind e = Some FetchError.
Proof.
  intros Ht Hd H. unfold payload_stage in H.
  destruct (status_ok (status chunk)); cbn [negb] in H.
  - destruct (Z.ltb_spec (len (body chunk)) (64 + take * d * 4)).
    + inversion H. eexists. repeat split. discriminate.
    + rewrite decode_loop_records in H; [discriminate|assumption|].
      rewrite Z2Nat.id by assumption. lia.
  - inversion H. eexists. repeat split. discriminate.
Qed.

Lemma result_of_outcome_transport o e :
  result_of_outcome o = Raise e <-> exists c, o = RaisedOther c /\ e = TransportFailure c.
Proof.
  split.
  - destruct o; cbn [result_of_outcome]; intros H; inversion H. eexists. split; reflexivity.
  - intros (c & -> & ->). reflexivity.
Qed.

Lemma header_stage_positive r n d f :
  header_stage r = Ok (n, d, f) -> 1 <= n < 2 ^ 32 /\ 1 <= d < 2 ^ 32.
Proof.
  intros H. destruct (header_stage_ok _ _ _ _ H)
    as (head & _ & _ & _ & (_ & _ & Hn & Hd) & -> & -> & _).
  pose proof (le32_range (nth 8 (slice_to 64 (body head)) x00%byte)
    (nth 9 (slice_to 64 (body head)) x00%byte) (nth 10 (slice_to 64 (body head)) x00%byte)
    (nth 11 (slice_to 64 (body head)) x00%byte)) as Rn.
  pose proof (le32_range (nth 12 (slice_to 64 (body head)) x00%byte)
    (nth 13 (slice_to 64 (body head)) x00%byte) (nth 14 (slice_to 64 (body head)) x00%byte)
    (nth 15 (slice_to 64 (body head)) x00%byte)) as Rd.
  change (0 <= hdr_n (slice_to 64 (body head)) < 2 ^ 32) in Rn.
  change (0 <= hdr_d_orig (slice_to 64 (body head)) < 2 ^ 32) in Rd.
  lia.
Qed.

(** X4: every exception of the sampling call is a fetch, format or transport
    error; [struct.error] (a read past the buffer) never occurs, nor the
    parser's own too-short-buffer error. *)
Theorem sampling_failures_classified urlopen url n_vectors timeout_s log e :
  fst (fetch_aqed_sample_vectors urlopen url n_vectors timeout_s log) = Raise e ->
  (error_kind e = Some FetchError \/ error_kind e = Some FormatError \/
   error_kind e = Some TransportError) /\
  e <> StructError /\ e <> ValueError HeaderNeeds64.
Proof.
  rewrite fetch_stages. unfold run_view, head_result, chunk_result.
  destruct (result_of_outcome (urlopen log (header_request url timeout_s))) as [head|e0] eqn:Eh.
  - destruct (header_stage (Ok head)) as [[[n d] f]|e1] eqn:Hst.
    + cbv zeta. cbn [fst]. intros H.
      destruct (header_stage_positive _ _ _ _ Hst) as [Hn Hd].
      pose proof (take_count_pos n_vectors n ltac:(lia)) as Ht.
      destruct (result_of_outcome (urlopen _ (payload_request _ _ _))) as [chunk|e2] eqn:Ec.
      * apply payload_stage_value_error in H; [|lia|lia].
        destruct H as (m & -> & Hm & Hk). repeat split; [tauto|discriminate|congruence].
      * cbn [payload_stage] in H. inversion H. subst e2.
        apply result_of_outcome_transport in Ec. destruct Ec as (c & _ & ->).
        repeat split; [right; right; reflexivity|discriminate|discriminate].
    + cbn [fst]. intros H. inversion H. subst e1.
      apply header_stage_value_error in Hst. destruct Hst as (m & -> & Hm & Hk).
      repeat split; [tauto|discriminate|congruence].
  - cbn [header_stage fst]. intros H. inversion H. subst e0.
    apply result_of_outcome_transport in Eh. destruct Eh as (c & _ & ->).
    repeat split; [right; right; reflexivity|discriminate|discriminate].
Qed.

(** X4 at a truncated payload. *)
Lemma sampling_failures_classified_witness :
  fst (fetch_aqed_sample_vectors (serve_truncated 206 original_file 100) "u" 8 timeout20 [])
    = Raise (ValueError (RangeTruncated 320 100)) /\
  error_kind (ValueError (RangeTruncated 320 100)) = Some FetchError /\
  ValueError (RangeTruncated 320 100) <> StructError.
Proof.
  assert (H : fst (fetch_aqed_sample_vectors (serve_truncated 206 original_file 100) "u" 8
                     timeout20 []) = Raise (ValueError (RangeTruncated 320 100)))
    by (vm_compute; reflexivity).
  destruct (sampling_failures_classified _ _ _ _ _ _ H) as (_ & Hs & _).
  split; [exact H|]. split; [reflexivity|exact Hs].
Defined.


(** X6: after an accepted header the payload request ends at a byte offset of
    at least 67, below the end of the data the header declares
    ([64 + n * dOrig * 4]) and below what the requested count needs. *)
Theorem payload_range_bounds urlopen url n_vectors timeout_s log n d f :
  header_stage (head_result urlopen url timeout_s log) = Ok (n, d, f) ->
  let payload_end := 64 + take_count n_vectors n * d * 4 - 1 in
  snd (fetch_aqed_sample_vectors urlopen url n_vectors timeout_s log)
    = log ++ [header_request url timeout_s; payload_request url timeout_s payload_end] /\
  67 <= payload_end /\
  payload_end < 64 + n * d * 4 /\
  payload_end < 64 + Z.max 1 n_vectors * d * 4 /\
  payload_end < 2 ^ 66 + 64.
Proof.
  intros Hst payload_end.
  destruct (header_stage_positive _ _ _ _ Hst) as [Hn Hd].
  split.
  - rewrite fetch_stages. unfold run_view. rewrite Hst. cbv zeta. cbn [snd].
    rewrite <- app_assoc. reflexivity.
  - unfold payload_end, take_count.
    assert (1 <= Z.min (Z.max 1 n_vectors) n <= n) by lia.
    assert (Z.min (Z.max 1 n_vectors) n <= Z.max 1 n_vectors) by lia.
    change (2 ^ 66) with (2 ^ 32 * 2 ^ 32 * 4). change (2 ^ 32) with 4294967296 in *.
    repeat split; nia.
Qed.

(** X6 at a request for 1000 records of a file that declares 2. *)
Lemma payload_range_bounds_witness :
  snd (fetch_aqed_sample_vectors (serve_whole 200 small_file) "u" 1000 timeout20 [])
    = [header_request "u" timeout20; payload_request "u" timeout20 79] /\
  79 < 64 + 2 * 2 * 4.
Proof.
  destruct (payload_range_bounds (serve_whole 200 small_file) "u" 1000 timeout20 [] 2 2 1
              ltac:(vm_compute; reflexivity)) as (Hlog & _ & Hn & _).
  split; [exact Hlog|exact Hn].
Defined.

Lemma take_count_max nv n : take_count (Z.max 1 nv) n = take_count nv n.
Proof. unfold take_count. lia. Qed.

Lemma take_count_idem nv n : 1 <= n -> take_count (take_count nv n) n = take_count nv n.
Proof. unfold take_count. lia. Qed.

Lemma run_view_take urlopen url nv nv' t log :
  (forall n d f, header_stage (head_result urlopen url t log) = Ok (n, d, f) ->
                 take_count nv n = take_count nv' n) ->
  run_view urlopen url nv t log = run_view urlopen url nv' t log.
Proof.
  intros H. unfold run_view.
  destruct (header_stage (head_result urlopen url t log)) as [[[n d] f]|e]; [|reflexivity].
  rewrite (H n d f eq_refl). reflexivity.
Qed.

(** X7: a whole run (result and requests) is the same for a requested count
    and for that count raised to 1; after an accepted header that declares
    [n] records it is the same as for [min(count, n)]; any two counts not
    above 1 give the same run. *)
Theorem sampling_clamps_request urlopen url n_vectors timeout_s log :
  fetch_aqed_sample_vectors urlopen url n_vectors timeout_s log
    = fetch_aqed_sample_vectors urlopen url (Z.max 1 n_vectors) timeout_s log /\
  (forall n d f,
     header_stage (head_result urlopen url timeout_s log) = Ok (n, d, f) ->
     fetch_aqed_sample_vectors urlopen url n_vectors timeout_s log
       = fetch_aqed_sample_vectors urlopen url (Z.min n_vectors n) timeout_s log) /\
  (forall n_vectors', n_vectors <= 1 -> n_vectors' <= 1 ->
     fetch_aqed_sample_vectors urlopen url n_vectors timeout_s log
       = fetch_aqed_sample_vectors urlopen url n_vectors' timeout_s log).
Proof.
  split; [|split].
  - rewrite !fetch_stages. apply run_view_take. intros n d f _.
    symmetry. apply take_count_max.
  - intros n d f Hst. rewrite !fetch_stages. apply run_view_take.
    intros n' d' f' H'. rewrite Hst in H'. inversion H'. subst n' d' f'.
    destruct (header_stage_positive _ _ _ _ Hst) as [Hn _].
    unfold take_count. lia.
  - intros nv' H1 H2. rewrite !fetch_stages. apply run_view_take.
    intros n d f _. unfold take_count. lia.
Qed.

Lemma firstn_length_ge {A} k (l : list A) : (length (firstn k l) <= length l)%nat.
Proof. rewrite length_firstn. lia. Qed.

Lemma record_at_firstn d content k i :
  0 <= d ->
  64 + (Z.of_nat i + 1) * (d * 4) <= len (firstn k content) ->
  record_at d (firstn k content) i = record_at d content i.
Proof.
  intros Hd H.
  assert (Hk : firstn k content = slice_to (len (firstn k content)) content).
  { unfold slice_to, len. rewrite Nat2Z.id, length_firstn.
    destruct (Nat.le_ge_cases k (length content)) as [Hle|Hge].
    - rewrite Nat.min_l by exact Hle. reflexivity.
    - rewrite Nat.min_r by exact Hge. rewrite !firstn_all2 by lia. reflexivity. }
  rewrite Hk at 1. apply record_at_prefix; [exact Hd|apply len_nonneg|exact H].
Qed.

Lemma firstn_seq_le : forall a b start,
  (a <= b)%nat -> firstn a (seq start b) = seq start a.
Proof.
  induction a as [|a IH]; intros b start H; [reflexivity|].
  destruct b as [|b]; [lia|]. cbn [seq firstn]. rewrite IH by lia. reflexivity.
Qed.

Lemma map_seq_firstn {A} (g : nat -> A) a b :
  (a <= b)%nat -> map g (seq 0 a) = firstn a (map g (seq 0 b)).
Proof.
  intros H. rewrite firstn_map, firstn_seq_le by exact H. reflexivity.
Qed.

Lemma run_ok_inv urlopen url nv t log dim vs :
  fst (fetch_aqed_sample_vectors urlopen url nv t log) = Ok (dim, vs) ->
  exists n f chunk,
    header_stage (head_result urlopen url t log) = Ok (n, dim, f) /\
    chunk_result urlopen url t log (64 + take_count nv n * dim * 4 - 1) = Ok chunk /\
    status_ok (status chunk) = true /\
    64 + take_count nv n * dim * 4 <= len (body chunk) /\
    vs = map (record_at dim (body chunk)) (seq 0 (Z.to_nat (take_count nv n))).
Proof.
  rewrite fetch_stages. unfold run_view.
  destruct (header_stage (head_result urlopen url t log)) as [[[n d] f]|e] eqn:Hst;
    [|discriminate].
  cbv zeta. cbn [fst]. intros Hok.
  destruct (header_stage_positive _ _ _ _ Hst) as [Hn Hd].
  pose proof (take_count_pos nv n ltac:(lia)) as Ht.
  apply payload_stage_shape in Hok; [|lia|lia|reflexivity].
  destruct Hok as (chunk & Hc & Hcs & Hcl & -> & Hvs & _).
  exists n, f, chunk. repeat split; assumption.
Qed.

Lemma prefix_server_run content urlopen url nv t log dim vs :
  prefix_server content urlopen ->
  fst (fetch_aqed_sample_vectors urlopen url nv t log) = Ok (dim, vs) ->
  64 <= len content /\
  0 < hdr_n (slice_to 64 content) /\
  dim = hdr_d_orig (slice_to 64 content) /\
  vs = map (record_at dim content)
           (seq 0 (Z.to_nat (take_count nv (hdr_n (slice_to 64 content))))).
Proof.
  intros Hsrv Hok.
  destruct (run_ok_inv _ _ _ _ _ _ _ Hok) as (n & f & chunk & Hst & Hc & Hcs & Hcl & Hvs).
  destruct (header_stage_positive _ _ _ _ Hst) as [_ Hd].
  destruct (header_stage_ok _ _ _ _ Hst)
    as (head & Hh & _ & Hl & (_ & _ & Hn & _) & En & Ed & _).
  unfold head_result in Hh. unfold chunk_result in Hc.
  destruct (Hsrv log (header_request url t)) as (s1 & hs1 & k1 & E1).
  rewrite E1 in Hh. cbn [result_of_outcome] in Hh. inversion Hh. subst head.
  cbn [body] in *.
  destruct (Hsrv (log ++ [header_request url t])
              (payload_request url t (64 + take_count nv n * dim * 4 - 1)))
    as (s2 & hs2 & k2 & E2).
  rewrite E2 in Hc. cbn [result_of_outcome] in Hc. inversion Hc. subst chunk.
  cbn [body] in *.
  assert (Hpre : slice_to 64 (firstn k1 content) = slice_to 64 content).
  { unfold slice_to, len in *. rewrite length_firstn in Hl. rewrite firstn_firstn.
    replace (Nat.min (Z.to_nat 64) k1) with (Z.to_nat 64) by lia. reflexivity. }
  rewrite Hpre in *.
  assert (Hlc : 64 <= len content).
  { unfold len in *. pose proof (firstn_length_ge k1 content). lia. }
  split; [exact Hlc|]. split; [exact Hn|]. split; [exact Ed|].
  subst n. rewrite Hvs. apply map_ext_in. intros i Hi. apply in_seq in Hi.
  pose proof (take_count_pos nv (hdr_n (slice_to 64 content)) ltac:(lia)).
  apply record_at_firstn; [lia|]. nia.
Qed.

(** X8: against servers whose every answer is a prefix of one content, two
    successful sampling calls return the same dimension, and the vectors of
    the smaller request are a prefix of those of the larger one. *)
Theorem sampling_prefix_stable content urlopen1 urlopen2 url1 url2 t1 t2 log1 log2
    nv1 nv2 d1 vs1 d2 vs2 :
  prefix_server content urlopen1 ->
  prefix_server content urlopen2 ->
  nv1 <= nv2 ->
  fst (fetch_aqed_sample_vectors urlopen1 url1 nv1 t1 log1) = Ok (d1, vs1) ->
  fst (fetch_aqed_sample_vectors urlopen2 url2 nv2 t2 log2) = Ok (d2, vs2) ->
  d1 = d2 /\ vs1 = firstn (length vs1) vs2 /\
  (nv1 = nv2 -> vs1 = vs2).
Proof.
  intros S1 S2 Hle H1 H2.
  destruct (prefix_server_run _ _ _ _ _ _ _ _ S1 H1) as (_ & Hn & -> & ->).
  destruct (prefix_server_run _ _ _ _ _ _ _ _ S2 H2) as (_ & _ & -> & ->).
  split; [reflexivity|]. split.
  - rewrite length_map, length_seq. apply map_seq_firstn.
    unfold take_count. lia.
  - intros ->. reflexivity.
Qed.

Lemma serve_whole_prefix s content : prefix_server content (serve_whole s content).
Proof.
  intros log rq. exists s, [], (length content). unfold serve_whole.
  rewrite firstn_all. reflexivity.
Qed.

Lemma serve_truncated_prefix s content cut : prefix_server content (serve_truncated s content cut).
Proof.
  intros log rq. unfold serve_truncated. destruct log; eexists _, _, _; reflexivity.
Qed.

(** X8 at a full-content server and a server that sends exactly the ranges. *)
Lemma sampling_prefix_stable_witness :
  exists vs1 vs2,
    fst (fetch_aqed_sample_vectors (serve_whole 200 original_file) "u" 3 timeout20 [])
      = Ok (8, vs1) /\
    fst (fetch_aqed_sample_vectors exact_ranges "v" 8 timeout20 []) = Ok (8, vs2) /\
    length vs1 = 3%nat /\ vs1 = firstn 3 vs2.
Proof.
  exists (map (record_at 8 original_file) (seq 0 3)),
         (map (record_at 8 original_file) (seq 0 8)).
  assert (H1 : fst (fetch_aqed_sample_vectors (serve_whole 200 original_file) "u" 3 timeout20 [])
               = Ok (8, map (record_at 8 original_file) (seq 0 3)))
    by (vm_compute; reflexivity).
  assert (H2 : fst (fetch_aqed_sample_vectors exact_ranges "v" 8 timeout20 [])
               = Ok (8, map (record_at 8 original_file) (seq 0 8)))
    by (vm_compute; reflexivity).
  destruct (sampling_prefix_stable original_file _ _ _ _ _ _ _ _ 3 8 _ _ _ _
              (serve_whole_prefix 200 original_file)
              (serve_truncated_prefix 200 original_file 320)
              ltac:(lia) H1 H2) as (_ & Hpre & _).
  split; [exact H1|]. split; [exact H2|]. split; [reflexivity|exact Hpre].
Defined.

Lemma record_at_tail d b1 b2 i :
  0 <= d ->
  slice_from 64 b1 = slice_from 64 b2 ->
  record_at d b1 i = record_at d b2 i.
Proof.
  intros Hd H. unfold record_at, record_bits_at, slice_from in *.
  replace (Z.to_nat (64 + Z.of_nat i * (d * 4)))
    with (Z.to_nat (Z.of_nat i * (d * 4)) + Z.to_nat 64)%nat by nia.
  rewrite <- !skipn_skipn, H. reflexivity.
Qed.

(** X9: the first 64 bytes of the payload response are never inspected: two
    payload responses with the same status, the same length and the same
    bytes from offset 64 on give the same result. *)
Theorem payload_header_not_revalidated urlopen1 urlopen2 url1 url2 t1 t2 log1 log2
    n_vectors n d f c1 c2 :
  agree_upto 64 (head_result urlopen1 url1 t1 log1) (head_result urlopen2 url2 t2 log2) ->
  header_stage (head_result urlopen1 url1 t1 log1) = Ok (n, d, f) ->
  let payload_end := 64 + take_count n_vectors n * d * 4 - 1 in
  chunk_result urlopen1 url1 t1 log1 payload_end = Ok c1 ->
  chunk_result urlopen2 url2 t2 log2 payload_end = Ok c2 ->
  status c1 = status c2 ->
  len (body c1) = len (body c2) ->
  slice_from 64 (body c1) = slice_from 64 (body c2) ->
  fst (fetch_aqed_sample_vectors urlopen1 url1 n_vectors t1 log1) =
  fst (fetch_aqed_sample_vectors urlopen2 url2 n_vectors t2 log2).
Proof.
  intros Hhead Hst payload_end Hc1 Hc2 Hs Hl Htail.
  rewrite !fetch_stages. unfold run_view.
  rewrite <- (header_stage_agree _ _ Hhead), Hst. cbv zeta. cbn [fst].
  fold payload_end. rewrite Hc1, Hc2.
  destruct (header_stage_positive _ _ _ _ Hst) as [Hn Hd].
  pose proof (take_count_pos n_vectors n ltac:(lia)) as Ht.
  unfold payload_stage. rewrite Hs, Hl.
  destruct (negb (status_ok (status c2))); [reflexivity|].
  destruct (Z.ltb_spec (len (body c2)) (64 + take_count n_vectors n * d * 4)); [reflexivity|].
  rewrite !decode_loop_records by (try lia; rewrite Z2Nat.id by lia; lia).
  do 2 f_equal. apply map_ext. intros i. apply record_at_tail; [lia|exact Htail].
Qed.

(** X9 at a payload response whose first 64 bytes are not a header at all. *)
Lemma payload_header_not_revalidated_witness :
  parse_aqed_header (slice_to 64 headless_payload) = Raise (ValueError MissingMagic) /\
  fst (fetch_aqed_sample_vectors (serve_whole 200 original_file) "u" 8 timeout20 []) =
  fst (fetch_aqed_sample_vectors (serve_two 200 original_file headless_payload) "u" 8
         timeout20 []) /\
  exists vs, fst (fetch_aqed_sample_vectors (serve_two 200 original_file headless_payload)
                    "u" 8 timeout20 []) = Ok (8, vs).
Proof.
  split; [vm_compute; reflexivity|]. split.
  - apply (payload_header_not_revalidated _ _ _ _ _ _ _ _ 8 100 8 1
             (mkHttpResult 200 [] original_file) (mkHttpResult 200 [] headless_payload)).
    + vm_compute. split; reflexivity.
    + vm_compute. reflexivity.
    + vm_compute. reflexivity.
    + vm_compute. reflexivity.
    + reflexivity.
    + vm_compute. reflexivity.
    + vm_compute. reflexivity.
  - eexists. vm_compute. reflexivity.
Defined.

(** ** [pick_model_id_for_dim] *)

Section PickProperties.

Variable int_of_str : string -> option Z.
Variable repr_of : Json -> string.

Lemma pick_loop_passed_over dim : forall pre rest,
  Forall (passed_over int_of_str dim) pre ->
  pick_loop int_of_str repr_of (pre ++ rest) dim = pick_loop int_of_str repr_of rest dim.
Proof.
  induction pre as [|m pre IH]; intros rest H; [reflexivity|].
  inversion H as [|m' pre' Hm Hpre]; subst.
  cbn [app pick_loop]. destruct m; try (apply IH; exact Hpre).
  cbn [passed_over] in Hm. destruct Hm as (v & -> & Hv).
  destruct (Z.eqb_spec v dim); [contradiction|]. apply IH. exact Hpre.
Qed.

End PickProperties.

(** X11: the first entry of the models list that is a dict whose [input_dim]
    equals [dim] or fails to convert decides the result, whatever follows
    it: its id as a string, [None] when the id is missing or falsy, or the
    exception of the conversion. *)
Theorem pick_first_decisive_entry int_of_str repr_of payload pre d post dim out :
  json_get "models" payload = Some (JList (pre ++ JDict d :: post)) ->
  Forall (passed_over int_of_str dim) pre ->
  entry_outcome int_of_str repr_of dim d = Some out ->
  pick_model_id_for_dim int_of_str repr_of (JDict payload) dim = out.
Proof.
  intros Hm Hpre Hout. cbn [pick_model_id_for_dim]. rewrite Hm.
  rewrite pick_loop_passed_over by exact Hpre.
  cbn [pick_loop]. unfold entry_outcome in Hout.
  destruct (py_int int_of_str (input_dim_of d)) as [v|e]; [|congruence].
  destruct (v =? dim); [|discriminate]. congruence.
Qed.

(** X11: an entry of the right dimension without an id hides a later one
    with an id; a null [input_dim] raises [TypeError]. *)
Lemma pick_first_decisive_entry_witness :
  pick_model_id_for_dim no_int_of_str no_repr models_listing 8 = Returned None /\
  pick_model_id_for_dim no_int_of_str no_repr models_listing 4 = Returned (Some "m4"%string) /\
  pick_model_id_for_dim no_int_of_str no_repr models_null_dim 8 = Raised PyTypeError.
Proof.
  split; [|split].
  - apply (pick_first_decisive_entry no_int_of_str no_repr _
             [JStr "x"; JDict [("id"%string, JStr "m4"); ("input_dim"%string, JInt 4)]]
             [("input_dim"%string, JInt 8)]
             [JDict [("id"%string, JStr "m8"); ("input_dim"%string, JInt 8)]]).
    + reflexivity.
    + repeat constructor. exists 4. split; [reflexivity|discriminate].
    + reflexivity.
  - apply (pick_first_decisive_entry no_int_of_str no_repr _ [JStr "x"]
             [("id"%string, JStr "m4"); ("input_dim"%string, JInt 4)]
             [JDict [("input_dim"%string, JInt 8)];
              JDict [("id"%string, JStr "m8"); ("input_dim"%string, JInt 8)]]).
    + reflexivity.
    + repeat constructor.
    + reflexivity.
  - apply (pick_first_decisive_entry no_int_of_str no_repr _ []
             [("id"%string, JStr "m0"); ("input_dim"%string, JNull)]
             [JDict [("id"%string, JStr "m8"); ("input_dim"%string, JInt 8)]]).
    + reflexivity.
    + constructor.
    + reflexivity.
Defined.

Lemma pick_loop_some int_of_str repr_of dim s : forall models,
  pick_loop int_of_str repr_of models dim = Returned (Some s) ->
  exists d,
    In (JDict d) models /\
    py_int int_of_str (input_dim_of d) = Returned dim /\
    json_truthy (id_of d) = true /\
    s = py_str repr_of (id_of d).
Proof.
  induction models as [|m models IH]; cbn [pick_loop]; [discriminate|].
  intros H.
  assert (Hrest : pick_loop int_of_str repr_of models dim = Returned (Some s) ->
                  exists d, In (JDict d) (m :: models) /\
                    py_int int_of_str (input_dim_of d) = Returned dim /\
                    json_truthy (id_of d) = true /\ s = py_str repr_of (id_of d)).
  { intros H'. destruct (IH H') as (d & Hin & Hrest). exists d. split; [right; exact Hin|exact Hrest]. }
  destruct m as [| | | | | |d]; try (apply Hrest; exact H).
  destruct (py_int int_of_str (input_dim_of d)) as [v|e] eqn:Ev; [|discriminate].
  destruct (Z.eqb_spec v dim) as [->|Hne]; [|apply Hrest; exact H].
  destruct (json_truthy (id_of d)) eqn:Et; [|discriminate].
  inversion H. exists d. repeat split; [left; reflexivity|exact Ev|exact Et].
Qed.

(** X12: a returned model id is the id, as a string, of an entry of the models
    list whose [input_dim] converts to [dim] and whose id is truthy; a string
    id is returned as it is and is not empty. *)
Theorem pick_result_sound int_of_str repr_of models_payload dim s :
  pick_model_id_for_dim int_of_str repr_of models_payload dim = Returned (Some s) ->
  exists payload models d,
    models_payload = JDict payload /\
    json_get "models" payload = Some (JList models) /\
    In (JDict d) models /\
    py_int int_of_str (input_dim_of d) = Returned dim /\
    json_truthy (id_of d) = true /\
    s = py_str repr_of (id_of d) /\
    (forall name, json_get "id" d = Some (JStr name) -> s = name /\ s <> ""%string).
Proof.
  destruct models_payload as [| | | | | |payload]; cbn [pick_model_id_for_dim]; try discriminate.
  destruct (json_get "models" payload) as [[| | | | |models|]|] eqn:Em; try discriminate.
  intros H. apply pick_loop_some in H. destruct H as (d & Hin & Hd & Ht & Hs).
  exists payload, models, d. repeat split; try assumption.
  - unfold id_of in Hs. rewrite H in Hs. exact Hs.
  - unfold id_of in Ht. rewrite H in Ht. cbn [json_truthy] in Ht.
    subst s. unfold id_of. rewrite H. cbn [py_str].
    intros ->. discriminate.
Qed.

(** X12 at [models_listing] and dimension 4. *)
Lemma pick_result_sound_witness :
  exists d,
    In (JDict d) [JStr "x"; JDict [("id"%string, JStr "m4"); ("input_dim"%string, JInt 4)];
                  JDict [("input_dim"%string, JInt 8)];
                  JDict [("id"%string, JStr "m8"); ("input_dim"%string, JInt 8)]] /\
    py_int no_int_of_str (input_dim_of d) = Returned 4 /\
    "m4"%string = py_str no_repr (id_of d).
Proof.
  destruct (pick_result_sound no_int_of_str no_repr models_listing 4 "m4" eq_refl)
    as (payload & models & d & Hp & Hm & Hin & Hd & _ & Hs & _).
  inversion Hp. subst payload. cbn in Hm. inversion Hm. subst models.
  exists d. repeat split; assumption.
Defined.

(** ** [http_json] *)

Lemma dict_get_update k : forall items d,
  NoDup (map fst items) ->
  dict_get k (dict_update d items) =
  match dict_get k items with
  | Some v => Some v
  | None => dict_get k d
  end.
Proof.
  unfold dict_update.
  induction items as [|[k0 v0] items IH]; intros d Hnd; [reflexivity|].
  inversion Hnd as [|k0' items' Hnotin Hnd']; subst.
  cbn [fold_left fst snd dict_get]. rewrite IH by exact Hnd'.
  destruct (String.eqb_spec k0 k) as [->|Hne].
  - rewrite dict_get_absent by exact Hnotin. apply dict_get_set_same.
  - destruct (dict_get k items); [reflexivity|].
    apply dict_get_set_other. congruence.
Qed.

Lemma dict_update_nodup : forall items d,
  NoDup (map fst d) -> NoDup (map fst (dict_update d items)).
Proof.
  unfold dict_update. induction items as [|[k v] items IH]; intros d H; [exact H|].
  cbn [fold_left]. apply IH. apply dict_set_nodup. exact H.
Qed.

Lemma dict_update_nil_id : forall d, NoDup (map fst d) -> dict_update [] d = d.
Proof.
  intros d. unfold dict_update.
  assert (G : forall acc, NoDup (map fst (acc ++ d)) ->
            fold_left (fun a kv => dict_set (fst kv) (snd kv) a) d acc = acc ++ d).
  { induction d as [|[k v] d IH]; intros acc H; cbn [fold_left].
    - rewrite app_nil_r. reflexivity.
    - cbn [fst snd].
      assert (Hset : dict_set k v acc = acc ++ [(k, v)]).
      { clear IH. induction acc as [|[k1 v1] acc IHa]; [reflexivity|].
        cbn [dict_set]. cbn [app map fst] in H. inversion H as [|x l Hx Hl]; subst.
        destruct (String.eqb_spec k1 k) as [->|Hne].
        - exfalso. apply Hx. rewrite map_app. apply in_or_app. right. left. reflexivity.
        - rewrite IHa by exact Hl. reflexivity. }
      rewrite Hset, IH; rewrite <- app_assoc; [reflexivity|exact H]. }
  intros H. apply (G [] H).
Qed.

Section HttpJsonProperties.

Variable urlopen : Env.
Variable json_dumps : Json -> bytes.
Variable json_loads : bytes -> option Json.

Lemma json_request_headers_nodup hdrs jb :
  NoDup (map fst (json_request_headers hdrs jb)).
Proof.
  unfold json_request_headers.
  assert (H0 : NoDup (map fst [("Accept", "application/json")]%string))
    by (repeat constructor; intros []).
  assert (H1 : NoDup (map fst match hdrs with
                              | Some (kv :: h) =>
                                  dict_update [("Accept", "application/json")]%string (kv :: h)
                              | _ => [("Accept", "application/json")]%string
                              end)).
  { destruct hdrs as [[|kv h]|]; try exact H0. apply dict_update_nodup. exact H0. }
  destruct jb; [apply dict_set_nodup|]; exact H1.
Qed.

Lemma build_json_request method url hdrs jb t :
  build_request method url (Some (json_request_headers hdrs jb))
    (json_request_body json_dumps jb) t =
  mkRequest url (upper method) (json_request_headers hdrs jb)
    (json_request_body json_dumps jb) t.
Proof.
  unfold build_request. pose proof (json_request_headers_nodup hdrs jb) as Hnd.
  destruct (json_request_headers hdrs jb) as [|kv h] eqn:E; [reflexivity|].
  rewrite dict_update_nil_id by exact Hnd. reflexivity.
Qed.

Lemma http_json_run method url hdrs jb t log :
  http_json urlopen json_dumps json_loads method url hdrs jb t log =
  let rq := mkRequest url (upper method) (json_request_headers hdrs jb)
              (json_request_body json_dumps jb) t in
  (match result_of_outcome (urlopen log rq) with
   | Ok res => Ok (res, json_payload json_loads (body res))
   | Raise e => Raise e
   end, log ++ [rq]).
Proof.
  unfold http_json, bind, http_request. rewrite build_json_request. cbv zeta.
  destruct (result_of_outcome _); reflexivity.
Qed.

Lemma http_json_request method url hdrs jb t log :
  snd (http_json urlopen json_dumps json_loads method url hdrs jb t log) =
  log ++ [mkRequest url (upper method) (json_request_headers hdrs jb)
            (json_request_body json_dumps jb) t].
Proof. rewrite http_json_run. reflexivity. Qed.

End HttpJsonProperties.

Lemma request_header_fields_snoc items k v :
  request_header_fields (items ++ [(k, v)]) =
  dict_set (capitalize k) v (request_header_fields items).
Proof. unfold request_header_fields. rewrite fold_left_app. reflexivity. Qed.

Lemma last_capitalized_app key : forall items more,
  last_capitalized key (items ++ more) =
  match last_capitalized key more with
  | Some w => Some w
  | None => last_capitalized key items
  end.
Proof.
  induction items as [|[k v] items IH]; intros more; cbn [app last_capitalized].
  - destruct (last_capitalized key more); reflexivity.
  - rewrite IH. destruct (last_capitalized key more); reflexivity.
Qed.

Lemma last_capitalized_snoc key items k v :
  last_capitalized key (items ++ [(k, v)]) =
  if String.eqb (capitalize k) key then Some v else last_capitalized key items.
Proof.
  rewrite last_capitalized_app. cbn [last_capitalized].
  destruct (String.eqb (capitalize k) key); reflexivity.
Qed.

(** A field of the [Request] is the value of the last item given under a
    spelling of its name. *)
Lemma header_field_last key : forall items,
  dict_get key (request_header_fields items) = last_capitalized key items.
Proof.
  induction items as [|[k v] items IH] using rev_ind; [reflexivity|].
  rewrite request_header_fields_snoc, last_capitalized_snoc.
  destruct (String.eqb_spec (capitalize k) key) as [<-|Hne].
  - apply dict_get_set_same.
  - rewrite dict_get_set_other by congruence. exact IH.
Qed.

Lemma last_capitalized_none key : forall items,
  ~ In key (map capitalize (map fst items)) -> last_capitalized key items = None.
Proof.
  induction items as [|[k v] items IH]; intros H; [reflexivity|].
  cbn [last_capitalized]. rewrite IH by (intros Hin; apply H; right; exact Hin).
  destruct (String.eqb_spec (capitalize k) key) as [E|_]; [|reflexivity].
  exfalso. apply H. left. exact E.
Qed.

Lemma last_capitalized_some key v : forall items,
  last_capitalized key items = Some v ->
  exists k, In (k, v) items /\ capitalize k = key.
Proof.
  induction items as [|[k0 v0] items IH]; [discriminate|].
  cbn [last_capitalized]. destruct (last_capitalized key items) as [w|].
  - intros H. inversion H. subst. destruct (IH eq_refl) as (k & Hin & Hk).
    exists k. split; [right; exact Hin|exact Hk].
  - destruct (String.eqb_spec (capitalize k0) key) as [E|_]; [|discriminate].
    intros H. inversion H. subst. exists k0. split; [left; reflexivity|reflexivity].
Qed.

Lemma last_capitalized_in k v : forall items,
  NoDup (map capitalize (map fst items)) ->
  In (k, v) items -> last_capitalized (capitalize k) items = Some v.
Proof.
  induction items as [|[k0 v0] items IH]; intros Hnd Hin; [destruct Hin|].
  cbn [map fst] in Hnd. inversion Hnd as [|x l Hx Hl]; subst.
  cbn [last_capitalized]. destruct Hin as [E|Hin].
  - inversion E. subst. rewrite last_capitalized_none by exact Hx.
    rewrite String.eqb_refl. reflexivity.
  - rewrite IH by assumption. reflexivity.
Qed.

Lemma dict_set_fresh k v : forall d,
  ~ In k (map fst d) -> dict_set k v d = d ++ [(k, v)].
Proof.
  induction d as [|[k0 v0] d IH]; intros H; [reflexivity|].
  cbn [dict_set]. destruct (String.eqb_spec k0 k) as [->|Hne].
  - exfalso. apply H. left. reflexivity.
  - rewrite IH by (intros Hin; apply H; right; exact Hin). reflexivity.
Qed.

Lemma last_capitalized_set_other key k v : capitalize k <> key ->
  forall d, last_capitalized key (dict_set k v d) = last_capitalized key d.
Proof.
  intros Hne. induction d as [|[k0 v0] d IH]; cbn [dict_set last_capitalized].
  - destruct (String.eqb_spec (capitalize k) key); [contradiction|reflexivity].
  - destruct (String.eqb_spec k0 k) as [->|H0]; cbn [last_capitalized].
    + destruct (String.eqb_spec (capitalize k) key); [contradiction|reflexivity].
    + rewrite IH. reflexivity.
Qed.

(** Setting [k] gives its value to the field when no other spelling of the
    name is among the keys. *)
Lemma last_capitalized_set_only k v : forall d,
  NoDup (map fst d) ->
  (forall k', In k' (map fst d) -> capitalize k' = capitalize k -> k' = k) ->
  last_capitalized (capitalize k) (dict_set k v d) = Some v.
Proof.
  induction d as [|[k0 v0] d IH]; intros Hnd Hone; cbn [dict_set last_capitalized].
  - rewrite String.eqb_refl. reflexivity.
  - cbn [map fst] in Hnd. inversion Hnd as [|x l Hx Hl]; subst.
    destruct (String.eqb_spec k0 k) as [->|H0]; cbn [last_capitalized].
    + rewrite last_capitalized_none, String.eqb_refl; [reflexivity|].
      intros Hin. apply in_map_iff in Hin. destruct Hin as (k' & Hc & Hk').
      assert (k' = k) by (apply Hone; [right; exact Hk'|exact Hc]). subst k'.
      contradiction.
    + rewrite IH; [reflexivity|exact Hl|].
      intros k' Hin. apply Hone. right. exact Hin.
Qed.

Lemma dict_update_keys k : forall items d,
  In k (map fst (dict_update d items)) -> In k (map fst d) \/ In k (map fst items).
Proof.
  unfold dict_update. induction items as [|[k0 v0] items IH]; intros d H; [left; exact H|].
  cbn [fold_left fst snd] in H. apply IH in H. destruct H as [H|H].
  - rewrite dict_set_keys in H.
    destruct (in_dec string_dec k0 (map fst d)); [left; exact H|].
    apply in_app_or in H. destruct H as [H|[<-|[]]]; [left; exact H|right; left; reflexivity].
  - right. right. exact H.
Qed.

Lemma capitalize_inj_on (keys : list string) k1 k2 :
  NoDup (map capitalize keys) -> In k1 keys -> In k2 keys ->
  capitalize k1 = capitalize k2 -> k1 = k2.
Proof.
  induction keys as [|k keys IH]; intros Hnd H1 H2 E; [destruct H1|].
  cbn [map] in Hnd. inversion Hnd as [|x l Hx Hl]; subst.
  destruct H1 as [->|H1], H2 as [->|H2].
  - reflexivity.
  - exfalso. apply Hx. rewrite E. apply in_map. exact H2.
  - exfalso. apply Hx. rewrite <- E. apply in_map. exact H1.
  - apply IH; assumption.
Qed.

(** A key set on top of [dict_update d0 h] that is either new or the only
    spelling of its name among the keys wins the field. *)
Lemma last_capitalized_set_wins k v d :
  NoDup (map fst d) ->
  (forall k', In k (map fst d) -> In k' (map fst d) ->
              capitalize k' = capitalize k -> k' = k) ->
  last_capitalized (capitalize k) (dict_set k v d) = Some v.
Proof.
  intros Hnd Hone. destruct (in_dec string_dec k (map fst d)) as [Hin|Hout].
  - apply last_capitalized_set_only; [exact Hnd|]. intros k'. apply Hone. exact Hin.
  - rewrite dict_set_fresh by exact Hout. rewrite last_capitalized_snoc, String.eqb_refl.
    reflexivity.
Qed.

(** The fields of a [Request] built from [{"Accept": a}] updated with caller
    headers whose names are distinct after capitalisation. *)
Lemma last_capitalized_update key a : forall h,
  NoDup (map capitalize (map fst h)) ->
  last_capitalized key (dict_update [("Accept", a)]%string h) =
  match last_capitalized key h with
  | Some v => Some v
  | None => last_capitalized key [("Accept", a)]%string
  end.
Proof.
  induction h as [|[k v] h IH] using rev_ind; intros Hnd.
  - cbn [dict_update fold_left]. reflexivity.
  - rewrite !map_app in Hnd. cbn [map fst] in Hnd.
    pose proof (NoDup_remove_1 _ _ _ Hnd) as Hnd'. rewrite app_nil_r in Hnd'.
    pose proof (NoDup_remove_2 _ _ _ Hnd) as Hk. rewrite app_nil_r in Hk.
    unfold dict_update. rewrite fold_left_app. cbn [fold_left fst snd].
    fold (dict_update [("Accept", a)]%string h).
    rewrite last_capitalized_snoc.
    destruct (String.eqb_spec (capitalize k) key) as [<-|Hne].
    + apply last_capitalized_set_wins.
      * apply dict_update_nodup. repeat constructor. intros [].
      * intros k' Hkin Hk'in E.
        apply dict_update_keys in Hkin. apply dict_update_keys in Hk'in.
        destruct Hkin as [[<-|[]]|Hkin].
        -- destruct Hk'in as [[<-|[]]|Hk'in]; [reflexivity|].
           exfalso. apply Hk. rewrite <- E. apply in_map. exact Hk'in.
        -- exfalso. apply Hk. apply in_map. exact Hkin.
    + rewrite last_capitalized_set_other by exact Hne. apply IH. exact Hnd'.
Qed.

Section HttpJsonWire.

Variable urlopen : Env.
Variable json_dumps : Json -> bytes.
Variable json_loads : bytes -> option Json.

Lemma json_request_headers_update hdrs jb :
  let h := match hdrs with Some h => h | None => [] end in
  json_request_headers hdrs jb =
  match jb with
  | Some _ => dict_set "Content-Type" "application/json"
                (dict_update [("Accept", "application/json")]%string h)
  | None => dict_update [("Accept", "application/json")]%string h
  end.
Proof. unfold json_request_headers. destruct hdrs as [[|kv h]|]; reflexivity. Qed.

End HttpJsonWire.

(** X13: for caller headers whose names stay distinct after [capitalize()],
    the [Request] object that [http_json] builds has the upper-cased method;
    its fields are stored under capitalised names; with a JSON body its
    [Content-type] is [application/json] whatever the caller passed under any
    spelling of that name, and its data are the dumped body; without one it
    has no data and the caller's [Content-type], if any; [Accept] is the
    caller's, under any spelling, or else [application/json]; every other
    field is the caller's. *)
Theorem http_json_request_headers urlopen json_dumps json_loads method url hdrs jb t log :
  let h := match hdrs with Some h => h | None => [] end in
  let caller := request_header_fields h in
  NoDup (map capitalize (map fst h)) ->
  exists r,
    snd (http_json urlopen json_dumps json_loads method url hdrs jb t log) = log ++ [r] /\
    req_url r = url /\ req_method r = upper method /\
    (forall k v, dict_get k caller = Some v <->
                 exists k', In (k', v) h /\ capitalize k' = k) /\
    (forall d, jb = Some d ->
       dict_get "Content-type" (wire_headers r) = Some "application/json"%string /\
       req_data r = Some (json_dumps (JDict d))) /\
    (jb = None ->
       dict_get "Content-type" (wire_headers r) = dict_get "Content-type" caller /\
       req_data r = None) /\
    dict_get "Accept" (wire_headers r) =
      match dict_get "Accept" caller with
      | Some v => Some v
      | None => Some "application/json"%string
      end /\
    (forall k, k <> "Content-type"%string -> k <> "Accept"%string ->
       dict_get k (wire_headers r) = dict_get k caller).
Proof.
  intros h caller Hnd. eexists. split; [apply http_json_request|].
  unfold wire_headers. cbn [req_url req_method req_data req_headers].
  split; [reflexivity|]. split; [reflexivity|].
  split.
  { intros k v. unfold caller. rewrite header_field_last. split.
    - apply last_capitalized_some.
    - intros (k' & Hin & <-). apply last_capitalized_in; assumption. }
  rewrite (json_request_headers_update hdrs jb). fold h.
  assert (Hbase : forall k,
            last_capitalized k (dict_update [("Accept", "application/json")]%string h) =
            match dict_get k caller with
            | Some v => Some v
            | None => last_capitalized k [("Accept", "application/json")]%string
            end).
  { intros k. unfold caller. rewrite header_field_last.
    apply last_capitalized_update. exact Hnd. }
  assert (Hacc : forall k, k <> "Accept"%string ->
            last_capitalized k [("Accept", "application/json")]%string = None).
  { intros k Hk. cbn [last_capitalized].
    destruct (String.eqb_spec (capitalize "Accept") k) as [E|_]; [|reflexivity].
    exfalso. apply Hk. rewrite <- E. reflexivity. }
  split; [|split; [|split]].
  - intros d ->. split; [|reflexivity]. rewrite header_field_last.
    change "Content-type"%string with (capitalize "Content-Type").
    apply last_capitalized_set_wins.
    + apply dict_update_nodup. repeat constructor. intros [].
    + intros k' Hin Hin' E.
      apply dict_update_keys in Hin. apply dict_update_keys in Hin'.
      destruct Hin as [[Hx|[]]|Hin]; [discriminate Hx|].
      destruct Hin' as [[<-|[]]|Hin']; [discriminate E|].
      apply (capitalize_inj_on (map fst h)); assumption.
  - intros ->. split; [|reflexivity]. rewrite header_field_last, Hbase.
    rewrite Hacc by discriminate. destruct (dict_get "Content-type" caller); reflexivity.
  - rewrite header_field_last. destruct jb.
    + rewrite last_capitalized_set_other by discriminate. rewrite Hbase. reflexivity.
    + rewrite Hbase. reflexivity.
  - intros k Hct Hk. rewrite header_field_last. destruct jb.
    + rewrite last_capitalized_set_other by (intros E; apply Hct; rewrite <- E; reflexivity).
      rewrite Hbase, Hacc by exact Hk. destruct (dict_get k caller); reflexivity.
    + rewrite Hbase, Hacc by exact Hk. destruct (dict_get k caller); reflexivity.
Qed.

(** X13 at a caller that passes a lower-case [content-type], a lower-case
    [accept] and an API key. *)
Lemma http_json_request_headers_witness :
  exists r,
    snd (http_json (serve_whole 200 []) toy_dumps toy_loads "post" "u"
           (Some [("content-type", "text/plain"); ("accept", "text/html");
                  ("X-API-Key", "k")]%string)
           (Some []) timeout20 []) = [r] /\
    req_method r = "POST"%string /\
    wire_headers r = [("Accept", "text/html"); ("Content-type", "application/json");
                      ("X-api-key", "k")]%string /\
    dict_get "Content-type" (wire_headers r) = Some "application/json"%string /\
    dict_get "Accept" (wire_headers r) = Some "text/html"%string /\
    dict_get "X-api-key" (wire_headers r) = Some "k"%string.
Proof.
  destruct (http_json_request_headers (serve_whole 200 []) toy_dumps toy_loads "post" "u"
              (Some [("content-type", "text/plain"); ("accept", "text/html");
                     ("X-API-Key", "k")]%string)
              (Some []) timeout20 [])
    as (r & Hlog & _ & Hm & _ & Hbody & _ & Hacc & Hother).
  { repeat constructor; cbn; intuition discriminate. }
  exists r. split; [exact Hlog|]. split; [exact Hm|].
  split.
  { cbn in Hlog. injection Hlog as <-. vm_compute. reflexivity. }
  split; [apply (Hbody [] eq_refl)|]. split; [exact Hacc|].
  rewrite Hother by discriminate. reflexivity.
Defined.



(** ** [main]: a small program logic and the invariant of a run *)

Lemma hoare_bind {A B} (P : World -> Prop) (c : IO A) (k : A -> IO B)
    (R : Exit A -> World -> Prop) (Q : Exit B -> World -> Prop) :
  hoare P c R ->
  (forall a, hoare (R (Finished a)) (k a) Q) ->
  (forall e w, R (Crashed e) w -> Q (Crashed e) w) ->
  hoare P (io_bind c k) Q.
Proof.
  intros Hc Hk He w Hw. unfold io_bind. specialize (Hc w Hw).
  destruct (c w) as [[a|e] w']; cbn [fst snd] in *.
  - apply Hk. exact Hc.
  - apply He. exact Hc.
Qed.

Lemma hoare_weaken {A} (P P' : World -> Prop) (c : IO A) (Q : Exit A -> World -> Prop) :
  (forall w, P' w -> P w) -> hoare P c Q -> hoare P' c Q.
Proof. intros H Hc w Hw. apply Hc, H, Hw. Qed.

Section MainProperties.

Variable urlopen : Env.
Variable json_dumps : Json -> bytes.
Variable json_loads : bytes -> option Json.
Variable int_of_str : string -> option Z.
Variable repr_of : Json -> string.
Variable str_strip : string -> string.
Variable w0 : World.
Variable plan : list Sig.
Variable key : string.

Local Notation "'inv'" := (main_inv w0 plan).
Local Notation "'post'" := (main_post w0 plan key).

Lemma inv_say k p :
  is_error p = false -> hoare (inv k) (say p) (fun _ => inv k).
Proof.
  intros Hp w (nr & np & Hr & Hpr & Hsig & Hne). cbn [say fst snd].
  exists nr, (np ++ [p]). cbn [requests printed].
  repeat split; try assumption.
  - rewrite Hpr, app_assoc. reflexivity.
  - rewrite forallb_app, Hne. cbn [forallb]. rewrite Hp. reflexivity.
Qed.

Lemma inv_ret {A} k (a : A) : hoare (inv k) (io_ret a) (fun _ => inv k).
Proof. intros w H. exact H. Qed.

Lemma inv_py {A} k (t : Try A) : hoare (inv k) (py t) (fun _ => inv k).
Proof. intros w H. destruct t; exact H. Qed.

Lemma inv_crash k e w :
  (k <= 7)%nat -> (key = EmptyString -> (k <= 4)%nat) -> inv k w -> post (Crashed e) w.
Proof.
  intros Hk Hkey (nr & np & Hr & Hpr & Hsig & Hne).
  exists nr, np, k. repeat split; assumption.
Qed.

Lemma inv_fatal k m :
  (1 <= k <= 6)%nat -> (key = EmptyString -> (k <= 4)%nat) -> hoare (inv k) (fatal m) post.
Proof.
  intros Hk Hkey w (nr & np & Hr & Hpr & Hsig & Hne). cbn [fatal io_bind say io_ret fst snd].
  exists nr, (np ++ [Error m]), k. cbn [requests printed].
  repeat split; try assumption; try lia.
  - rewrite Hpr, app_assoc. reflexivity.
  - right. repeat split; try lia. exists np, m. split; [reflexivity|exact Hne].
Qed.

Lemma inv_finish_no_key :
  key = EmptyString ->
  hoare (inv 4) (io_bind (warn NoApiKey) (fun _ => io_ret 0)) post.
Proof.
  intros Hkey w (nr & np & Hr & Hpr & Hsig & Hne).
  cbn [io_bind warn say io_ret fst snd].
  exists nr, (np ++ [Warning NoApiKey]), 4%nat. cbn [requests printed].
  repeat split; try assumption; try lia.
  - rewrite Hpr, app_assoc. reflexivity.
  - left. split; [reflexivity|]. split; [rewrite forallb_app, Hne; reflexivity|].
    left. repeat split; try assumption. exists np. reflexivity.
Qed.

Lemma inv_finish_done k :
  (6 <= k <= 7)%nat -> key <> EmptyString ->
  hoare (inv k) (io_bind (ok AllDone) (fun _ => io_ret 0)) post.
Proof.
  intros Hk Hkey w (nr & np & Hr & Hpr & Hsig & Hne).
  cbn [io_bind ok say io_ret fst snd].
  exists nr, (np ++ [Out AllDone]), k. cbn [requests printed].
  repeat split; try assumption; try lia.
  - rewrite Hpr, app_assoc. reflexivity.
  - intros E. contradiction.
  - left. split; [reflexivity|]. split; [rewrite forallb_app, Hne; reflexivity|].
    right. repeat split; try assumption; try lia. exists np. reflexivity.
Qed.

Lemma inv_request {A} (c : M A) k rq :
  (forall log, snd (c log) = log ++ [rq]) ->
  nth_error plan k = Some (sig_of rq) ->
  hoare (inv k) (net c) (fun _ => inv (S k)).
Proof.
  intros Hc Hnth w (nr & np & Hr & Hpr & Hsig & Hne). unfold net.
  specialize (Hc (requests w)).
  destruct (c (requests w)) as [[a|e] log]; cbn [fst snd] in *; subst log;
    (exists (nr ++ [rq]), np; cbn [requests printed];
     repeat split; try assumption;
     [rewrite Hr, app_assoc; reflexivity|];
     rewrite map_app, Hsig; cbn [map];
     clear -Hnth; revert k Hnth; induction plan as [|x l IH]; intros [|k] Hnth;
       cbn [nth_error] in Hnth; try discriminate;
       [inversion Hnth; reflexivity|cbn [firstn app]; f_equal; apply IH; exact Hnth]).
Qed.

Lemma inv_step {A} k k' (c : IO A) (cont : A -> IO Z) :
  hoare (inv k) c (fun _ => inv k') ->
  (k' <= 7)%nat -> (key = EmptyString -> (k' <= 4)%nat) ->
  (forall a, hoare (inv k') (cont a) post) ->
  hoare (inv k) (io_bind c cont) post.
Proof.
  intros Hc Hk Hkey Hcont.
  apply (hoare_bind (inv k) c cont (fun _ => inv k') post Hc Hcont).
  intros e w H. apply (inv_crash k' e w Hk Hkey H).
Qed.

Lemma firstn_snoc_nth {A} (l : list A) : forall k x,
  nth_error l k = Some x -> firstn (S k) l = firstn k l ++ [x].
Proof.
  induction l as [|a l IH]; intros [|k] x H; cbn [nth_error] in H; try discriminate.
  - inversion H. reflexivity.
  - cbn [firstn app]. f_equal. apply IH. exact H.
Qed.

Lemma inv_extend k w rq :
  nth_error plan k = Some (sig_of rq) ->
  inv k w -> inv (S k) (mkWorld (requests w ++ [rq]) (printed w)).
Proof.
  intros Hnth (nr & np & Hr & Hpr & Hsig & Hne).
  exists (nr ++ [rq]), np. cbn [requests printed]. repeat split; try assumption.
  - rewrite Hr, app_assoc. reflexivity.
  - rewrite map_app, Hsig, (firstn_snoc_nth plan k _ Hnth). reflexivity.
Qed.

Lemma inv_fetch url nv t :
  nth_error plan 2 = Some (sig_of (header_request url t)) ->
  (forall e, nth_error plan 3 = Some (sig_of (payload_request url t e))) ->
  hoare (inv 2) (try_net (fetch_aqed_sample_vectors urlopen url nv t))
    (fun x w => match x with
                | Finished (Ok _) => inv 4 w
                | _ => inv 3 w \/ inv 4 w
                end).
Proof.
  intros H2 H3 w Hw. unfold try_net. rewrite fetch_stages. unfold run_view.
  pose proof (inv_extend 2 w _ H2 Hw) as I3.
  destruct (header_stage (head_result urlopen url t (requests w))) as [[[n d] f]|e].
  - cbv zeta. cbn [fst snd].
    pose proof (inv_extend 3 _ _ (H3 (64 + take_count nv n * d * 4 - 1)) I3) as I4.
    cbn [requests printed] in I4.
    destruct (payload_stage _ _ _ _) as [[dim vs]|e]; [exact I4|right; exact I4].
  - cbn [fst snd]. left. exact I3.
Qed.

End MainProperties.

Lemma main_authenticated_run urlopen json_dumps json_loads w0 base data_url t pq c key'
    model_id vectors :
  let key := String c key' in
  hoare (main_inv w0 (main_plan base data_url key) 4)
    (main_authenticated urlopen json_dumps json_loads base t pq key model_id vectors)
    (main_post w0 (main_plan base data_url key) key).
Proof.
  intros key. unfold main_authenticated.
  assert (Hkey : forall k, key = EmptyString -> (k <= 4)%nat) by (intros k H; discriminate).
  eapply inv_step with (k' := 5%nat); [|lia|apply Hkey|].
  { eapply inv_request; [intros log; apply http_json_request|reflexivity]. }
  intros [vr vp]. destruct (negb (status vr =? 200)).
  { apply inv_fatal; [lia|apply Hkey]. }
  eapply inv_step with (k' := 5%nat); [apply inv_say; reflexivity|lia|apply Hkey|]. intros _.
  eapply inv_step with (k' := 5%nat); [|lia|apply Hkey|].
  { destruct vp; try apply inv_ret.
    destruct (json_has "quota_limit" items || json_has "quota_used" items);
      [apply inv_say; reflexivity|apply inv_ret]. }
  intros _.
  eapply inv_step with (k' := 6%nat); [|lia|apply Hkey|].
  { eapply inv_request; [intros log; apply http_json_request|reflexivity]. }
  intros [br bp]. destruct (negb (status br =? 200)).
  { apply inv_fatal; [lia|apply Hkey]. }
  destruct bp; try (apply inv_fatal; [lia|apply Hkey]).
  destruct (json_has "compressed" items && json_has "metadata" items);
    [|apply inv_fatal; [lia|apply Hkey]].
  destruct (json_get_or_null "compressed" items) as [| | | | |[|[| | | | |row|] rest]|];
    try (apply inv_fatal; [lia|apply Hkey]).
  eapply inv_step with (k' := 6%nat); [apply inv_say; reflexivity|lia|apply Hkey|]. intros _.
  eapply inv_step with (k' := 6%nat); [|lia|apply Hkey|].
  { destruct (json_get_or_null "metadata" items); try apply inv_ret.
    apply inv_say. reflexivity. }
  intros _.
  assert (Hfin : forall k, (6 <= k <= 7)%nat ->
            hoare (main_inv w0 (main_plan base data_url key) k)
              (io_bind (ok AllDone) (fun _ => io_ret 0))
              (main_post w0 (main_plan base data_url key) key)).
  { intros k Hk. apply inv_finish_done; [exact Hk|discriminate]. }
  destruct pq.
  - unfold main_pq.
    destruct model_id as [[|c0 mid]|].
    + eapply inv_step with (k' := 6%nat); [apply inv_say; reflexivity|lia|apply Hkey|].
      intros _. apply Hfin. lia.
    + destruct vectors as [|v0 vs].
      * eapply inv_step with (k' := 6%nat); [apply inv_py|lia|apply Hkey|].
        intros _. apply Hfin. lia.
      * eapply inv_step with (k' := 7%nat); [|lia|apply Hkey|intros _; apply Hfin; lia].
        eapply hoare_bind with (R := fun _ => main_inv w0 (main_plan base data_url key) 7).
        -- eapply inv_request; [intros log; apply http_json_request|reflexivity].
        -- intros [pr pp]. destruct pp; try (apply inv_say; reflexivity).
           destruct (status pr =? 200); [|apply inv_say; reflexivity].
           eapply hoare_bind with (R := fun _ => main_inv w0 (main_plan base data_url key) 7).
           ++ apply inv_say. reflexivity.
           ++ intros _. destruct (json_get "metadata" items0) as [[]|];
                try apply inv_ret; apply inv_say; reflexivity.
           ++ intros e w H. exact H.
        -- intros e w H. exact H.
    + eapply inv_step with (k' := 6%nat); [apply inv_say; reflexivity|lia|apply Hkey|].
      intros _. apply Hfin. lia.
  - eapply inv_step with (k' := 6%nat); [apply inv_ret|lia|apply Hkey|].
    intros _. apply Hfin. lia.
Qed.

Lemma main_inv_start w0 plan : main_inv w0 plan 0 w0.
Proof.
  exists [], []. rewrite !app_nil_r. repeat split.
Qed.

Lemma main_run urlopen json_dumps json_loads int_of_str repr_of str_strip args env_key w0 :
  let key := api_key_of str_strip env_key in
  let plan := main_plan (rstrip_slash (arg_base_url args)) (arg_data_url args) key in
  let run := main urlopen json_dumps json_loads int_of_str repr_of str_strip args env_key w0 in
  main_post w0 plan key (fst run) (snd run).
Proof.
  intros key plan run. subst run.
  revert w0 plan.
  enough (H : forall w0,
            hoare (main_inv w0 (main_plan (rstrip_slash (arg_base_url args))
                                  (arg_data_url args) key) 0)
              (main urlopen json_dumps json_loads int_of_str repr_of str_strip args env_key)
              (main_post w0 (main_plan (rstrip_slash (arg_base_url args))
                               (arg_data_url args) key) key)).
  { intros w0 plan. apply H. apply main_inv_start. }
  intros w0. unfold main. subst key. unfold api_key_of.
  set (base := rstrip_slash (arg_base_url args)).
  set (t := arg_timeout_s args).
  set (key := str_strip match env_key with Some k => k | None => EmptyString end).
  cbv zeta.
  eapply inv_step with (k' := 1%nat); [|lia|intros; lia|].
  { eapply inv_request; [intros log; reflexivity|reflexivity]. }
  intros health. destruct (negb (status health =? 200)).
  { apply inv_fatal; [lia|intros; lia]. }
  eapply inv_step with (k' := 1%nat); [apply inv_say; reflexivity|lia|intros; lia|]. intros _.
  eapply inv_step with (k' := 2%nat); [|lia|intros; lia|].
  { eapply inv_request; [intros log; apply http_json_request|reflexivity]. }
  intros [models_res models_payload]. destruct (negb (status models_res =? 200)).
  { apply inv_fatal; [lia|intros; lia]. }
  eapply inv_step with (k' := 2%nat); [apply inv_say; reflexivity|lia|intros; lia|]. intros _.
  eapply hoare_bind; [apply inv_fetch; [reflexivity|intros e; reflexivity]| |].
  2:{ intros e w [H|H]; [apply (inv_crash _ _ _ 3%nat)|apply (inv_crash _ _ _ 4%nat)];
        try lia; try exact H; intros; lia. }
  intros [[dim vectors]|e].
  2:{ intros w [H|H]; [apply (inv_fatal _ _ _ 3%nat)|apply (inv_fatal _ _ _ 4%nat)];
        try lia; try exact H; intros; lia. }
  eapply inv_step with (k' := 4%nat); [apply inv_say; reflexivity|lia|intros; lia|]. intros _.
  eapply inv_step with (k' := 4%nat); [apply inv_py|lia|intros; lia|]. intros model_id.
  eapply inv_step with (k' := 4%nat); [|lia|intros; lia|].
  { destruct model_id as [[|c0 mid]|]; try (apply inv_say; reflexivity). apply inv_ret. }
  intros _.
  destruct key as [|c key'] eqn:Ekey.
  - apply inv_finish_no_key. reflexivity.
  - apply main_authenticated_run.
Qed.


Lemma firstn_incl {A} (l : list A) : forall k x, In x (firstn k l) -> In x l.
Proof.
  induction l as [|a l IH]; intros [|k] x H; cbn [firstn] in H; try contradiction.
  destruct H as [->|H]; [left; reflexivity|right; eapply IH; exact H].
Qed.

(** X15: the requests of a run of [main] are, in order, a prefix of: health,
    models, the two dataset requests, verify, batch, compress-pq; the first
    four are GETs without body or API key. *)
Theorem main_requests_follow_plan urlopen json_dumps json_loads int_of_str repr_of str_strip
    args env_key w0 :
  let base := rstrip_slash (arg_base_url args) in
  let key := api_key_of str_strip env_key in
  let run := main urlopen json_dumps json_loads int_of_str repr_of str_strip args env_key w0 in
  exists issued k,
    requests (snd run) = requests w0 ++ issued /\
    map sig_of issued = firstn k (main_plan base (arg_data_url args) key) /\
    length issued = k /\ (k <= 7)%nat.
Proof.
  intros base key run.
  destruct (main_run urlopen json_dumps json_loads int_of_str repr_of str_strip args env_key w0)
    as (nr & np & k & Hr & _ & Hsig & Hk & _).
  exists nr, k. repeat split; try assumption.
  apply (f_equal (@length Sig)) in Hsig. rewrite length_map, length_firstn in Hsig.
  cbn [main_plan length] in Hsig. lia.
Qed.

(** X16: a request of [main] that carries [X-API-Key] carries the stripped key
    of the environment, which is then not empty, and goes to the verify,
    batch or compress-pq endpoint of the base URL; with an empty key at most
    four requests are made, all GETs without body and without the header. *)
Theorem main_key_confinement urlopen json_dumps json_loads int_of_str repr_of str_strip
    args env_key w0 :
  let base := rstrip_slash (arg_base_url args) in
  let key := api_key_of str_strip env_key in
  let run := main urlopen json_dumps json_loads int_of_str repr_of str_strip args env_key w0 in
  exists issued,
    requests (snd run) = requests w0 ++ issued /\
    (forall r v,
       In r issued -> dict_get "X-API-Key" (req_headers r) = Some v ->
       v = key /\ key <> EmptyString /\
       (req_url r = base ++ "/api/v1/auth/verify" \/
        req_url r = base ++ "/api/v1/compress/batch" \/
        req_url r = base ++ "/api/v1/compress-pq")%string) /\
    (key = EmptyString ->
       (length issued <= 4)%nat /\
       forall r, In r issued ->
         req_method r = "GET"%string /\ req_data r = None /\
         dict_get "X-API-Key" (req_headers r) = None).
Proof.
  intros base key run.
  destruct (main_run urlopen json_dumps json_loads int_of_str repr_of str_strip args env_key w0)
    as (nr & np & k & Hr & _ & Hsig & Hk & Hkey & _).
  fold base key in Hsig, Hkey.
  exists nr. split; [exact Hr|]. split.
  - intros r v Hin Hv.
    assert (Hs : In (sig_of r) (firstn k (main_plan base (arg_data_url args) key)))
      by (rewrite <- Hsig; apply in_map; exact Hin).
    assert (Hk4 : key = EmptyString -> In (sig_of r) (firstn 4 (main_plan base (arg_data_url args) key))).
    { intros E. specialize (Hkey E). clear -Hs Hkey.
      do 5 (destruct k as [|k]; [cbn [firstn main_plan In] in *; tauto|]). lia. }
    apply firstn_incl in Hs. unfold sig_of in *. cbn [main_plan In] in Hs.
    rewrite Hv in *.
    assert (Hne : key <> EmptyString).
    { intros E. specialize (Hk4 E). cbn [firstn main_plan In] in Hk4.
      destruct Hk4 as [H'|[H'|[H'|[H'|[]]]]]; discriminate. }
    destruct Hs as [H|[H|[H|[H|[H|[H|[H|[]]]]]]]]; try discriminate;
      injection H; intros; (split; [congruence|]); (split; [exact Hne|]);
      first [left; congruence|right; left; congruence|right; right; congruence].
  - intros E. specialize (Hkey E). split.
    + apply (f_equal (@length Sig)) in Hsig. rewrite length_map, length_firstn in Hsig. lia.
    + intros r Hin.
      assert (Hs : In (sig_of r) (firstn k (main_plan base (arg_data_url args) key)))
        by (rewrite <- Hsig; apply in_map; exact Hin).
      assert (Hs4 : In (sig_of r) (firstn 4 (main_plan base (arg_data_url args) key))).
      { clear -Hs Hkey.
        do 5 (destruct k as [|k]; [cbn [firstn main_plan In] in *; tauto|]). lia. }
      unfold sig_of in Hs4. cbn [firstn main_plan In] in Hs4.
      destruct (req_data r); destruct Hs4 as [H|[H|[H|[H|[]]]]]; inversion H; repeat split.
Qed.

(** X17: when [main] returns 0 no error line was printed and either the key is
    empty, exactly the four public requests were made and the last line is
    the missing-key warning, or the key is set, at least six requests were
    made and the last line is the final success line; when it returns 2 the
    last line is the only error line and at most six requests were made, so
    the compress-pq answer never fails a run; a run that raises printed no
    error line. *)
Theorem main_exit_code_meaning urlopen json_dumps json_loads int_of_str repr_of str_strip
    args env_key w0 :
  let key := api_key_of str_strip env_key in
  let run := main urlopen json_dumps json_loads int_of_str repr_of str_strip args env_key w0 in
  exists issued lines,
    requests (snd run) = requests w0 ++ issued /\
    printed (snd run) = printed w0 ++ lines /\
    match fst run with
    | Finished z =>
        (z = 0 /\ forallb (fun p => negb (is_error p)) lines = true /\
         ((key = EmptyString /\ length issued = 4%nat /\
           exists before, lines = before ++ [Warning NoApiKey]) \/
          (key <> EmptyString /\ (6 <= length issued <= 7)%nat /\
           exists before, lines = before ++ [Out AllDone]))) \/
        (z = 2 /\ (1 <= length issued <= 6)%nat /\
         exists before m, lines = before ++ [Error m] /\
                          forallb (fun p => negb (is_error p)) before = true)
    | Crashed _ => forallb (fun p => negb (is_error p)) lines = true
    end.
Proof.
  intros key run.
  destruct (main_run urlopen json_dumps json_loads int_of_str repr_of str_strip args env_key w0)
    as (nr & np & k & Hr & Hp & Hsig & Hk & Hkey & Hx).
  fold run key in Hr, Hp, Hx.
  assert (Hlen : length nr = k).
  { apply (f_equal (@length Sig)) in Hsig. rewrite length_map, length_firstn in Hsig.
    cbn [main_plan length] in Hsig. lia. }
  exists nr, np. split; [exact Hr|]. split; [exact Hp|].
  rewrite Hlen. destruct (fst run) as [z|c]; [|exact Hx].
  destruct Hx as [(Hz & Hne & Hwhy)|(Hz & Hk' & Herr)].
  - left. split; [exact Hz|]. split; [exact Hne|].
    destruct Hwhy as [(E & -> & Hl)|(E & Hk6 & Hl)]; [left|right]; repeat split;
      try assumption; lia.
  - right. split; [exact Hz|]. split; [exact Hk'|exact Herr].
Qed.

(** X15 at the scripted run, with and without an API key. *)
Lemma main_requests_follow_plan_witness :
  map sig_of (requests (snd (demo_run (Some "k"%string)))) =
    main_plan "https://api" "https://data/file" "k" /\
  map sig_of (requests (snd (demo_run None))) =
    firstn 4 (main_plan "https://api" "https://data/file" "").
Proof.
  split.
  - destruct (main_requests_follow_plan (scripted demo_script) toy_dumps demo_loads
                no_int_of_str no_repr (fun s => s) demo_args (Some "k"%string) (mkWorld [] []))
      as (issued & k & Hr & Hsig & Hlen & _).
    fold (demo_run (Some "k"%string)) in Hr. cbn [requests app] in Hr. rewrite Hr, Hsig.
    assert (Hk : k = 7%nat).
    { rewrite <- Hlen, <- Hr. vm_compute. reflexivity. }
    rewrite Hk. reflexivity.
  - destruct (main_requests_follow_plan (scripted demo_script) toy_dumps demo_loads
                no_int_of_str no_repr (fun s => s) demo_args None (mkWorld [] []))
      as (issued & k & Hr & Hsig & Hlen & _).
    fold (demo_run None) in Hr. cbn [requests app] in Hr. rewrite Hr, Hsig.
    assert (Hk : k = 4%nat).
    { rewrite <- Hlen, <- Hr. vm_compute. reflexivity. }
    rewrite Hk. reflexivity.
Defined.

(** X16 at the scripted run. *)
Lemma main_key_confinement_witness :
  (forall r, In r (requests (snd (demo_run None))) ->
     req_method r = "GET"%string /\ req_data r = None /\
     dict_get "X-API-Key" (req_headers r) = None) /\
  (forall r v, In r (requests (snd (demo_run (Some "k"%string)))) ->
     dict_get "X-API-Key" (req_headers r) = Some v -> v = "k"%string).
Proof.
  split.
  - destruct (main_key_confinement (scripted demo_script) toy_dumps demo_loads
                no_int_of_str no_repr (fun s => s) demo_args None (mkWorld [] []))
      as (issued & Hr & _ & Hblank).
    fold (demo_run None) in Hr. cbn [requests app] in Hr. rewrite Hr.
    apply (Hblank eq_refl).
  - destruct (main_key_confinement (scripted demo_script) toy_dumps demo_loads
                no_int_of_str no_repr (fun s => s) demo_args (Some "k"%string) (mkWorld [] []))
      as (issued & Hr & Hkey & _).
    fold (demo_run (Some "k"%string)) in Hr. cbn [requests app] in Hr. rewrite Hr.
    intros r v Hin Hv. apply (Hkey r v Hin Hv).
Defined.

(** X17 at the scripted run, whose compress-pq request fails. *)
Lemma main_exit_code_meaning_witness :
  fst (demo_run (Some "k"%string)) = Finished 0 /\
  exists before, printed (snd (demo_run (Some "k"%string))) = before ++ [Out AllDone].
Proof.
  destruct (main_exit_code_meaning (scripted demo_script) toy_dumps demo_loads
              no_int_of_str no_repr (fun s => s) demo_args (Some "k"%string) (mkWorld [] []))
    as (issued & lines & _ & Hp & Hx).
  fold (demo_run (Some "k"%string)) in Hp, Hx. cbn [printed app] in Hp.
  assert (E : fst (demo_run (Some "k"%string)) = Finished 0) by (vm_compute; reflexivity).
  split; [exact E|]. rewrite E in Hx. rewrite Hp.
  destruct Hx as [(_ & _ & [(Hk & _)|(_ & _ & Hl)])|(Hz & _)].
  - vm_compute in Hk. discriminate.
  - exact Hl.
  - discriminate.
Defined.

(** ** When sampling succeeds *)

(** X10: the sampling call returns [(dim, vs)] exactly when the header stage
    accepts a header of dimension [dim], the payload response has status 200
    or 206 and at least [64 + take * dim * 4] bytes, and [vs] are the
    [take] records read from it. *)
Theorem sampling_succeeds_iff urlopen url n_vectors timeout_s log dim vs :
  fst (fetch_aqed_sample_vectors urlopen url n_vectors timeout_s log) = Ok (dim, vs) <->
  exists n f chunk,
    header_stage (head_result urlopen url timeout_s log) = Ok (n, dim, f) /\
    chunk_result urlopen url timeout_s log (64 + take_count n_vectors n * dim * 4 - 1)
      = Ok chunk /\
    status_ok (status chunk) = true /\
    64 + take_count n_vectors n * dim * 4 <= len (body chunk) /\
    vs = map (record_at dim (body chunk)) (seq 0 (Z.to_nat (take_count n_vectors n))).
Proof.
  split; [apply run_ok_inv|].
  intros (n & f & chunk & Hst & Hc & Hcs & Hcl & ->).
  rewrite fetch_stages. unfold run_view. rewrite Hst. cbv zeta. cbn [fst]. rewrite Hc.
  destruct (header_stage_positive _ _ _ _ Hst) as [Hn Hd].
  pose proof (take_count_pos n_vectors n ltac:(lia)).
  apply payload_stage_ok; try assumption; lia.
Qed.

(** ** [main]: the exceptions that escape *)

Lemma py_int_no_index int_of_str j : py_int int_of_str j <> Raised PyIndexError.
Proof.
  destruct j as [| | |x| | |]; cbn [py_int]; try discriminate.
  - destruct x; cbn [int_of_float]; discriminate.
  - destruct (int_of_str s); discriminate.
Qed.

Lemma pick_loop_no_index int_of_str repr_of dim : forall models,
  pick_loop int_of_str repr_of models dim <> Raised PyIndexError.
Proof.
  induction models as [|m models IH]; cbn [pick_loop]; [discriminate|].
  destruct m; try exact IH.
  destruct (py_int int_of_str (input_dim_of items)) as [v|e] eqn:E.
  - destruct (v =? dim); [discriminate|exact IH].
  - intros H. inversion H. subst e. apply (py_int_no_index _ _ E).
Qed.

Lemma pick_no_index int_of_str repr_of payload dim :
  pick_model_id_for_dim int_of_str repr_of payload dim <> Raised PyIndexError.
Proof.
  destruct payload; cbn [pick_model_id_for_dim]; try discriminate.
  destruct (json_get "models" items) as [[]|]; try discriminate.
  apply pick_loop_no_index.
Qed.

Lemma fetch_vectors_nonempty urlopen url nv t log dim vs :
  fst (fetch_aqed_sample_vectors urlopen url nv t log) = Ok (dim, vs) -> vs <> [].
Proof.
  intros H. apply run_ok_inv in H. destruct H as (n & f & chunk & Hst & _ & _ & _ & ->).
  destruct (header_stage_positive _ _ _ _ Hst) as [Hn _].
  pose proof (take_count_pos nv n ltac:(lia)) as Ht.
  destruct (Z.to_nat (take_count nv n)) eqn:E; [lia|]. discriminate.
Qed.

Lemma hoare_facts {A} (P : World -> Prop) (F : Prop) (c : IO A)
    (Q : Exit A -> World -> Prop) :
  (F -> hoare P c Q) -> hoare (fun w => P w /\ F) c Q.
Proof. intros H w [Hp Hf]. apply (H Hf). exact Hp. Qed.

Section EscapeLogic.

Variable urlopen : Env.
Variable json_dumps : Json -> bytes.
Variable json_loads : bytes -> option Json.
Variable int_of_str : string -> option Z.
Variable repr_of : Json -> string.
Variable base data_url : string.
Variable nv : Z.
Variable t : pyfloat.
Variable w0 : World.

Local Notation "'escapes'" :=
  (escape_post urlopen json_loads int_of_str repr_of base data_url nv t w0).

(** A step that may raise: its crashes already satisfy the final condition. *)
Lemma esc_step {A} (P : World -> Prop) (c : IO A) (cont : A -> IO Z)
    (R : A -> World -> Prop) :
  hoare P c (fun x w => match x with
                        | Finished a => R a w
                        | Crashed cr => escapes (Crashed cr) w
                        end) ->
  (forall a, hoare (R a) (cont a) escapes) ->
  hoare P (io_bind c cont) escapes.
Proof.
  intros Hc Hk.
  apply (hoare_bind P c cont
           (fun x w => match x with
                       | Finished a => R a w
                       | Crashed cr => escapes (Crashed cr) w
                       end) escapes Hc).
  - intros a. apply Hk.
  - intros e w H. exact H.
Qed.

(** A step that prints or returns: it does not raise and leaves the log of
    requests alone. *)
Lemma esc_quiet {A} (I : list Request -> Prop) (c : IO A) (cont : A -> IO Z) :
  (forall w, exists a, fst (c w) = Finished a /\ requests (snd (c w)) = requests w) ->
  (forall a, hoare (fun w => I (requests w)) (cont a) escapes) ->
  hoare (fun w => I (requests w)) (io_bind c cont) escapes.
Proof.
  intros Hc Hk w Hw. unfold io_bind. destruct (Hc w) as (a & Ha & Hr).
  destruct (c w) as [x w']. cbn [fst snd] in Ha, Hr. subst x.
  apply Hk. rewrite Hr. exact Hw.
Qed.

Lemma quiet_say p w :
  exists a, fst (say p w) = Finished a /\ requests (snd (say p w)) = requests w.
Proof. exists tt. split; reflexivity. Qed.

Lemma quiet_ret {A} (a : A) w :
  exists a', fst (io_ret a w) = Finished a' /\ requests (snd (io_ret a w)) = requests w.
Proof. exists a. split; reflexivity. Qed.

Lemma esc_finished (P : World -> Prop) (c : IO Z) :
  (forall w, exists z, fst (c w) = Finished z) -> hoare P c escapes.
Proof. intros H w _. destruct (H w) as (z & ->). exact I. Qed.

Lemma fatal_finished m w : exists z, fst (fatal m w) = Finished z.
Proof. exists 2. reflexivity. Qed.

(** An API request issued when [k] requests have been made. *)
Lemma esc_request {A} (c : M A) (rq : Request) (k : nat) (f : HttpResult -> A)
    (cont : A -> IO Z) :
  (forall log, c log = (match result_of_outcome (urlopen log rq) with
                        | Ok r => Ok (f r)
                        | Raise e => Raise e
                        end, log ++ [rq])) ->
  In k [0; 1; 4; 5; 6]%nat ->
  In (req_url rq) (api_endpoints base) ->
  (forall a, hoare (requests_made w0 (S k)) (cont a) escapes) ->
  hoare (requests_made w0 k) (io_bind (net c) cont) escapes.
Proof.
  intros Hc Hk Hurl Hcont.
  apply esc_step with (R := fun _ => requests_made w0 (S k)); [|exact Hcont].
  intros w (nr & Hr & Hlen). unfold net. rewrite Hc.
  destruct (result_of_outcome (urlopen (requests w) rq)) as [r|e] eqn:E; cbn [fst snd].
  - exists (nr ++ [rq]). cbn [requests]. split; [rewrite Hr, app_assoc; reflexivity|].
    rewrite length_app. cbn [length]. lia.
  - apply result_of_outcome_transport in E. destruct E as (cause & Ho & ->).
    exists nr, rq. cbn [requests]. split; [rewrite Hr, app_assoc; reflexivity|].
    exists cause. split; [reflexivity|]. rewrite <- Hr. split; [exact Ho|].
    rewrite Hlen. split; assumption.
Qed.

Lemma http_json_shape method url hdrs jb t' log :
  http_json urlopen json_dumps json_loads method url hdrs jb t' log =
  (match result_of_outcome
           (urlopen log (mkRequest url (upper method) (json_request_headers hdrs jb)
                           (json_request_body json_dumps jb) t')) with
   | Ok r => Ok ((fun r => (r, json_payload json_loads (body r))) r)
   | Raise e => Raise e
   end, log ++ [mkRequest url (upper method) (json_request_headers hdrs jb)
                  (json_request_body json_dumps jb) t']).
Proof. rewrite http_json_run. reflexivity. Qed.

Lemma in_endpoints_verify : In (base ++ "/api/v1/auth/verify")%string (api_endpoints base).
Proof. right. right. left. reflexivity. Qed.

Lemma in_endpoints_batch : In (base ++ "/api/v1/compress/batch")%string (api_endpoints base).
Proof. right. right. right. left. reflexivity. Qed.

Lemma in_endpoints_pq : In (base ++ "/api/v1/compress-pq")%string (api_endpoints base).
Proof. right. right. right. right. left. reflexivity. Qed.

(** The authenticated checks raise only through their three requests. *)
Lemma main_authenticated_escapes pq api_key model_id vectors :
  vectors <> [] ->
  hoare (requests_made w0 4)
    (main_authenticated urlopen json_dumps json_loads base t pq api_key model_id vectors)
    escapes.
Proof.
  intros Hvs. unfold main_authenticated. cbv zeta.
  eapply esc_request with (k := 4%nat);
    [intros log; apply http_json_shape|cbn; tauto|apply in_endpoints_verify|].
  intros [vr vp]. destruct (negb (status vr =? 200)).
  { apply esc_finished. apply fatal_finished. }
  apply (esc_quiet (fun log => exists nr, log = requests w0 ++ nr /\ length nr = 5%nat));
    [apply quiet_say|]. intros _.
  apply (esc_quiet (fun log => exists nr, log = requests w0 ++ nr /\ length nr = 5%nat)).
  { intros w. destruct vp; try apply quiet_ret.
    destruct (json_has "quota_limit" items || json_has "quota_used" items);
      [apply quiet_say|apply quiet_ret]. }
  intros _.
  eapply esc_request with (k := 5%nat);
    [intros log; apply http_json_shape|cbn; tauto|apply in_endpoints_batch|].
  intros [br bp]. destruct (negb (status br =? 200)).
  { apply esc_finished. apply fatal_finished. }
  destruct bp; try (apply esc_finished; apply fatal_finished).
  destruct (json_has "compressed" items && json_has "metadata" items);
    [|apply esc_finished; apply fatal_finished].
  destruct (json_get_or_null "compressed" items) as [| | | | |[|[| | | | |row|] rest]|];
    try (apply esc_finished; apply fatal_finished).
  apply (esc_quiet (fun log => exists nr, log = requests w0 ++ nr /\ length nr = 6%nat));
    [apply quiet_say|]. intros _.
  apply (esc_quiet (fun log => exists nr, log = requests w0 ++ nr /\ length nr = 6%nat)).
  { intros w. destruct (json_get_or_null "metadata" items); try apply quiet_ret.
    apply quiet_say. }
  intros _.
  assert (Hdone : forall (P : World -> Prop),
            hoare P (io_bind (ok AllDone) (fun _ => io_ret 0)) escapes).
  { intros P. apply esc_finished. intros w. exists 0. reflexivity. }
  destruct pq.
  - unfold main_pq. destruct model_id as [[|c0 mid]|].
    + apply (esc_quiet (fun log => exists nr, log = requests w0 ++ nr /\ length nr = 6%nat));
        [apply quiet_say|]. intros _. apply Hdone.
    + destruct vectors as [|v0 vs]; [contradiction|].
      apply esc_step with (R := fun _ _ => True); [|intros _; apply Hdone].
      eapply hoare_bind with
        (R := fun x w => match x with
                         | Finished _ => True
                         | Crashed cr => escapes (Crashed cr) w
                         end).
      * intros w (nr & Hr & Hlen). unfold net. rewrite http_json_shape.
        destruct (result_of_outcome _) as [r|e] eqn:E; cbn [fst snd]; [exact I|].
        apply result_of_outcome_transport in E. destruct E as (cause & Ho & ->).
        eexists nr, _. cbn [requests]. split; [rewrite Hr, app_assoc; reflexivity|].
        exists cause. split; [reflexivity|]. rewrite <- Hr. split; [exact Ho|].
        rewrite Hlen. split; [cbn; tauto|apply in_endpoints_pq].
      * intros [pr pp] w _. destruct pp; try exact I.
        destruct (status pr =? 200); [|exact I].
        cbn [io_bind ok say fst snd].
        destruct (json_get "metadata" items0) as [[]|]; exact I.
      * intros e w H. exact H.
    + apply (esc_quiet (fun log => exists nr, log = requests w0 ++ nr /\ length nr = 6%nat));
        [apply quiet_say|]. intros _. apply Hdone.
  - apply (esc_quiet (fun log => exists nr, log = requests w0 ++ nr /\ length nr = 6%nat));
      [apply quiet_ret|]. intros _. apply Hdone.
Qed.

End EscapeLogic.

Lemma main_escapes urlopen json_dumps json_loads int_of_str repr_of str_strip args env_key w0 :
  let run := main urlopen json_dumps json_loads int_of_str repr_of str_strip args env_key w0 in
  escape_post urlopen json_loads int_of_str repr_of (rstrip_slash (arg_base_url args))
    (arg_data_url args) (arg_sample args) (arg_timeout_s args) w0 (fst run) (snd run).
Proof.
  intros run. subst run.
  set (base := rstrip_slash (arg_base_url args)).
  set (t := arg_timeout_s args).
  enough (H : hoare (requests_made w0 0)
                (main urlopen json_dumps json_loads int_of_str repr_of str_strip args env_key)
                (escape_post urlopen json_loads int_of_str repr_of base (arg_data_url args)
                   (arg_sample args) t w0)).
  { apply H. exists []. rewrite app_nil_r. split; reflexivity. }
  unfold main. fold base t. cbv zeta.
  (* health *)
  apply esc_step with (R := fun _ => log_is w0 [health_request base t]).
  { intros w (nr & Hr & Hlen). destruct nr; [|discriminate]. rewrite app_nil_r in Hr.
    unfold net, http_request.
    change (build_request "GET" (base ++ "/health") None None t) with (health_request base t).
    destruct (result_of_outcome _) as [r|e] eqn:E; cbn [fst snd].
    - unfold log_is. cbn [requests]. rewrite Hr. reflexivity.
    - apply result_of_outcome_transport in E. destruct E as (cause & Ho & ->).
      exists [], (health_request base t). cbn [requests]. rewrite Hr.
      split; [reflexivity|]. exists cause. rewrite app_nil_r, <- Hr.
      split; [reflexivity|]. split; [exact Ho|]. split; [cbn; tauto|left; reflexivity]. }
  intros health. destruct (negb (status health =? 200)).
  { apply esc_finished. apply fatal_finished. }
  apply (esc_quiet _ _ _ _ _ _ _ _ _ (fun log => log = requests w0 ++ [health_request base t]));
    [apply quiet_say|]. intros _.
  (* models *)
  apply esc_step with
    (R := fun a w => log_is w0 [health_request base t; models_request base t] w /\
                     exists res,
                       result_of_outcome (urlopen (requests w0 ++ [health_request base t])
                                            (models_request base t)) = Ok res /\
                       snd a = json_payload json_loads (body res)).
  { intros w Hw. unfold log_is in Hw. unfold net. rewrite http_json_run. cbv zeta.
    change (mkRequest (base ++ "/api/v1/models") (upper "GET")
              (json_request_headers None None) (json_request_body json_dumps None) t)
      with (models_request base t).
    rewrite Hw.
    destruct (result_of_outcome _) as [r|e] eqn:E; cbn [fst snd].
    - split; [unfold log_is; cbn [requests]; rewrite <- app_assoc; reflexivity|].
      exists r. split; reflexivity.
    - apply result_of_outcome_transport in E. destruct E as (cause & Ho & ->).
      exists [health_request base t], (models_request base t). cbn [requests].
      split; [rewrite <- app_assoc; reflexivity|]. exists cause.
      split; [reflexivity|]. split; [exact Ho|].
      split; [cbn; tauto|right; left; reflexivity]. }
  intros [models_res models_payload]. cbn [snd].
  destruct (negb (status models_res =? 200)).
  { apply esc_finished. apply fatal_finished. }
  apply hoare_facts. intros (res & Hres & ->).
  apply (esc_quiet _ _ _ _ _ _ _ _ _
           (fun log => log = requests w0 ++ [health_request base t; models_request base t]));
    [apply quiet_say|]. intros _.
  (* the dataset requests, inside the try *)
  apply esc_step with
    (R := fun fetched w =>
            match fetched with
            | Ok (dim, vs) =>
                requests_made w0 4 w /\ vs <> [] /\
                fst (fetch_aqed_sample_vectors urlopen (arg_data_url args) (arg_sample args) t
                       (requests w0 ++ [health_request base t; models_request base t]))
                  = Ok (dim, vs)
            | Raise _ => True
            end).
  { intros w Hw. unfold try_net.
    destruct (fetch_aqed_sample_vectors urlopen (arg_data_url args) (arg_sample args) t
                (requests w)) as [r log] eqn:E.
    cbn [fst snd]. destruct r as [[dim vs]|e]; [|exact I].
    rewrite Hw in E.
    assert (Hfst : fst (fetch_aqed_sample_vectors urlopen (arg_data_url args)
                          (arg_sample args) t
                          (requests w0 ++ [health_request base t; models_request base t]))
                   = Ok (dim, vs)) by (rewrite E; reflexivity).
    split; [|split; [|exact Hfst]].
    - rewrite fetch_stages in E. unfold run_view in E.
      destruct (header_stage _) as [[[n d] f]|e]; [|inversion E].
      cbv zeta in E. inversion E as [[Hp Hl]]. cbn [requests].
      eexists [_; _; _; _]. rewrite <- !app_assoc. split; reflexivity.
    - apply (fetch_vectors_nonempty _ _ _ _ _ _ _ Hfst). }
  intros [[dim vectors]|e]; [|apply esc_finished; apply fatal_finished].
  apply hoare_facts. intros (Hvs & Hfetch).
  apply (esc_quiet _ _ _ _ _ _ _ _ _
           (fun log => exists nr, log = requests w0 ++ nr /\ length nr = 4%nat));
    [apply quiet_say|]. intros _.
  (* pick_model_id_for_dim *)
  apply esc_step with (R := fun _ => requests_made w0 4).
  { intros w (nr & Hr & Hlen). unfold py.
    destruct (pick_model_id_for_dim int_of_str repr_of (json_payload json_loads (body res)) dim)
      as [m|e] eqn:E; cbn [fst snd]; [exists nr; split; assumption|].
    destruct nr as [|r1 [|r2 [|r3 [|r4 [|r5 nr]]]]]; try discriminate.
    exists [r1; r2; r3], r4. split; [exact Hr|]. split; [reflexivity|].
    split; [intros ->; apply (pick_no_index _ _ _ _ E)|].
    exists res, dim, vectors. split; [exact Hres|]. split; [exact Hfetch|exact E]. }
  intros model_id.
  apply (esc_quiet _ _ _ _ _ _ _ _ _
           (fun log => exists nr, log = requests w0 ++ nr /\ length nr = 4%nat)).
  { intros w. destruct model_id as [[|c0 mid]|]; try apply quiet_say. apply quiet_ret. }
  intros _.
  destruct (str_strip _) as [|ch key'].
  - apply esc_finished. intros w. exists 0. reflexivity.
  - apply main_authenticated_escapes. exact Hvs.
Qed.

(** When the sampling call raises, [main] prints the failure and returns 2. *)
Lemma main_sampling_failure urlopen json_dumps json_loads int_of_str repr_of str_strip
    args env_key w0 health res e :
  let base := rstrip_slash (arg_base_url args) in
  let t := arg_timeout_s args in
  let sampling :=
    fetch_aqed_sample_vectors urlopen (arg_data_url args) (arg_sample args) t
      (requests w0 ++ [health_request base t; models_request base t]) in
  let run := main urlopen json_dumps json_loads int_of_str repr_of str_strip args env_key w0 in
  result_of_outcome (urlopen (requests w0) (health_request base t)) = Ok health ->
  status health = 200 ->
  result_of_outcome (urlopen (requests w0 ++ [health_request base t]) (models_request base t))
    = Ok res ->
  status res = 200 ->
  fst sampling = Raise e ->
  fst run = Finished 2 /\ requests (snd run) = snd sampling /\
  printed (snd run) = printed w0 ++ [Out HealthOk; Out ModelsOk; Error (DataFailed e)].
Proof.
  intros base t sampling run Hh Hhs Hm Hms Hs.
  assert (Hrun : run = (Finished 2,
                        mkWorld (snd sampling)
                          (printed w0 ++
                           [Out HealthOk; Out ModelsOk; Error (DataFailed e)]))).
  { subst run. unfold main. fold base t. cbv zeta.
    unfold io_bind at 1. unfold net at 1. unfold http_request.
    change (build_request "GET" (base ++ "/health") None None t) with (health_request base t).
    rewrite Hh, Hhs. cbn [Z.eqb Pos.eqb negb].
    unfold io_bind at 1. cbn [ok say].
    unfold io_bind at 1. unfold net at 1. rewrite http_json_run. cbv zeta.
    change (mkRequest (base ++ "/api/v1/models") (upper "GET")
              (json_request_headers None None) (json_request_body json_dumps None) t)
      with (models_request base t).
    cbn [requests printed]. rewrite Hm, Hms. cbn [Z.eqb Pos.eqb negb].
    unfold io_bind at 1. cbn [ok say].
    unfold io_bind at 1. unfold try_net at 1. cbn [requests printed].
    rewrite <- app_assoc. cbn [app]. fold sampling.
    destruct sampling as [r log]. cbn [fst snd] in *. subst r.
    cbn [fatal io_bind say io_ret fst snd requests printed].
    rewrite <- !app_assoc. reflexivity. }
  rewrite Hrun. repeat split.
Qed.


